(** * BlackjackCLI: hand evaluation, dealer rule, shoe management and
      round engine, embedded from the TypeScript sources.

    - [src/types/Card.ts]         : [CardRank], [CardSuit], [Card],
                                    [getCardValue]
    - [src/shared/Participant.ts] : [getCardTotal], [hasBlackjack]
    - [src/game/Dealer.ts]        : [getUpcard], [shouldHit]
    - [src/game/DeckManager.ts]   : the shoe and its cut card
    - [src/player/Player.ts]      : balance and bet
    - [src/game/GameEngine.ts]    : betting, dealing, dealer play, outcome,
                                    payout
    - [src/api/DeckOfCardsApiClient.ts] : the card service's client
    - [src/player/storage/LevelDbPlayerStorage.ts] : saving and loading
    - [src/cli/prompts.ts]        : what the prompts accept
    - [src/App.ts]                : [setup] and the state machine of [run]

    Number model.  Hand totals are sums of small integers and are kept in
    [Z].  Every other [number] of the program (the shoe's counters, the
    balance, the stake, the payout) is an IEEE-754 binary64 value
    ([spec_float] at precision 53) and is computed with the rounding
    operations of [SpecFloat].  Rationals [Q] appear only as the exact
    value [toQ] of a double, to say when a computation is exact. *)

From Stdlib Require Import ZArith List String Bool Lia QArith Qround Qpower.
From Stdlib Require Import SpecFloat DecimalString.
Import ListNotations.

Local Open Scope Z_scope.

(** ** Cards ([src/types/Card.ts]) *)

Inductive CardSuit := HEARTS | CLUBS | DIAMONDS | SPADES.

Inductive CardRank :=
  | R2 | R3 | R4 | R5 | R6 | R7 | R8 | R9 | R10 | RJ | RQ | RK | RA.

Record Card := mkCard { code : string; suit : CardSuit; rank : CardRank }.

Definition isAce (r : CardRank) : bool :=
  match r with RA => true | _ => false end.

(** [getCardValue]: an Ace is 11 "by default", J/Q/K are 10, the other
    ranks are parsed as decimal numbers. *)
Definition getCardValue (card : Card) : Z :=
  match rank card with
  | RA => 11
  | RJ | RQ | RK => 10
  | R2 => 2 | R3 => 3 | R4 => 4 | R5 => 5 | R6 => 6
  | R7 => 7 | R8 => 8 | R9 => 9 | R10 => 10
  end.

(** ** Participant ([src/shared/Participant.ts]) *)

Record CardTotal := mkCardTotal { value : Z; hasSoftAce : bool }.

(** First loop of [getCardTotal]: one step per card, on the pair
    (numberOfAces, totalValue). *)
Definition firstPassStep (acc : nat * Z) (card : Card) : nat * Z :=
  let '(numberOfAces, totalValue) := acc in
  if isAce (rank card)
  then (S numberOfAces, totalValue)
  else (numberOfAces, totalValue + getCardValue card).

Definition firstPass (cards : list Card) : nat * Z :=
  fold_left firstPassStep cards (0%nat, 0).

(** Second loop: [for (let i = numberOfAces - 1; i >= 0; i--)].  The
    argument [k] is [i + 1], so [secondPass k] runs the iterations
    [i = k-1, ..., 0]. *)
Fixpoint secondPass (k : nat) (hasSoft : bool) (totalValue : Z) : CardTotal :=
  match k with
  | O => mkCardTotal totalValue hasSoft
  | S i =>
      if Nat.eqb i 0 && (totalValue + 11 <=? 21)
      then secondPass i true (totalValue + 11)
      else secondPass i hasSoft (totalValue + 1)
  end.

Definition cardTotalOf (cards : list Card) : CardTotal :=
  let '(numberOfAces, totalValue) := firstPass cards in
  secondPass numberOfAces false totalValue.

Definition blackjackOf (cards : list Card) : bool :=
  Nat.eqb (List.length cards) 2 && (value (cardTotalOf cards) =? 21).

(** The base class is rendered as an interface: anything that owns a
    hand.  [Player] and [Dealer] below are its two instances. *)
Class Participant (T : Type) := {
  getCards : T -> list Card;
  setCards : list Card -> T -> T
}.

Section ParticipantOps.
Context {T : Type} `{Participant T}.

(** [this.cards.push(card)] *)
Definition addCard (card : Card) (p : T) : T :=
  setCards (getCards p ++ [card]) p.

Definition getCardTotal (p : T) : CardTotal := cardTotalOf (getCards p).

Definition hasBlackjack (p : T) : bool := blackjackOf (getCards p).

End ParticipantOps.

(** ** Errors and effects

    [new Error(message)] is [mkError], [new Error(message, { cause })] is
    [mkErrorCause].
    A method that can throw and that mutates its object while talking to
    an external collaborator is a function from the object's state [S]
    and the collaborators' state [W] to a result and the two new states;
    the states are returned on the throwing path as well, because a
    mutation made before a [throw] stays. *)

Inductive Error :=
  | mkError (message : string)
  | mkErrorCause (message : string) (cause : Error).

Inductive Result (A : Type) := Ok (a : A) | Throw (e : Error).
Arguments Ok {A} a.
Arguments Throw {A} e.

Definition Eff (S W A : Type) : Type := S -> W -> Result A * S * W.

Section Effects.
Context {S W : Type}.

Definition ret {A} (a : A) : Eff S W A := fun s w => (Ok a, s, w).

Definition throw {A} (e : Error) : Eff S W A := fun s w => (Throw e, s, w).

Definition bind {A B} (m : Eff S W A) (k : A -> Eff S W B) : Eff S W B :=
  fun s w =>
    match m s w with
    | (Ok a, s', w') => k a s' w'
    | (Throw e, s', w') => (Throw e, s', w')
    end.

Definition get : Eff S W S := fun s w => (Ok s, s, w).

Definition modify (f : S -> S) : Eff S W unit := fun s w => (Ok tt, f s, w).

(** A call to a collaborator: only the collaborators' state moves. *)
Definition call {A} (f : W -> Result A * W) : Eff S W A :=
  fun s w => let '(r, w') := f w in (r, s, w').

(** [try { m } catch (err) { throw new Error(msg, { cause: err }) }] *)
Definition rethrow {A} (msg : string) (m : Eff S W A) : Eff S W A :=
  fun s w =>
    match m s w with
    | (Throw e, s', w') => (Throw (mkErrorCause msg e), s', w')
    | r => r
    end.

(** A promise that is started and never awaited: its effects happen and
    the caller goes on at once.  A rejection has no handler: [drop]
    leaves it with the runtime, which (Node from version 15 on) ends
    the process once the running code gives control back. *)
Definition unawaited {A} (drop : Error -> S -> S) (m : Eff S W A)
  : Eff S W unit :=
  fun s w =>
    match m s w with
    | (Ok _, s', w') => (Ok tt, s', w')
    | (Throw e, s', w') => (Ok tt, drop e s', w')
    end.

End Effects.

(** A method of a member object, run from the owner: [proj] reads the
    member, [upd] writes it back. *)
Definition zoom {S S' W A} (proj : S -> S') (upd : S' -> S -> S)
  (m : Eff S' W A) : Eff S W A :=
  fun s w => let '(r, s', w') := m (proj s) w in (r, upd s' s, w').

Declare Scope eff_scope.
Delimit Scope eff_scope with eff.
Notation "x <- m ;; k" := (bind m (fun x => k))
  (at level 61, m at next level, right associativity) : eff_scope.
Notation "m ;;; k" := (bind m (fun _ => k))
  (at level 61, right associativity) : eff_scope.

(** ** JavaScript numbers: IEEE-754 binary64 *)

Module JSNumber.

Definition prec : Z := 53.
Definition emax : Z := 1024.

Definition number : Type := spec_float.

(** The double nearest to an integer (exact up to 2^53). *)
Definition ofZ (z : Z) : number := binary_normalize prec emax z 0 false.

Definition mul : number -> number -> number := SFmul prec emax.
Definition sub : number -> number -> number := SFsub prec emax.
Definition div : number -> number -> number := SFdiv prec emax.
Definition add : number -> number -> number := SFadd prec emax.
Definition opp : number -> number := SFopp.
Definition ltb : number -> number -> bool := SFltb.
Definition eqb : number -> number -> bool := SFeqb.

(** [a > b] *)
Definition gtb (a b : number) : bool := ltb b a.

(** The literal [1.5]. *)
Definition onePointFive : number := div (ofZ 3) (ofZ 2).

(** A well-formed double: the mantissa and the exponent of a finite one
    are the normalised ones.  Every number a program holds is. *)
Definition valid (x : number) : bool := valid_binary prec emax x.

(** Neither NaN nor an infinity. *)
Definition isFinite (x : number) : bool :=
  match x with
  | S754_zero _ | S754_finite _ _ _ => true
  | _ => false
  end.


(** The exact value of a finite double (and 0 for the others). *)
Definition toQ (x : number) : Q :=
  match x with
  | S754_finite s m e => (inject_Z (cond_Zopp s (Zpos m)) * 2 ^ e)%Q
  | _ => 0%Q
  end.

(** [x] is a finite double whose value is exactly [q]. *)
Definition denotes (x : number) (q : Q) : Prop :=
  valid x = true /\ isFinite x = true /\ (toQ x == q)%Q.

(** Some double has the value [q]. *)
Definition representable (q : Q) : Prop := exists z : number, denotes z q.



(** [Math.round]: the integer nearest to [x], a tie going towards
    +infinity; NaN, the infinities and the zeros are returned as they are,
    and a negative [x >= -0.5] gives [-0].  For a finite [x = +-m * 2^e]
    with [e < 0] the integer is [floor (x + 1/2)], computed exactly. *)
Definition Math_round (x : number) : number :=
  match x with
  | S754_finite s m e =>
      if 0 <=? e then x
      else
        let d := 2 ^ (- e) in
        binary_normalize prec emax
          ((2 * cond_Zopp s (Zpos m) + d) / (2 * d)) 0 s
  | _ => x
  end.

End JSNumber.

Import JSNumber.

(** ** The card source ([src/api/DeckOfCardsApiClient.ts])

    The three exported functions of the HTTP client are the boundary of
    the model: each takes the state [W] of the outside world and returns a
    result or a thrown error, and the next state. *)

Module Api.

Record CreateDeckResult := mkCreateDeckResult
  { deckId : string; createdRemaining : number }.

Record DrawCardResult := mkDrawCardResult
  { cards : list Card; remaining : number }.

Record ReshuffleDeckResult := mkReshuffleDeckResult
  { reshuffledRemaining : number }.

Class CardSource (W : Type) := {
  createDeck : Z -> W -> Result CreateDeckResult * W;
  drawCard : string -> Z -> W -> Result DrawCardResult * W;
  reshuffleDeck : string -> W -> Result ReshuffleDeckResult * W
}.

End Api.

(** ** Player storage ([src/player/storage/PlayerStorage.ts]) *)

Module Storage.

Record PlayerData := mkPlayerData { username : string; balance : number }.

Class PlayerStorage (W : Type) := {
  load : string -> W -> Result (option PlayerData) * W;
  save : PlayerData -> W -> Result unit * W
}.

End Storage.

(** ** Dealer ([src/game/Dealer.ts]) *)

Module Dealer.

Record t := mk { cards : list Card }.

#[global] Instance participant : Participant t :=
  {| getCards := cards; setCards := fun cs _ => mk cs |}.

Definition new : t := mk [].

(** [this.cards.length > 0 ? this.cards[0] : null] *)
Definition getUpcard (d : t) : option Card :=
  if (0 <? List.length (cards d))%nat then nth_error (cards d) 0 else None.

Definition shouldHit (d : t) : bool :=
  let '(mkCardTotal value hasSoftAce) := getCardTotal d in
  (value <? 17) || ((value =? 17) && hasSoftAce).

End Dealer.

(** ** DeckManager ([src/game/DeckManager.ts]) *)

Module DeckManager.

(** The literal [0.775]: the double nearest to 775/1000, which the
    correctly rounded quotient of the doubles 775 and 1000 is. *)
Definition CUT_CARD_PERCENTAGE : number := div (ofZ 775) (ofZ 1000).

Definition DEFAULT_DECK_COUNT : Z := 6.

Record t := mk
  { deckId : string; remaining : number; cutCardPosition : number }.

(** The private constructor. *)
Definition new (deckId : string) (remaining : number) : t :=
  {| deckId := deckId;
     remaining := remaining;
     cutCardPosition :=
       Math_round (mul remaining (sub (ofZ 1) CUT_CARD_PERCENTAGE)) |}.

Definition setRemaining (r : number) (dm : t) : t :=
  {| deckId := deckId dm; remaining := r;
     cutCardPosition := cutCardPosition dm |}.

Definition decimal (n : nat) : string :=
  NilEmpty.string_of_uint (Nat.to_uint n).

Section WithSource.
Context {W : Type} `{Api.CardSource W}.

(** [static async setup(deckCount = DEFAULT_DECK_COUNT)] *)
Definition setup (deckCount : Z) (w : W) : Result t * W :=
  match Api.createDeck deckCount w with
  | (Ok result, w') =>
      (Ok (new (Api.deckId result) (Api.createdRemaining result)), w')
  | (Throw err, w') =>
      (Throw (mkErrorCause "Failed to setup deck manager" err), w')
  end.

(** [drawCard]: the count is checked before [remaining] is written; the
    card returned is [cards[0]] of a one-element array. *)
Definition drawCard : Eff t W Card :=
  rethrow "Failed to draw card"
    (dm <- get ;;
     result <- call (Api.drawCard (deckId dm) 1) ;;
     match Api.cards result with
     | [card] =>
         modify (setRemaining (Api.remaining result)) ;;;
         ret card
     | cards =>
         throw (mkError
           ("Wrong number of cards drawn.  Expected 1, Received: "
              ++ decimal (List.length cards)))
     end)%eff.

(** [drawCards(count = 1)] *)
Definition drawCards (count : Z) : Eff t W (list Card) :=
  rethrow "Failed to draw cards from deck"
    (dm <- get ;;
     result <- call (Api.drawCard (deckId dm) count) ;;
     modify (setRemaining (Api.remaining result)) ;;;
     ret (Api.cards result))%eff.

Definition reshuffle : Eff t W unit :=
  rethrow "Failed to reshuffle deck"
    (dm <- get ;;
     result <- call (Api.reshuffleDeck (deckId dm)) ;;
     modify (setRemaining (Api.reshuffledRemaining result)))%eff.

End WithSource.

Definition shouldReshuffle (dm : t) : bool :=
  ltb (remaining dm) (cutCardPosition dm).

End DeckManager.

(** ** Player ([src/player/Player.ts]) *)

Module Player.

Definition STARTING_BALANCE : number := ofZ 100.

Record t := mk
  { cards : list Card; username : string; balance : number; bet : number }.

#[global] Instance participant : Participant t :=
  {| getCards := cards;
     setCards := fun cs p => mk cs (username p) (balance p) (bet p) |}.

Definition new (username : string) (balance : number) : t :=
  mk [] username balance (ofZ 0).

Definition setBet (b : number) (p : t) : t :=
  mk (cards p) (username p) (balance p) b.

(** [this.balance += amount] *)
Definition adjustBalance (amount : number) (p : t) : t :=
  mk (cards p) (username p) (add (balance p) amount) (bet p).

Definition getBalance (p : t) : number := balance p.

Section WithStorage.
Context {W : Type} `{Storage.PlayerStorage W}.

(** [async save()]: [!this.username] holds for the empty string only. *)
Definition save : Eff t W unit :=
  (p <- get ;;
   if String.eqb (username p) EmptyString
   then throw (mkError "Username is invalid")
   else rethrow "Error saving player"
          (call (Storage.save
                   (Storage.mkPlayerData (username p) (balance p)))))%eff.

End WithStorage.

End Player.

(** ** GameEngine ([src/game/GameEngine.ts]) *)

Module GameEngine.

Inductive Outcome :=
  | PlayerWon | DealerWon | Push
  | PlayerWonWithBlackjack | DealerWonWithBlackjack.

Inductive PlayerActionStatus := Busted | Has_21 | Active.

(** The five fields of the class, and [unhandled]: the rejections of the
    promises the engine has started and dropped, the oldest first.  It
    is not a field of the class but what the runtime holds against the
    process. *)
Record t := mk
  { deckManager : option DeckManager.t;
    dealer : Dealer.t;
    player : Player.t;
    outcome : option Outcome;
    winnings : option number;
    unhandled : list Error }.

Definition new (player : Player.t) : t :=
  mk None Dealer.new player None None [].

Definition setDeckManager (dm : DeckManager.t) (g : t) : t :=
  mk (Some dm) (dealer g) (player g) (outcome g) (winnings g) (unhandled g).

Definition setDealer (d : Dealer.t) (g : t) : t :=
  mk (deckManager g) d (player g) (outcome g) (winnings g) (unhandled g).

Definition setPlayer (p : Player.t) (g : t) : t :=
  mk (deckManager g) (dealer g) p (outcome g) (winnings g) (unhandled g).

Definition setOutcome (o : option Outcome) (g : t) : t :=
  mk (deckManager g) (dealer g) (player g) o (winnings g) (unhandled g).

Definition setWinnings (x : option number) (g : t) : t :=
  mk (deckManager g) (dealer g) (player g) (outcome g) x (unhandled g).

(** A rejection that nothing handles. *)
Definition unhandledRejection (err : Error) (g : t) : t :=
  mk (deckManager g) (dealer g) (player g) (outcome g) (winnings g)
    (unhandled g ++ [err]).

Definition adjustPlayerBalance (amount : number) (g : t) : t :=
  setPlayer (Player.adjustBalance amount (player g)) g.

Definition addFundsToPlayer (amount : number) (g : t) : t :=
  setPlayer (Player.adjustBalance amount (player g)) g.

Definition getPlayerCards (g : t) : list Card := getCards (player g).

Definition getPlayerTotal (g : t) : Z := value (getCardTotal (player g)).

Definition getDealerUpcard (g : t) : option Card :=
  Dealer.getUpcard (dealer g).

Definition getDealerCards (g : t) : list Card := getCards (dealer g).

Definition getDealerTotal (g : t) : Z := value (getCardTotal (dealer g)).

Definition getPlayerBalance (g : t) : number := Player.getBalance (player g).

Definition getPlayerHasBlackjack (g : t) : bool := hasBlackjack (player g).

Definition getDealerHasBlackjack (g : t) : bool := hasBlackjack (dealer g).

Definition getWinnings (g : t) : option number := winnings g.

Definition getOutcome (g : t) : option Outcome := outcome g.

Definition getPlayerActionStatus (g : t) : PlayerActionStatus :=
  let value := value (getCardTotal (player g)) in
  if value >? 21 then Busted
  else if value =? 21 then Has_21
  else Active.

Definition resetGame (g : t) : t :=
  setWinnings None (setOutcome None g).

(** The [if]/[else if] chain of [evaluateOutcome], on the four values it
    reads. *)
Definition decideOutcome (playerTotal dealerTotal : Z)
  (playerHasBlackjack dealerHasBlackjack : bool) : Outcome :=
  if playerHasBlackjack && negb dealerHasBlackjack then PlayerWonWithBlackjack
  else if dealerHasBlackjack && negb playerHasBlackjack
       then DealerWonWithBlackjack
  else if playerTotal >? 21 then DealerWon
  else if dealerTotal >? 21 then PlayerWon
  else if playerTotal >? dealerTotal then PlayerWon
  else if dealerTotal >? playerTotal then DealerWon
  else Push.

(** The [switch] of [applyPayout]; with no outcome recorded no [case]
    matches and [payout] keeps its initial [0]. *)
Definition payoutFor (o : option Outcome) (bet : number) : number :=
  match o with
  | Some PlayerWonWithBlackjack => add bet (mul bet onePointFive)
  | Some PlayerWon => add bet bet
  | Some Push => bet
  | Some DealerWon | Some DealerWonWithBlackjack => ofZ 0
  | None => ofZ 0
  end.

(** Thrown when [this.deckManager] is null. *)
Definition deckManagerUndefined : Error := mkError "Deck Manager undefined".

Section WithCollaborators.
Context {W : Type} `{Api.CardSource W} `{Storage.PlayerStorage W}.

(** A [DeckManager] method run on [this.deckManager], which the caller
    has checked to be there. *)
Definition onDeckManager {A} (dm : DeckManager.t)
  (m : Eff DeckManager.t W A) : Eff t W A :=
  zoom (fun _ => dm) setDeckManager m.

Definition onPlayer {A} (m : Eff Player.t W A) : Eff t W A :=
  zoom player setPlayer m.

Definition initialize : Eff t W unit :=
  fun g w =>
    match DeckManager.setup DeckManager.DEFAULT_DECK_COUNT w with
    | (Ok deckManager, w') => (Ok tt, setDeckManager deckManager g, w')
    | (Throw err, w') =>
        (Throw (mkErrorCause "Failed to initialize game engine" err), g, w')
    end.

Definition drawCard : Eff t W Card :=
  (g <- get ;;
   match deckManager g with
   | None => throw deckManagerUndefined
   | Some dm =>
       rethrow "Failed to draw card" (onDeckManager dm DeckManager.drawCard)
   end)%eff.

Definition drawCards (count : Z) : Eff t W (list Card) :=
  (g <- get ;;
   match deckManager g with
   | None => throw deckManagerUndefined
   | Some dm =>
       rethrow "Failed to draw cards"
         (onDeckManager dm (DeckManager.drawCards count))
   end)%eff.

(** [cards.slice(0, 2)] and [cards.slice(2)]; an array is never falsy,
    so the [if (!cards) return true] is not taken. *)
Definition dealInitialCards : Eff t W unit :=
  rethrow "Failed to deal initial cards"
    (cards <- drawCards 4 ;;
     let playerCards := firstn 2 cards in
     let dealerCards := skipn 2 cards in
     modify (fun g => setPlayer (setCards playerCards (player g)) g) ;;;
     modify (fun g => setDealer (setCards dealerCards (dealer g)) g))%eff.

Definition checkToReshuffleDeck : Eff t W unit :=
  (g <- get ;;
   match deckManager g with
   | None => throw deckManagerUndefined
   | Some dm =>
       if DeckManager.shouldReshuffle dm
       then rethrow "Failed to reshuffle deck"
              (onDeckManager dm DeckManager.reshuffle)
       else ret tt
   end)%eff.

Definition placeBet (bet : number) : Eff t W unit :=
  (g <- get ;;
   if gtb bet (Player.getBalance (player g))
   then throw (mkError "Cannot bet more than player's balance")
   else
     modify (fun g => setPlayer (Player.setBet bet (player g)) g) ;;;
     modify (fun g => setPlayer (Player.adjustBalance (opp bet) (player g)) g)
  )%eff.

(** A [Card] object is never falsy, so [if (!card) return] is not taken. *)
Definition hitPlayer : Eff t W unit :=
  rethrow "Failed to hit player"
    (card <- drawCard ;;
     modify (fun g => setPlayer (addCard card (player g)) g))%eff.

Definition hitDealer : Eff t W unit :=
  rethrow "Failed to hit dealer"
    (card <- drawCard ;;
     modify (fun g => setDealer (addCard card (dealer g)) g))%eff.

(** The [while] loop of [playThroughDealer], with a bound on the number
    of iterations; [None] is the bound reached with the dealer still
    hitting. *)
Fixpoint playThroughDealer (fuel : nat) (g : t) (w : W)
  : option (Result unit * t * W) :=
  if Dealer.shouldHit (dealer g) then
    match fuel with
    | O => None
    | S fuel' =>
        match rethrow "Failing to play through hitting dealer" hitDealer g w
        with
        | (Ok _, g', w') => playThroughDealer fuel' g' w'
        | (Throw err, g', w') => Some (Throw err, g', w')
        end
    end
  else Some (Ok tt, g, w).

Definition applyPayout : Eff t W unit :=
  (g <- get ;;
   let bet := Player.bet (player g) in
   let payout := payoutFor (outcome g) bet in
   modify (setWinnings (Some payout)) ;;;
   modify (adjustPlayerBalance payout) ;;;
   unawaited unhandledRejection (onPlayer Player.save))%eff.

Definition evaluateOutcome : Eff t W unit :=
  (g <- get ;;
   let playerTotal := value (getCardTotal (player g)) in
   let dealerTotal := value (getCardTotal (dealer g)) in
   let playerHasBlackjack := hasBlackjack (player g) in
   let dealerHasBlackjack := hasBlackjack (dealer g) in
   modify (setOutcome
             (Some (decideOutcome playerTotal dealerTotal
                      playerHasBlackjack dealerHasBlackjack))) ;;;
   applyPayout)%eff.

End WithCollaborators.

End GameEngine.

(** ** Ace assignments: the vocabulary of the hand-total specification

    An assignment gives one flag per card; a flagged Ace is counted as 11,
    an unflagged Ace as 1, every other card at its face value whatever
    its flag. *)

(** What a card counts for, in the specification's words: 2 to 10 at
    face value, J, Q and K as 10, an Ace as 11 when flagged and as 1
    otherwise. *)
Definition countsAs (r : CardRank) (flag : bool) : Z :=
  match r with
  | R2 => 2 | R3 => 3 | R4 => 4 | R5 => 5 | R6 => 6
  | R7 => 7 | R8 => 8 | R9 => 9 | R10 => 10
  | RJ | RQ | RK => 10
  | RA => if flag then 11 else 1
  end.

Fixpoint totalUnder (cards : list Card) (flags : list bool) : Z :=
  match cards, flags with
  | card :: cards', flag :: flags' =>
      countsAs (rank card) flag + totalUnder cards' flags'
  | _, _ => 0
  end.

Fixpoint acesAsEleven (cards : list Card) (flags : list bool) : nat :=
  match cards, flags with
  | card :: cards', flag :: flags' =>
      ((if isAce (rank card) && flag then 1 else 0)
       + acesAsEleven cards' flags')%nat
  | _, _ => O
  end.

(** At most one Ace counted as 11. *)
Definition admissible (cards : list Card) (flags : list bool) : Prop :=
  List.length flags = List.length cards /\ (acesAsEleven cards flags <= 1)%nat.

Fixpoint countAces (cards : list Card) : nat :=
  match cards with
  | [] => O
  | card :: cards' =>
      if isAce (rank card) then S (countAces cards') else countAces cards'
  end.

Fixpoint sumNonAces (cards : list Card) : Z :=
  match cards with
  | [] => 0
  | card :: cards' =>
      if isAce (rank card) then sumNonAces cards'
      else getCardValue card + sumNonAces cards'
  end.

(** Every Ace counted as 1. *)
Definition hardTotal (cards : list Card) : Z :=
  sumNonAces cards + Z.of_nat (countAces cards).

(** The assignment that flags the first Ace only. *)
Fixpoint flagFirstAce (cards : list Card) : list bool :=
  match cards with
  | [] => []
  | card :: cards' =>
      if isAce (rank card) then true :: map (fun _ => false) cards'
      else false :: flagFirstAce cards'
  end.

(** ** A scripted outside world

    The collaborators as a test double: the card source answers each call
    with the next scripted response (and throws once the script is used
    up), the storage keeps what was saved. *)

Module Scripted.

Record World := mkWorld
  { draws : list (Result Api.DrawCardResult);
    shuffles : list (Result Api.ReshuffleDeckResult);
    saved : list Storage.PlayerData }.

Definition apiError : Error := mkError "API Error".

Definition nextDraw (w : World) : Result Api.DrawCardResult * World :=
  match draws w with
  | [] => (Throw apiError, w)
  | r :: rest => (r, mkWorld rest (shuffles w) (saved w))
  end.

Definition nextShuffle (w : World) : Result Api.ReshuffleDeckResult * World :=
  match shuffles w with
  | [] => (Throw apiError, w)
  | r :: rest => (r, mkWorld (draws w) rest (saved w))
  end.

#[global] Instance cardSource : Api.CardSource World :=
  {| Api.createDeck := fun deckCount w =>
       (Ok (Api.mkCreateDeckResult "test-deck-id" (ofZ (deckCount * 52))), w);
     Api.drawCard := fun _ _ w => nextDraw w;
     Api.reshuffleDeck := fun _ w => nextShuffle w |}.

#[global] Instance playerStorage : Storage.PlayerStorage World :=
  {| Storage.load := fun _ w => (Ok (hd_error (saved w)), w);
     Storage.save := fun data w =>
       (Ok tt, mkWorld (draws w) (shuffles w) (data :: saved w)) |}.

Definition card (r : CardRank) (s : CardSuit) : Card := mkCard EmptyString s r.

Definition deliver (cards : list Card) (remaining : Z)
  : Result Api.DrawCardResult :=
  Ok (Api.mkDrawCardResult cards (ofZ remaining)).

Definition shoe312 : DeckManager.t := DeckManager.new "test-deck-id" (ofZ 312).

(** A world whose card source has nothing scripted. *)
Definition quiet : World := mkWorld [] [] [].

Definition drawing (responses : list (Result Api.DrawCardResult)) : World :=
  mkWorld responses [] [].

Definition shuffling (responses : list (Result Api.ReshuffleDeckResult))
  : World :=
  mkWorld [] responses [].

(** An engine with a shoe, the two hands and whole amounts as balance
    and stake. *)
Definition engine (playerCards dealerCards : list Card) (balance bet : Z)
  : GameEngine.t :=
  GameEngine.mk (Some shoe312) (Dealer.mk dealerCards)
    (Player.mk playerCards "testUser" (ofZ balance) (ofZ bet)) None None [].

End Scripted.

(** ** The payout table as the specification words it *)

Definition specPayoutFactor (o : GameEngine.Outcome) : Q :=
  match o with
  | GameEngine.PlayerWonWithBlackjack => 5 # 2
  | GameEngine.PlayerWon => 2
  | GameEngine.Push => 1
  | GameEngine.DealerWon | GameEngine.DealerWonWithBlackjack => 0
  end.

(** ** Histories of a shoe

    What can happen to a [DeckManager] after its creation: any sequence
    of its three state-changing methods, each succeeding or throwing as
    the card source makes it. *)

Inductive DeckOp := OpDrawCard | OpDrawCards (count : Z) | OpReshuffle.

Section DeckHistories.
Context {W : Type} `{Api.CardSource W}.

Definition runDeckOp (op : DeckOp) (dm : DeckManager.t) (w : W)
  : DeckManager.t * W :=
  match op with
  | OpDrawCard => let '(_, dm', w') := DeckManager.drawCard dm w in (dm', w')
  | OpDrawCards count =>
      let '(_, dm', w') := DeckManager.drawCards count dm w in (dm', w')
  | OpReshuffle => let '(_, dm', w') := DeckManager.reshuffle dm w in (dm', w')
  end.

Fixpoint runDeckOps (ops : list DeckOp) (dm : DeckManager.t) (w : W)
  : DeckManager.t * W :=
  match ops with
  | [] => (dm, w)
  | op :: ops' => let '(dm', w') := runDeckOp op dm w in runDeckOps ops' dm' w'
  end.

End DeckHistories.

(** [Math.round] of the exact product [n * 0.225], for comparison with
    the double-precision evaluation the constructor performs. *)
Definition exactCutCard (n : Z) : Z := (9 * n + 20) / 40.


(** ** The play of a round

    From one engine state to another by dealing, hitting and the dealer's
    play, in any order and number, each step succeeding or throwing as
    the card source makes it. *)

Section Plays.
Context {W : Type} `{Api.CardSource W} `{Storage.PlayerStorage W}.

Inductive plays : GameEngine.t -> W -> GameEngine.t -> W -> Prop :=
  | plays_done (g : GameEngine.t) (w : W) : plays g w g w
  | plays_deal (g g1 g2 : GameEngine.t) (w w1 w2 : W) (r : Result unit) :
      GameEngine.dealInitialCards g w = (r, g1, w1) ->
      plays g1 w1 g2 w2 -> plays g w g2 w2
  | plays_hitPlayer (g g1 g2 : GameEngine.t) (w w1 w2 : W) (r : Result unit) :
      GameEngine.hitPlayer g w = (r, g1, w1) ->
      plays g1 w1 g2 w2 -> plays g w g2 w2
  | plays_hitDealer (g g1 g2 : GameEngine.t) (w w1 w2 : W) (r : Result unit) :
      GameEngine.hitDealer g w = (r, g1, w1) ->
      plays g1 w1 g2 w2 -> plays g w g2 w2
  | plays_dealer (fuel : nat) (g g1 g2 : GameEngine.t) (w w1 w2 : W)
      (r : Result unit) :
      GameEngine.playThroughDealer fuel g w = Some (r, g1, w1) ->
      plays g1 w1 g2 w2 -> plays g w g2 w2.

End Plays.

(** What the play of a round must not touch. *)
Definition sameMoney (g g' : GameEngine.t) : Prop :=
  Player.balance (GameEngine.player g') = Player.balance (GameEngine.player g)
  /\ Player.bet (GameEngine.player g') = Player.bet (GameEngine.player g)
  /\ Player.username (GameEngine.player g')
     = Player.username (GameEngine.player g)
  /\ GameEngine.outcome g' = GameEngine.outcome g
  /\ GameEngine.winnings g' = GameEngine.winnings g.

(** What a round leaves the player with, per unit staked: the payout
    factor less the stake. *)
Definition netFactor (o : GameEngine.Outcome) : Q :=
  match o with
  | GameEngine.PlayerWonWithBlackjack => 3 # 2
  | GameEngine.PlayerWon => 1
  | GameEngine.Push => 0
  | GameEngine.DealerWon | GameEngine.DealerWonWithBlackjack => - (1)
  end.

(** ** The HTTP client of the card service
       ([src/api/DeckOfCardsApiClient.ts])

    The boundary is one step further out than [Api.CardSource]: a request
    ([axios.get]) whose body has gone through the endpoint's schema
    ([safeParse]).  It throws, or yields a body the schema rejects (with
    the schema's error text), or yields the validated fields. *)

Module Client.

Definition BASE_URL : string := "https://deckofcardsapi.com/api/deck".

Definition NEW_SHUFFLED_DECK_URL : string := BASE_URL ++ "/new/shuffle".

Definition DEFAULT_DECK_COUNT : Z := 6.

Inductive Parsed (A : Type) := Invalid (error : string) | Valid (data : A).
Arguments Invalid {A} error.
Arguments Valid {A} data.

Record CreateDeckApiResponse := mkCreateDeckApiResponse
  { createSuccess : bool; deck_id : string; createRemaining : number }.

(** A card as the service sends it; the schema admits the four suits
    only. *)
Record ApiCard := mkApiCard
  { apiCode : string; apiValue : string; apiSuit : CardSuit }.

Record DrawCardApiResponse := mkDrawCardApiResponse
  { drawSuccess : bool; drawCards : list ApiCard; drawRemaining : number }.

Record ReshuffleDeckApiResponse := mkReshuffleDeckApiResponse
  { reshuffleSuccess : bool; reshuffleRemaining : number }.

Class Http (W : Type) := {
  getCreateDeck :
    string -> Z -> W -> Result (Parsed CreateDeckApiResponse) * W;
  getDrawCard :
    string -> Z -> W -> Result (Parsed DrawCardApiResponse) * W;
  getReshuffleDeck :
    string -> W -> Result (Parsed ReshuffleDeckApiResponse) * W
}.

(** [faceCardMap[value]], for the four keys the map has. *)
Definition faceCardMap (value : string) : option string :=
  if String.eqb value "JACK" then Some "J"%string
  else if String.eqb value "QUEEN" then Some "Q"%string
  else if String.eqb value "KING" then Some "K"%string
  else if String.eqb value "ACE" then Some "A"%string
  else None.

(** The string of the [CardRank] type that [value] is, if it is one. *)
Definition rankOfString (value : string) : option CardRank :=
  if String.eqb value "2" then Some R2
  else if String.eqb value "3" then Some R3
  else if String.eqb value "4" then Some R4
  else if String.eqb value "5" then Some R5
  else if String.eqb value "6" then Some R6
  else if String.eqb value "7" then Some R7
  else if String.eqb value "8" then Some R8
  else if String.eqb value "9" then Some R9
  else if String.eqb value "10" then Some R10
  else if String.eqb value "J" then Some RJ
  else if String.eqb value "Q" then Some RQ
  else if String.eqb value "K" then Some RK
  else if String.eqb value "A" then Some RA
  else None.

Definition isValidCardRank (value : string) : bool :=
  match rankOfString value with Some _ => true | None => false end.

(** [faceCardMap[value] || value], then the validity check.  A key found
    on the map's prototype rather than in the map gives a value that is
    no string and so no rank: [null], as here. *)
Definition normalizeCardRank (value : string) : option CardRank :=
  let normalized :=
    match faceCardMap value with Some rank => rank | None => value end in
  if isValidCardRank normalized then rankOfString normalized else None.

(** The body of the [map] in [drawCard]. *)
Definition convertCard (card : ApiCard) : option Card :=
  match normalizeCardRank (apiValue card) with
  | None => None
  | Some rank => Some (mkCard (apiCode card) (apiSuit card) rank)
  end.

(** [.filter((card) => card !== null)] *)
Fixpoint dropNulls {A : Type} (xs : list (option A)) : list A :=
  match xs with
  | [] => []
  | Some x :: xs' => x :: dropNulls xs'
  | None :: xs' => dropNulls xs'
  end.

Definition apiFailed : Error := mkError "API failed".

Definition invalidResponse (error : string) : Error :=
  mkError ("Invalid API response: " ++ error).

Section WithHttp.
Context {W : Type} `{Http W}.

Definition createDeck (deckCount : Z) (w : W)
  : Result Api.CreateDeckResult * W :=
  let wrap :=
    mkErrorCause "Error creating new deck of shuffled cards api endpoint" in
  match getCreateDeck NEW_SHUFFLED_DECK_URL deckCount w with
  | (Throw err, w') => (Throw (wrap err), w')
  | (Ok (Invalid error), w') => (Throw (wrap (invalidResponse error)), w')
  | (Ok (Valid data), w') =>
      if negb (createSuccess data) then (Throw (wrap apiFailed), w')
      else (Ok (Api.mkCreateDeckResult (deck_id data) (createRemaining data)),
            w')
  end.

Definition drawCard (deckId : string) (count : Z) (w : W)
  : Result Api.DrawCardResult * W :=
  if String.eqb deckId EmptyString
  then (Throw (mkError "deckId is not specified"), w)
  else
    let DRAW_CARD_URL := (BASE_URL ++ "/" ++ deckId ++ "/draw")%string in
    let wrap := mkErrorCause "Error with drawing card(s) endpoint" in
    match getDrawCard DRAW_CARD_URL count w with
    | (Throw err, w') => (Throw (wrap err), w')
    | (Ok (Invalid error), w') => (Throw (wrap (invalidResponse error)), w')
    | (Ok (Valid data), w') =>
        if negb (drawSuccess data) then (Throw (wrap apiFailed), w')
        else
          let cards := dropNulls (map convertCard (drawCards data)) in
          (Ok (Api.mkDrawCardResult cards (drawRemaining data)), w')
    end.

Definition reshuffleDeck (deckId : string) (w : W)
  : Result Api.ReshuffleDeckResult * W :=
  if String.eqb deckId EmptyString
  then (Throw (mkError "deckId is not specified"), w)
  else
    let SHUFFLE_DECK_URL := (BASE_URL ++ "/" ++ deckId ++ "/shuffle")%string in
    let wrap := mkErrorCause "Error with reshuffling deck api endpoint" in
    match getReshuffleDeck SHUFFLE_DECK_URL w with
    | (Throw err, w') => (Throw (wrap err), w')
    | (Ok (Invalid error), w') => (Throw (wrap (invalidResponse error)), w')
    | (Ok (Valid data), w') =>
        if negb (reshuffleSuccess data) then (Throw (wrap apiFailed), w')
        else (Ok (Api.mkReshuffleDeckResult (reshuffleRemaining data)), w')
    end.

(** The client as the card source of [DeckManager]. *)
Definition cardSource : Api.CardSource W :=
  {| Api.createDeck := createDeck;
     Api.drawCard := drawCard;
     Api.reshuffleDeck := reshuffleDeck |}.

End WithHttp.

End Client.

(** The strings of the [CardRank] type, and the names the card service
    uses for the same ranks. *)
Definition rankString (r : CardRank) : string :=
  match r with
  | R2 => "2" | R3 => "3" | R4 => "4" | R5 => "5" | R6 => "6"
  | R7 => "7" | R8 => "8" | R9 => "9" | R10 => "10"
  | RJ => "J" | RQ => "Q" | RK => "K" | RA => "A"
  end.

Definition serviceName (r : CardRank) : string :=
  match r with
  | RJ => "JACK" | RQ => "QUEEN" | RK => "KING" | RA => "ACE"
  | _ => rankString r
  end.

(** A scripted wire: each draw request is answered by the next scripted
    response, and every URL requested is logged. *)
Module Wire.

Record World := mkWorld
  { responses : list (Result (Client.Parsed Client.DrawCardApiResponse));
    requested : list string }.

Definition networkError : Error := mkError "Network Error".

#[global] Instance http : Client.Http World :=
  {| Client.getCreateDeck := fun url deckCount w =>
       (Ok (Client.Valid
              (Client.mkCreateDeckApiResponse true "wire-deck"
                 (ofZ (52 * deckCount)))),
        mkWorld (responses w) (url :: requested w));
     Client.getDrawCard := fun url _ w =>
       match responses w with
       | [] => (Throw networkError, mkWorld [] (url :: requested w))
       | r :: rest => (r, mkWorld rest (url :: requested w))
       end;
     Client.getReshuffleDeck := fun url w =>
       (Ok (Client.Valid (Client.mkReshuffleDeckApiResponse true (ofZ 312))),
        mkWorld (responses w) (url :: requested w)) |}.

Definition delivering (cards : list Client.ApiCard) (remaining : Z)
  : Result (Client.Parsed Client.DrawCardApiResponse) :=
  Ok (Client.Valid (Client.mkDrawCardApiResponse true cards (ofZ remaining))).

End Wire.

(** Case analysis on every string comparison in sight. *)
Ltac split_eqb :=
  repeat match goal with
    | |- context [String.eqb ?a ?b] => destruct (String.eqb_spec a b)
    | H : context [String.eqb ?a ?b] |- _ => destruct (String.eqb_spec a b)
    end.

(** ** LevelDbPlayerStorage
       ([src/player/storage/LevelDbPlayerStorage.ts])

    The database is a collaborator: [put] stores a player under a key,
    [get] yields the stored value, or fails with a not-found error, or
    fails otherwise.  A stored value is decoded JSON: an object, taken to
    be the player data [save] wrote, or something falsy or not an
    object. *)

Module LevelDb.

Inductive Stored :=
  | StoredPlayer (data : Storage.PlayerData)
  | StoredOther.

Inductive GetResult :=
  | Found (value : Stored)
  | NotFound (err : Error)
  | Failed (err : Error).

Class Db (W : Type) := {
  put : string -> Storage.PlayerData -> W -> Result unit * W;
  get : string -> W -> GetResult * W
}.

(** [`player:${username}`] *)
Definition key (username : string) : string := "player:" ++ username.

Section WithDb.
Context {W : Type} `{Db W}.

Definition save (player : Storage.PlayerData) (w : W) : Result unit * W :=
  if String.eqb (Storage.username player) EmptyString
  then (Throw (mkError "Invalid player data"), w)
  else put (key (Storage.username player)) player w.

Definition load (username : string) (w : W)
  : Result (option Storage.PlayerData) * W :=
  if String.eqb username EmptyString
  then (Throw (mkError "Username is required"), w)
  else
    match get (key username) w with
    | (Found (StoredPlayer player), w') => (Ok (Some player), w')
    | (Found StoredOther, w') => (Ok None, w')
    | (NotFound _, w') => (Ok None, w')
    | (Failed err, w') => (Throw err, w')
    end.

Definition storage : Storage.PlayerStorage W :=
  {| Storage.load := load; Storage.save := save |}.

(** What the code relies on the database for: a value put under a key
    is what a later [get] of that key finds, and a [put] does not disturb
    the other keys. *)
Definition keepsWhatIsPut : Prop :=
  forall (k : string) (v : Storage.PlayerData) (w w1 : W),
    put k v w = (Ok tt, w1) ->
    fst (get k w1) = Found (StoredPlayer v)
    /\ forall k' : string, k' <> k -> fst (get k' w1) = fst (get k' w).

End WithDb.

End LevelDb.

(** A database in memory: the entries put so far, the latest first. *)
Module MemDb.

Definition World : Type := list (string * Storage.PlayerData).

Fixpoint lookup (k : string) (w : World) : option Storage.PlayerData :=
  match w with
  | [] => None
  | (k', v) :: rest => if String.eqb k k' then Some v else lookup k rest
  end.

#[global] Instance db : LevelDb.Db World :=
  {| LevelDb.put := fun k v w => (Ok tt, (k, v) :: w);
     LevelDb.get := fun k w =>
       match lookup k w with
       | Some v => (LevelDb.Found (LevelDb.StoredPlayer v), w)
       | None => (LevelDb.NotFound (mkError "NotFound"), w)
       end |}.

End MemDb.

(** ** Prompts ([src/cli/prompts.ts]): what the validators accept *)

Module Prompts.


(** [username.length > 0] *)
Definition validUsername (username : string) : bool :=
  (0 <? String.length username)%nat.



End Prompts.

(** ** The application ([src/App.ts])

    The terminal is a collaborator: the six prompts answer with a value,
    and everything printed goes through [print] as a typed line.
    [handleError] prints the error chain and ends the process with
    [process.exit(1)]; nothing after it runs.  The process also ends,
    without a word of the program's, when the code gives control back
    to the runtime (at an [await]) while a rejection is unhandled. *)

Module App.

Inductive GameState :=
  | INITIAL_GAME | BET_BEFORE_ROUND | INITIAL_ROUND | PLAYER_TURN
  | DEALER_TURN | ROUND_END | EXIT.

Inductive PlayerAction := Hit | Stand.

Inductive Output :=
  | Welcome
  | PlayerLoaded
  | PlayerCreated
  | Balance (balance : number)
  | CardsForPlayerTurn (playerCards : list Card) (playerTotalValue : Z)
      (dealerUpcard : Card)
  | FinalCards (playerCards : list Card) (playerTotalValue : Z)
      (dealerCards : list Card) (dealerTotalValue : Z)
  | PlayerBlackjack
  | DealerBlackjack
  | PlayerBusted
  | PlayerHas21
  | PlayerWins (amountWon : number)
  | DealerWins
  | PushLine
  | Goodbye
  | ErrorChain (err : Error).

Class Terminal (W : Type) := {
  promptUsername : W -> string * W;
  promptBet : number -> W -> number * W;
  promptPlayerAction : W -> PlayerAction * W;
  promptPlayAgain : W -> bool * W;
  promptDepositMoreFunds : W -> bool * W;
  promptDepositAmount : W -> number * W;
  print : Output -> W -> W
}.

(** The [player] field of the class is the object the engine holds; the
    record keeps it there. *)
Record t := mk { gameState : GameState; gameEngine : GameEngine.t }.

(** How one turn of the [while (true)] loop ends: the loop goes on, or
    [run] returns after the goodbye, or [handleError] has ended the
    process, or an exception nobody catches leaves [run], or the runtime
    has ended the process over an unhandled rejection. *)
Inductive Step :=
  | Continue (app : t)
  | Returned (app : t)
  | ProcessExit (app : t)
  | Uncaught (err : Error) (app : t)
  | Crashed (err : Error) (app : t).

Inductive Started := Ready (app : t) | SetupExit.

Section WithWorld.
Context {W : Type} `{Api.CardSource W} `{Storage.PlayerStorage W}
  `{Terminal W}.

Definition handleError (err : Error) (app : t) (w : W) : Step * W :=
  (ProcessExit app, print (ErrorChain err) w).

(** The check after the [switch]. *)
Definition endOfTurn (app : t) (w : W) : Step * W :=
  match gameState app with
  | EXIT => (Returned app, print Goodbye w)
  | _ => (Continue app, w)
  end.

Definition showBalance (g : GameEngine.t) (w : W) : W :=
  print (Balance (GameEngine.getPlayerBalance g)) w.

Definition showFinalCards (g : GameEngine.t) (w : W) : W :=
  print (FinalCards (GameEngine.getPlayerCards g) (GameEngine.getPlayerTotal g)
           (GameEngine.getDealerCards g) (GameEngine.getDealerTotal g)) w.

(** [retrieveMoreFunds] *)
Definition retrieveMoreFunds (g : GameEngine.t) (w : W)
  : bool * GameEngine.t * W :=
  let '(depositMoreFunds, w1) := promptDepositMoreFunds w in
  if negb depositMoreFunds then (false, g, w1)
  else
    let '(amount, w2) := promptDepositAmount w1 in
    (true, GameEngine.addFundsToPlayer amount g, w2).

(** [showCardsForPlayerTurn], then the rest of the turn [k]. *)
Definition showCardsForPlayerTurn (app : t) (w : W)
  (k : W -> Step * W) : Step * W :=
  let g := gameEngine app in
  match GameEngine.getDealerUpcard g with
  | None =>
      handleError (mkError "dealer upcard unable to be determined") app w
  | Some dealerUpcard =>
      k (print (CardsForPlayerTurn (GameEngine.getPlayerCards g)
                  (GameEngine.getPlayerTotal g) dealerUpcard) w)
  end.

Definition printOutcome (o : GameEngine.Outcome) (winnings : number) (w : W)
  : W :=
  match o with
  | GameEngine.PlayerWonWithBlackjack | GameEngine.PlayerWon =>
      print (PlayerWins winnings) w
  | GameEngine.DealerWonWithBlackjack | GameEngine.DealerWon =>
      print DealerWins w
  | GameEngine.Push => print PushLine w
  end.

(** One turn of the loop of [run]: the [case] of the current state, then
    the check for [EXIT].  [fuel] bounds the dealer's loop. *)
Definition step (fuel : nat) (app : t) (w : W) : option (Step * W) :=
  let g := gameEngine app in
  match gameState app with
  | INITIAL_GAME =>
      match GameEngine.initialize g w with
      | (Throw err, g1, w1) => Some (handleError err (mk INITIAL_GAME g1) w1)
      | (Ok _, g1, w1) =>
          Some (endOfTurn (mk BET_BEFORE_ROUND g1) (showBalance g1 w1))
      end
  | BET_BEFORE_ROUND =>
      let playerBalance := GameEngine.getPlayerBalance g in
      if eqb playerBalance (ofZ 0) then
        let '(success, g1, w1) := retrieveMoreFunds g w in
        if negb success then Some (endOfTurn (mk EXIT g1) w1)
        else Some (endOfTurn (mk BET_BEFORE_ROUND g1) w1)
      else
        let '(bet, w1) := promptBet playerBalance w in
        match GameEngine.placeBet bet g w1 with
        | (Throw err, g1, w2) =>
            Some (handleError
                    (mkErrorCause "Unexpected error with placing bet" err)
                    (mk BET_BEFORE_ROUND g1) w2)
        | (Ok _, g1, w2) => Some (endOfTurn (mk INITIAL_ROUND g1) w2)
        end
  | INITIAL_ROUND =>
      match GameEngine.dealInitialCards g w with
      | (Throw err, g1, w1) => Some (handleError err (mk INITIAL_ROUND g1) w1)
      | (Ok _, g1, w1) =>
          Some (showCardsForPlayerTurn (mk INITIAL_ROUND g1) w1
                  (fun w2 => endOfTurn (mk PLAYER_TURN g1) w2))
      end
  | PLAYER_TURN =>
      if GameEngine.getPlayerHasBlackjack g then
        Some (endOfTurn (mk DEALER_TURN g) (print PlayerBlackjack w))
      else if GameEngine.getDealerHasBlackjack g then
        Some (endOfTurn (mk ROUND_END g) (print DealerBlackjack w))
      else
        let '(action, w1) := promptPlayerAction w in
        match action with
        | Hit =>
            match GameEngine.hitPlayer g w1 with
            | (Throw err, g1, w2) =>
                Some (handleError err (mk PLAYER_TURN g1) w2)
            | (Ok _, g1, w2) =>
                Some (showCardsForPlayerTurn (mk PLAYER_TURN g1) w2
                        (fun w3 =>
                           match GameEngine.getPlayerActionStatus g1 with
                           | GameEngine.Busted =>
                               endOfTurn (mk DEALER_TURN g1)
                                 (print PlayerBusted w3)
                           | GameEngine.Has_21 =>
                               endOfTurn (mk DEALER_TURN g1)
                                 (print PlayerHas21 w3)
                           | GameEngine.Active =>
                               endOfTurn (mk PLAYER_TURN g1) w3
                           end))
            end
        | Stand => Some (endOfTurn (mk DEALER_TURN g) w1)
        end
  | DEALER_TURN =>
      match GameEngine.playThroughDealer fuel g w with
      | None => None
      | Some (Throw err, g1, w1) =>
          Some (handleError err (mk DEALER_TURN g1) w1)
      | Some (Ok _, g1, w1) => Some (endOfTurn (mk ROUND_END g1) w1)
      end
  | ROUND_END =>
      let w1 := showFinalCards g w in
      match GameEngine.evaluateOutcome g w1 with
      | (Throw err, g1, w2) => Some (Uncaught err (mk ROUND_END g1), w2)
      | (Ok _, g1, w2) =>
          match GameEngine.getOutcome g1, GameEngine.getWinnings g1 with
          | None, _ =>
              Some (handleError (mkError "outcome unable to be determined")
                      (mk ROUND_END g1) w2)
          | Some _, None =>
              Some (handleError
                      (mkError "player winnings unable to be determined")
                      (mk ROUND_END g1) w2)
          | Some outcome, Some winnings =>
              let w3 := showBalance g1 (printOutcome outcome winnings w2) in
              (* [await promptPlayAgain()]: the first time since the
                 save was started that the runtime gets control *)
              match GameEngine.unhandled g1 with
              | err :: _ => Some (Crashed err (mk ROUND_END g1), w3)
              | [] =>
                  let '(playAgain, w4) := promptPlayAgain w3 in
                  if playAgain then
                    match GameEngine.checkToReshuffleDeck g1 w4 with
                    | (Throw err, g2, w5) =>
                        Some (handleError err (mk BET_BEFORE_ROUND g2) w5)
                    | (Ok _, g2, w5) =>
                        Some (endOfTurn
                                (mk BET_BEFORE_ROUND
                                   (GameEngine.resetGame g2)) w5)
                    end
                  else
                    Some (endOfTurn (mk EXIT (GameEngine.resetGame g1)) w4)
              end
          end
      end
  | EXIT => Some (endOfTurn app w)
  end.

(** [static async setup()] *)
Definition setup (w : W) : Started * W :=
  let w1 := print Welcome w in
  let '(username, w2) := promptUsername w1 in
  let wrap := mkErrorCause "Failed to load or save player data" in
  match Storage.load username w2 with
  | (Throw err, w3) => (SetupExit, print (ErrorChain (wrap err)) w3)
  | (Ok (Some playerData), w3) =>
      let player := Player.new username (Storage.balance playerData) in
      (Ready (mk INITIAL_GAME (GameEngine.new player)), print PlayerLoaded w3)
  | (Ok None, w3) =>
      let player := Player.new username Player.STARTING_BALANCE in
      match Player.save player (print PlayerCreated w3) with
      | (Throw err, _, w4) => (SetupExit, print (ErrorChain (wrap err)) w4)
      | (Ok _, player', w4) =>
          (Ready (mk INITIAL_GAME (GameEngine.new player')), w4)
      end
  end.


End WithWorld.

(** The application of a [Step]. *)
Definition appOf (s : Step) : t :=
  match s with
  | Continue app | Returned app | ProcessExit app => app
  | Uncaught _ app | Crashed _ app => app
  end.

(** The arrows of the state machine. *)
Definition arrow (from to : GameState) : bool :=
  match from, to with
  | INITIAL_GAME, BET_BEFORE_ROUND
  | BET_BEFORE_ROUND, BET_BEFORE_ROUND
  | BET_BEFORE_ROUND, INITIAL_ROUND
  | BET_BEFORE_ROUND, EXIT
  | INITIAL_ROUND, PLAYER_TURN
  | PLAYER_TURN, PLAYER_TURN
  | PLAYER_TURN, DEALER_TURN
  | PLAYER_TURN, ROUND_END
  | DEALER_TURN, ROUND_END
  | ROUND_END, BET_BEFORE_ROUND
  | ROUND_END, EXIT
  | EXIT, EXIT => true
  | _, _ => false
  end.

End App.

(** A table for trying the application: the scripted card source and
    storage, a terminal that bets the maximum (1 when the maximum is not
    finite), stands, deposits 1000 and stops after the round, and the
    lines printed, the latest first. *)
Module Table.

Definition World : Type := (Scripted.World * list App.Output)%type.

Definition onScript {A : Type} (f : Scripted.World -> A * Scripted.World)
  (w : World) : A * World :=
  let '(a, s) := f (fst w) in (a, (s, snd w)).

#[global] Instance cardSource : Api.CardSource World :=
  {| Api.createDeck := fun deckCount => onScript (Api.createDeck deckCount);
     Api.drawCard := fun deckId count =>
       onScript (Api.drawCard deckId count);
     Api.reshuffleDeck := fun deckId => onScript (Api.reshuffleDeck deckId) |}.

#[global] Instance playerStorage : Storage.PlayerStorage World :=
  {| Storage.load := fun username => onScript (Storage.load username);
     Storage.save := fun data => onScript (Storage.save data) |}.

#[global] Instance terminal : App.Terminal World :=
  {| App.promptUsername := fun w => ("testUser"%string, w);
     App.promptBet := fun maxBet w =>
       (if isFinite maxBet then maxBet else ofZ 1, w);
     App.promptPlayerAction := fun w => (App.Stand, w);
     App.promptPlayAgain := fun w => (false, w);
     App.promptDepositMoreFunds := fun w => (true, w);
     App.promptDepositAmount := fun w => (ofZ 1000, w);
     App.print := fun line w => (fst w, line :: snd w) |}.

Definition seated (script : Scripted.World) : World := (script, []).

End Table.

(** A desk for trying [setup]: the database in memory and a terminal at
    which the name "ann" is typed. *)
Module Desk.

Definition World : Type := MemDb.World.

#[global] Instance terminal : App.Terminal World :=
  {| App.promptUsername := fun w => ("ann"%string, w);
     App.promptBet := fun maxBet w => (maxBet, w);
     App.promptPlayerAction := fun w => (App.Stand, w);
     App.promptPlayAgain := fun w => (false, w);
     App.promptDepositMoreFunds := fun w => (false, w);
     App.promptDepositAmount := fun w => (ofZ 1, w);
     App.print := fun _ w => w |}.

End Desk.

(** * Properties *)

(** * Facts about binary64 arithmetic

    What the rounding operations of [SpecFloat] do at precision 53:
    they keep doubles well formed, they compute exactly whenever the
    exact result is a double, and comparison is the comparison of the
    values. *)

(** ** Doubles: digits *)

Lemma digits2_pos_log2 (p : positive) :
  Zpos (digits2_pos p) = Z.log2 (Zpos p) + 1.
Proof.
  assert (S : forall q, digits2_pos q = Pos.size q)
    by (induction q as [q IH|q IH|]; simpl; now rewrite ?IH).
  rewrite S. destruct p; simpl; lia.
Qed.

Lemma Zdigits2_log2 (m : Z) : 0 < m -> Zdigits2 m = Z.log2 m + 1.
Proof. destruct m; try lia. intros _. apply digits2_pos_log2. Qed.

Lemma fexp_eq (e : Z) : fexp prec emax e = Z.max (e - 53) (-1074).
Proof. reflexivity. Qed.

(** ** Doubles: shifting to the right *)

Lemma pow2_xO (q : positive) : 2 ^ Zpos q~0 = 2 ^ Zpos q * 2 ^ Zpos q.
Proof.
  replace (Zpos q~0) with (Zpos q + Zpos q) by lia.
  apply Z.pow_add_r; lia.
Qed.

Lemma pow2_xI (q : positive) :
  2 ^ Zpos q~1 = 2 * (2 ^ Zpos q * 2 ^ Zpos q).
Proof.
  replace (Zpos q~1) with (1 + (Zpos q + Zpos q)) by lia.
  rewrite Z.pow_add_r, Z.pow_add_r by lia. reflexivity.
Qed.

Lemma pow2_pos (k : Z) : 0 <= k -> 0 < 2 ^ k.
Proof. intros. apply Z.pow_pos_nonneg; lia. Qed.

Lemma shr_1_double (k : Z) :
  0 <= k ->
  shr_1 (Build_shr_record (2 * k) false false)
  = Build_shr_record k false false.
Proof. destruct k; try lia; reflexivity. Qed.

Lemma iter_shr_1_exact (p : positive) :
  forall k : Z,
    0 <= k ->
    iter_pos shr_1 p (Build_shr_record (k * 2 ^ Zpos p) false false)
    = Build_shr_record k false false.
Proof.
  induction p as [p IH|p IH|]; intros k K; cbn [iter_pos].
  - pose proof (pow2_pos (Zpos p) ltac:(lia)) as P.
    replace (k * 2 ^ Zpos p~1) with (2 * (k * 2 ^ Zpos p * 2 ^ Zpos p))
      by (rewrite pow2_xI; ring).
    rewrite shr_1_double by nia.
    rewrite IH by nia. now apply IH.
  - pose proof (pow2_pos (Zpos p) ltac:(lia)) as P.
    replace (k * 2 ^ Zpos p~0) with (k * 2 ^ Zpos p * 2 ^ Zpos p)
      by (rewrite pow2_xO; ring).
    rewrite IH by nia. now apply IH.
  - rewrite Z.pow_1_r, Z.mul_comm. now apply shr_1_double.
Qed.



(** ** Doubles: rounding what needs no rounding *)

Lemma canonical_spec (m : positive) (e : Z) :
  canonical_mantissa prec emax m e = true
  <-> Z.max (Z.log2 (Zpos m) + 1 + e - 53) (-1074) = e.
Proof.
  unfold canonical_mantissa. rewrite Z.eqb_eq, fexp_eq, digits2_pos_log2.
  reflexivity.
Qed.

Lemma bounded_spec (m : positive) (e : Z) :
  bounded prec emax m e = true
  <-> Z.max (Z.log2 (Zpos m) + 1 + e - 53) (-1074) = e /\ e <= 971.
Proof.
  unfold bounded. rewrite andb_true_iff, canonical_spec, Z.leb_le.
  reflexivity.
Qed.

Lemma binary_round_aux_keep (s : bool) (m : positive) (e : Z) :
  fexp prec emax (Zpos (digits2_pos m) + e) <= e ->
  binary_round_aux prec emax s (Zpos m) e loc_Exact
  = if e <=? 971 then S754_finite s m e else S754_infinity s.
Proof.
  intros Le. unfold binary_round_aux, shr_fexp.
  cbn [Zdigits2 shr_record_of_loc].
  assert (N : shr (Build_shr_record (Zpos m) false false) e
                (fexp prec emax (Zpos (digits2_pos m) + e) - e)
              = (Build_shr_record (Zpos m) false false, e)).
  { unfold shr.
    destruct (fexp prec emax (Zpos (digits2_pos m) + e) - e) eqn:D;
      try reflexivity. lia. }
  rewrite N. cbn [shr_m loc_of_shr_record round_nearest_even Zdigits2].
  cbn [shr_record_of_loc]. rewrite N. reflexivity.
Qed.

Lemma binary_round_aux_shift (s : bool) (k n : positive) (e : Z) :
  fexp prec emax (Zdigits2 (Zpos k * 2 ^ Zpos n) + e) = e + Zpos n ->
  binary_round_aux prec emax s (Zpos k * 2 ^ Zpos n) e loc_Exact
  = if e + Zpos n <=? 971 then S754_finite s k (e + Zpos n)
    else S754_infinity s.
Proof.
  intros E. unfold binary_round_aux, shr_fexp. rewrite E.
  replace (e + Zpos n - e) with (Zpos n) by lia.
  cbn [shr_record_of_loc shr]. rewrite iter_shr_1_exact by lia.
  cbn [shr_m loc_of_shr_record round_nearest_even Zdigits2].
  assert (D : Zpos (digits2_pos k) + (e + Zpos n)
              = Zdigits2 (Zpos k * 2 ^ Zpos n) + e).
  { pose proof (pow2_pos (Zpos n) ltac:(lia)).
    rewrite Zdigits2_log2 by nia.
    rewrite Z.log2_mul_pow2 by lia. rewrite digits2_pos_log2. lia. }
  rewrite D, E. replace (e + Zpos n - (e + Zpos n)) with 0 by lia.
  reflexivity.
Qed.

Lemma iter_xO_pow2 (m d : positive) :
  Zpos (Pos.iter xO m d) = Zpos m * 2 ^ Zpos d.
Proof.
  induction d as [|d IH] using Pos.peano_ind.
  - cbn [Pos.iter]. rewrite Z.pow_1_r. lia.
  - rewrite Pos.iter_succ, Pos2Z.inj_xO, IH, Pos2Z.inj_succ,
      Z.pow_succ_r by lia. ring.
Qed.

Lemma shl_align_down (m : positive) (e e' : Z) :
  e' < e ->
  exists m' : positive,
    shl_align m e e' = (m', e') /\ Zpos m' = Zpos m * 2 ^ (e - e').
Proof.
  intros Lt. unfold shl_align.
  destruct (e' - e) as [|p|p] eqn:D; try lia.
  exists (Pos.iter xO m p). split; [reflexivity|].
  rewrite iter_xO_pow2. f_equal. f_equal. lia.
Qed.

Lemma shl_align_keep (m : positive) (e e' : Z) :
  e <= e' -> shl_align m e e' = (m, e).
Proof.
  intros Le. unfold shl_align.
  destruct (e' - e) as [|p|p] eqn:D; try reflexivity. lia.
Qed.

(** A value that a valid double [M * 2^E] has is rounded to that double,
    from whatever mantissa and exponent it is given. *)
Lemma binary_round_value (s : bool) (m M : positive) (e E : Z) :
  bounded prec emax M E = true ->
  Zpos m * 2 ^ (e - Z.min e E) = Zpos M * 2 ^ (E - Z.min e E) ->
  binary_round prec emax s m e = S754_finite s M E.
Proof.
  intros B V. apply bounded_spec in B as [C Le].
  assert (L : Z.log2 (Zpos m) + e = Z.log2 (Zpos M) + E).
  { apply (f_equal Z.log2) in V.
    rewrite !Z.log2_mul_pow2 in V by lia. lia. }
  assert (F : fexp prec emax (Zpos (digits2_pos m) + e) = E).
  { rewrite fexp_eq, digits2_pos_log2.
    replace (Z.log2 (Zpos m) + 1 + e - 53)
      with (Z.log2 (Zpos M) + 1 + E - 53) by lia.
    exact C. }
  unfold binary_round. rewrite F.
  destruct (Z.lt_trichotomy E e) as [Lt|[Eq|Gt]].
  - destruct (shl_align_down m e E Lt) as (m' & -> & M').
    rewrite Z.min_r in V by lia. rewrite Z.sub_diag, Z.mul_1_r in V.
    assert (m' = M) by lia. subst m'.
    rewrite binary_round_aux_keep.
    + apply Z.leb_le in Le. now rewrite Le.
    + rewrite fexp_eq, digits2_pos_log2. lia.
  - subst e. rewrite Z.min_id, Z.sub_diag, !Z.mul_1_r in V.
    assert (m = M) by lia. subst m.
    rewrite shl_align_keep by lia. rewrite binary_round_aux_keep by lia.
    apply Z.leb_le in Le. now rewrite Le.
  - rewrite shl_align_keep by lia.
    rewrite Z.min_l in V by lia. rewrite Z.sub_diag, Z.mul_1_r in V.
    destruct (E - e) as [|n|n] eqn:D; try lia.
    rewrite V. replace E with (e + Zpos n) in * by lia.
    rewrite binary_round_aux_shift.
    + apply Z.leb_le in Le. now rewrite Le.
    + rewrite <- V. cbn [Zdigits2]. exact F.
Qed.

(** ** Doubles: every rounding gives a valid double of the right sign *)







Lemma log2_bounds (m : Z) :
  0 < m -> 2 ^ Z.log2 m <= m < 2 ^ (Z.log2 m + 1).
Proof.
  intros M. pose proof (Z.log2_spec m M) as L.
  now rewrite <- Z.add_1_r in L.
Qed.



(** ** Doubles: the operations keep doubles valid *)

Lemma binary_round_as_aux (s : bool) (m : positive) (e : Z) :
  e <= fexp prec emax (Zpos (digits2_pos m) + e) ->
  binary_round prec emax s m e
  = binary_round_aux prec emax s (Zpos m) e loc_Exact.
Proof. intros Le. unfold binary_round. now rewrite shl_align_keep. Qed.







Lemma mul_exponent_fits (mx my : positive) (ex ey : Z) :
  bounded prec emax mx ex = true -> bounded prec emax my ey = true ->
  ex + ey <= fexp prec emax (Zpos (digits2_pos (mx * my)) + (ex + ey)).
Proof.
  intros X Y. apply bounded_spec in X as [X _], Y as [Y _].
  rewrite fexp_eq, digits2_pos_log2, Pos2Z.inj_mul.
  pose proof (Z.log2_mul_below (Zpos mx) (Zpos my) ltac:(lia) ltac:(lia)).
  pose proof (Z.log2_nonneg (Zpos mx)). pose proof (Z.log2_nonneg (Zpos my)).
  lia.
Qed.


(** ** Doubles: order of valid doubles *)

Lemma bounded_digits (m : positive) (e : Z) :
  bounded prec emax m e = true ->
  Zpos m < 2 ^ 53 /\ -1074 <= e <= 971 /\ (-1074 < e -> 2 ^ 52 <= Zpos m).
Proof.
  intros B. apply bounded_spec in B as [C Le].
  pose proof (log2_bounds (Zpos m) ltac:(lia)) as [Lo Hi].
  pose proof (Z.log2_nonneg (Zpos m)).
  split; [|split; [lia|]].
  - assert (2 ^ (Z.log2 (Zpos m) + 1) <= 2 ^ 53)
      by (apply Z.pow_le_mono_r; lia). lia.
  - intros NotMin.
    assert (2 ^ 52 <= 2 ^ Z.log2 (Zpos m))
      by (apply Z.pow_le_mono_r; lia). lia.
Qed.

Lemma compare_bounded (m1 m2 : positive) (e1 e2 : Z) :
  bounded prec emax m1 e1 = true -> bounded prec emax m2 e2 = true ->
  match e1 ?= e2 with
  | Lt => Lt
  | Gt => Gt
  | Eq => Pos.compare_cont Eq m1 m2
  end
  = (Zpos m1 * 2 ^ (e1 - Z.min e1 e2) ?= Zpos m2 * 2 ^ (e2 - Z.min e1 e2)).
Proof.
  intros B1 B2.
  apply bounded_digits in B1 as (H1 & R1 & L1), B2 as (H2 & R2 & L2).
  destruct (Z.compare_spec e1 e2) as [Eq|Lt|Gt].
  - subst e2. rewrite Z.min_id, Z.sub_diag, !Z.mul_1_r. reflexivity.
  - rewrite Z.min_l, Z.sub_diag, Z.mul_1_r by lia. symmetry.
    apply Z.compare_lt_iff.
    assert (2 * 1 <= 2 ^ (e2 - e1)).
    { change (2 * 1) with (2 ^ 1). apply Z.pow_le_mono_r; lia. }
    specialize (L2 ltac:(lia)). change (2 ^ 53) with (2 * 2 ^ 52) in H1. nia.
  - rewrite Z.min_r, Z.sub_diag, Z.mul_1_r by lia. symmetry.
    apply Z.compare_gt_iff.
    assert (2 * 1 <= 2 ^ (e1 - e2)).
    { change (2 * 1) with (2 ^ 1). apply Z.pow_le_mono_r; lia. }
    specialize (L1 ltac:(lia)). change (2 ^ 53) with (2 * 2 ^ 52) in H2. nia.
Qed.

Section DoubleValues.
Local Open Scope Q_scope.

(** ** Doubles: the value of a double *)



Lemma pow2Q_pos (e : Z) : 0 < 2 ^ e.
Proof. now apply Qpower_0_lt. Qed.

Lemma pow2Q_add (a b : Z) : 2 ^ (a + b) == 2 ^ a * 2 ^ b.
Proof. now apply Qpower_plus. Qed.

Lemma pow2Q_Z (k : Z) : (0 <= k)%Z -> 2 ^ k == inject_Z (2 ^ k).
Proof. intros K. now rewrite Zpower_Qpower. Qed.

Lemma aligned (A : Z) (e c : Z) :
  (c <= e)%Z -> inject_Z A * 2 ^ e == inject_Z (A * 2 ^ (e - c)) * 2 ^ c.
Proof.
  intros Le. replace e with ((e - c) + c)%Z at 1 by lia.
  rewrite pow2Q_add, pow2Q_Z, inject_Z_mult by lia. ring.
Qed.

Lemma scaled_eq (A B c : Z) :
  inject_Z A * 2 ^ c == inject_Z B * 2 ^ c <-> A = B.
Proof.
  rewrite Qmult_inj_r, inject_Z_injective; [reflexivity|].
  pose proof (pow2Q_pos c) as P. intros Z. rewrite Z in P.
  now apply Qlt_irrefl in P.
Qed.

Lemma scaled_compare (A B c : Z) :
  (inject_Z A * 2 ^ c ?= inject_Z B * 2 ^ c) = (A ?= B)%Z.
Proof.
  pose proof (pow2Q_pos c) as P.
  destruct (Z.compare_spec A B) as [Eq|Lt|Gt].
  - subst. apply Qeq_alt. reflexivity.
  - apply Qlt_alt. apply Qmult_lt_r; [assumption|].
    now rewrite <- Zlt_Qlt.
  - apply Qgt_alt. apply Qmult_lt_r; [assumption|].
    now rewrite <- Zlt_Qlt.
Qed.

Lemma toQ_finite_at (s : bool) (m : positive) (e c : Z) :
  (c <= e)%Z ->
  toQ (S754_finite s m e)
  == inject_Z (cond_Zopp s (Zpos m * 2 ^ (e - c))) * 2 ^ c.
Proof.
  intros Le. cbn [toQ]. rewrite (aligned _ e c Le).
  destruct s; cbn [cond_Zopp]; [|reflexivity].
  now rewrite Z.mul_opp_l.
Qed.

Lemma denotes_eq (x : spec_float) (p q : Q) :
  p == q -> denotes x p -> denotes x q.
Proof. intros E (V & F & T). repeat split; try assumption. now rewrite T. Qed.

(** A value that some double has is rounded to a double with that
    value. *)
Lemma binary_round_denotes (s : bool) (m : positive) (e : Z) (q : Q) :
  representable q ->
  q == inject_Z (cond_Zopp s (Zpos m)) * 2 ^ e ->
  denotes (binary_round prec emax s m e) q.
Proof.
  intros (z & V & F & T) Q.
  destruct z as [sz|sz| |sz M E]; try discriminate F.
  - (* a zero cannot have this value *)
    exfalso. cbn [toQ] in T. rewrite <- T in Q. symmetry in Q.
    apply Qmult_integral in Q as [Q|Q].
    + change 0 with (inject_Z 0) in Q. apply inject_Z_injective in Q.
      destruct s; discriminate Q.
    + pose proof (pow2Q_pos e) as P. rewrite Q in P.
      now apply Qlt_irrefl in P.
  - assert (A : cond_Zopp sz (Zpos M * 2 ^ (E - Z.min e E))
                = cond_Zopp s (Zpos m * 2 ^ (e - Z.min e E))).
    { apply (scaled_eq _ _ (Z.min e E)).
      rewrite <- (toQ_finite_at sz M E) by lia.
      rewrite <- (toQ_finite_at s m e) by lia.
      rewrite T, Q. reflexivity. }
    assert (P1 : (0 < Zpos M * 2 ^ (E - Z.min e E))%Z)
      by (pose proof (pow2_pos (E - Z.min e E) ltac:(lia)); nia).
    assert (P2 : (0 < Zpos m * 2 ^ (e - Z.min e E))%Z)
      by (pose proof (pow2_pos (e - Z.min e E) ltac:(lia)); nia).
    assert (sz = s)
      by (destruct sz, s; cbn [cond_Zopp] in A; lia || reflexivity).
    subst sz.
    assert (A' : (Zpos m * 2 ^ (e - Z.min e E)
                  = Zpos M * 2 ^ (E - Z.min e E))%Z)
      by (destruct s; cbn [cond_Zopp] in A; lia).
    rewrite (binary_round_value s m M e E V A').
    split; [assumption|split; [reflexivity|assumption]].
Qed.

Lemma binary_normalize_denotes (m e : Z) (q : Q) :
  representable q -> q == inject_Z m * 2 ^ e ->
  denotes (binary_normalize prec emax m e false) q.
Proof.
  intros R Q. destruct m as [|p|p]; cbn [binary_normalize].
  - split; [reflexivity|split; [reflexivity|]]. cbn [toQ]. rewrite Q. ring.
  - now apply binary_round_denotes.
  - now apply binary_round_denotes.
Qed.

Lemma dyadic_representable (k e : Z) :
  (Z.abs k < 2 ^ 53)%Z -> (-1074 <= e <= 971)%Z ->
  representable (inject_Z k * 2 ^ e).
Proof.
  intros K R.
  destruct (Z.eq_dec k 0) as [->|NZ].
  { exists (S754_zero false).
    split; [reflexivity|split; [reflexivity|]]. cbn [toQ]. ring. }
  set (p := Z.to_pos (Z.abs k)).
  assert (Pk : Zpos p = Z.abs k) by (unfold p; lia).
  set (E := Z.max (Z.log2 (Zpos p) + 1 + e - 53) (-1074)).
  assert (L53 : (Z.log2 (Zpos p) < 53)%Z)
    by (apply Z.log2_lt_pow2; lia).
  assert (LE : (E <= e)%Z) by (unfold E; lia).
  pose proof (pow2_pos (e - E) ltac:(lia)) as P2.
  set (M := Z.to_pos (Zpos p * 2 ^ (e - E))).
  assert (PM : Zpos M = (Zpos p * 2 ^ (e - E))%Z) by (unfold M; nia).
  exists (S754_finite (k <? 0)%Z M E).
  split; [|split; [reflexivity|]].
  - cbn [valid_binary]. apply bounded_spec. split; [|lia].
    rewrite PM, Z.log2_mul_pow2 by lia. unfold E. lia.
  - rewrite (toQ_finite_at _ M E E) by lia.
    rewrite Z.sub_diag, Z.mul_1_r, PM.
    rewrite (aligned k e E LE). apply scaled_eq.
    destruct (Z.ltb_spec k 0); cbn [cond_Zopp]; nia.
Qed.

Lemma dyadic_denotes (k e : Z) :
  (Z.abs k < 2 ^ 53)%Z -> (-1074 <= e <= 971)%Z ->
  denotes (binary_normalize prec emax k e false) (inject_Z k * 2 ^ e).
Proof.
  intros K R. apply binary_normalize_denotes; [|reflexivity].
  now apply dyadic_representable.
Qed.

(** ** Doubles: the operations on doubles that have a value *)

Lemma shl_align_fst (m : positive) (e e' : Z) :
  (e' <= e)%Z ->
  Zpos (fst (shl_align m e e')) = (Zpos m * 2 ^ (e - e'))%Z.
Proof.
  intros Le. destruct (Z.eq_dec e' e) as [->|Ne].
  - rewrite shl_align_keep by lia. rewrite Z.sub_diag. cbn [fst]. lia.
  - destruct (shl_align_down m e e' ltac:(lia)) as (m' & -> & M').
    exact M'.
Qed.

Lemma cond_Zopp_mul (s : bool) (a b : Z) :
  (cond_Zopp s a * b)%Z = cond_Zopp s (a * b).
Proof. destruct s; cbn [cond_Zopp]; lia. Qed.

Lemma SFadd_denotes (x y : spec_float) (p q : Q) :
  denotes x p -> denotes y q -> representable (p + q) ->
  denotes (SFadd prec emax x y) (p + q).
Proof.
  intros (Vx & Fx & Tx) (Vy & Fy & Ty) R.
  destruct x as [sx|sx| |sx mx ex]; try discriminate Fx;
    destruct y as [sy|sy| |sy my ey]; try discriminate Fy; cbn [SFadd].
  - cbn [toQ] in Tx, Ty.
    assert (Z : toQ (S754_zero false) == p + q)
      by (cbn [toQ]; rewrite <- Tx, <- Ty; ring).
    destruct sx, sy; (split; [reflexivity|split; [reflexivity|exact Z]]).
  - split; [assumption|split; [reflexivity|]].
    rewrite Ty, <- Tx. cbn [toQ]. ring.
  - split; [assumption|split; [reflexivity|]].
    rewrite Tx, <- Ty. cbn [toQ]. ring.
  - apply binary_normalize_denotes; [assumption|].
    rewrite <- Tx, <- Ty.
    rewrite (toQ_finite_at sx mx ex (Z.min ex ey)) by lia.
    rewrite (toQ_finite_at sy my ey (Z.min ex ey)) by lia.
    rewrite !shl_align_fst by lia.
    rewrite inject_Z_plus. ring.
Qed.

Lemma SFopp_denotes (x : spec_float) (p : Q) :
  denotes x p -> denotes (SFopp x) (- p).
Proof.
  intros (V & F & T).
  destruct x as [s|s| |s m e]; try discriminate F; cbn [SFopp].
  - split; [reflexivity|split; [reflexivity|]].
    cbn [toQ] in *. rewrite <- T. ring.
  - split; [exact V|split; [reflexivity|]].
    rewrite <- T. cbn [toQ].
    destruct s; cbn [cond_Zopp negb]; rewrite ?inject_Z_opp; ring.
Qed.

Lemma SFmul_denotes (x y : spec_float) (p q : Q) :
  denotes x p -> denotes y q -> representable (p * q) ->
  denotes (SFmul prec emax x y) (p * q).
Proof.
  intros (Vx & Fx & Tx) (Vy & Fy & Ty) R.
  destruct x as [sx|sx| |sx mx ex]; try discriminate Fx;
    destruct y as [sy|sy| |sy my ey]; try discriminate Fy; cbn [SFmul];
    try (split; [reflexivity|split; [reflexivity|]];
         cbn [toQ] in *; rewrite <- Tx, <- Ty; ring).
  rewrite <- binary_round_as_aux by now apply mul_exponent_fits.
  apply binary_round_denotes; [assumption|].
  rewrite <- Tx, <- Ty. cbn [toQ].
  rewrite pow2Q_add, Pos2Z.inj_mul.
  destruct sx, sy; cbn [cond_Zopp xorb];
    rewrite ?inject_Z_opp, ?inject_Z_mult; ring.
Qed.

Lemma toQ_sign (s : bool) (m : positive) (e : Z) :
  if s then toQ (S754_finite s m e) < 0 else 0 < toQ (S754_finite s m e).
Proof.
  pose proof (pow2Q_pos e) as P. cbn [toQ].
  destruct s; cbn [cond_Zopp].
  - setoid_replace 0 with (inject_Z 0 * 2 ^ e) by ring.
    apply Qmult_lt_r; [assumption|]. now rewrite <- Zlt_Qlt.
  - setoid_replace 0 with (inject_Z 0 * 2 ^ e) by ring.
    apply Qmult_lt_r; [assumption|]. now rewrite <- Zlt_Qlt.
Qed.

Lemma SFcompare_denotes (x y : spec_float) (p q : Q) :
  denotes x p -> denotes y q -> SFcompare x y = Some (p ?= q).
Proof.
  intros (Vx & Fx & Tx) (Vy & Fy & Ty).
  rewrite <- Tx, <- Ty.
  destruct x as [sx|sx| |sx mx ex]; try discriminate Fx;
    destruct y as [sy|sy| |sy my ey]; try discriminate Fy; cbn [SFcompare].
  - reflexivity.
  - pose proof (toQ_sign sy my ey) as S. f_equal. symmetry.
    change (toQ (S754_zero sx)) with 0.
    destruct sy; [now apply Qgt_alt|now apply Qlt_alt].
  - pose proof (toQ_sign sx mx ex) as S. f_equal. symmetry.
    change (toQ (S754_zero sy)) with 0.
    destruct sx; [now apply Qlt_alt|now apply Qgt_alt].
  - f_equal.
    pose proof (toQ_sign sx mx ex) as Sx.
    pose proof (toQ_sign sy my ey) as Sy.
    destruct sx, sy.
    + pose proof (compare_bounded mx my ex ey Vx Vy) as C.
      rewrite (toQ_finite_at true mx ex (Z.min ex ey)) by lia.
      rewrite (toQ_finite_at true my ey (Z.min ex ey)) by lia.
      rewrite scaled_compare. cbn [cond_Zopp].
      rewrite Z.compare_opp, (Z.compare_antisym _ (Zpos my * _)), <- C.
      destruct (ex ?= ey)%Z; reflexivity.
    + symmetry. apply Qlt_alt. now apply Qlt_trans with 0.
    + symmetry. apply Qgt_alt. now apply Qlt_trans with 0.
    + rewrite (compare_bounded mx my ex ey Vx Vy).
      rewrite (toQ_finite_at false mx ex (Z.min ex ey)) by lia.
      rewrite (toQ_finite_at false my ey (Z.min ex ey)) by lia.
      now rewrite scaled_compare.
Qed.

Lemma SFltb_denotes (x y : spec_float) (p q : Q) :
  denotes x p -> denotes y q -> (SFltb x y = true <-> p < q).
Proof.
  intros X Y. unfold SFltb. rewrite (SFcompare_denotes x y p q X Y).
  rewrite Qlt_alt. destruct (p ?= q); split; congruence.
Qed.


Lemma SFeqb_denotes (x y : spec_float) (p q : Q) :
  denotes x p -> denotes y q -> (SFeqb x y = true <-> p == q).
Proof.
  intros X Y. unfold SFeqb. rewrite (SFcompare_denotes x y p q X Y).
  rewrite Qeq_alt. destruct (p ?= q); split; congruence.
Qed.

End DoubleValues.

(** ** Doubles: amounts that stay non-negative *)







(** ** Doubles: whole amounts and halves *)

Section WholeAmounts.
Local Open Scope Q_scope.

Lemma ofZ_denotes (n : Z) :
  (Z.abs n < 2 ^ 53)%Z -> denotes (ofZ n) (inject_Z n).
Proof.
  intros N. apply denotes_eq with (inject_Z n * 2 ^ 0).
  - cbn [Qpower]. ring.
  - apply dyadic_denotes; [assumption|lia].
Qed.

Lemma inject_Z_sub (a b : Z) : inject_Z (a - b) == inject_Z a - inject_Z b.
Proof.
  unfold Z.sub, Qminus. now rewrite inject_Z_plus, inject_Z_opp.
Qed.

Lemma whole_representable (n : Z) :
  (Z.abs n < 2 ^ 53)%Z -> representable (inject_Z n).
Proof. intros N. exists (ofZ n). now apply ofZ_denotes. Qed.

Lemma halves_representable (k : Z) (q : Q) :
  (Z.abs k < 2 ^ 53)%Z -> q == inject_Z k * (1 # 2) -> representable q.
Proof.
  intros K E. destruct (dyadic_representable k (-1) K ltac:(lia)) as (z & Z).
  exists z. apply denotes_eq with (inject_Z k * 2 ^ (-1)); [|assumption].
  rewrite E. reflexivity.
Qed.

Lemma onePointFive_denotes : denotes onePointFive (3 # 2).
Proof. split; [reflexivity|split; reflexivity]. Qed.

Lemma zero_denotes : denotes (ofZ 0) 0.
Proof. split; [reflexivity|split; reflexivity]. Qed.

(** The same finite double, up to the sign of a zero. *)
Lemma denotes_same (x y : number) (q : Q) :
  denotes x q -> denotes y q -> eqb x y = true.
Proof.
  intros X Y. apply (SFeqb_denotes x y q q X Y). reflexivity.
Qed.

Lemma denotes_sub (x y : number) (p q : Q) :
  denotes x p -> denotes y q -> representable (p - q) ->
  denotes (add x (opp y)) (p - q).
Proof.
  intros X Y R. apply SFadd_denotes; [assumption| |assumption].
  now apply SFopp_denotes.
Qed.

End WholeAmounts.

(** ** Hand totals in closed form *)

Lemma getCardValue_nonAce_bounds (card : Card) :
  isAce (rank card) = false -> 2 <= getCardValue card <= 10.
Proof.
  unfold getCardValue; destruct (rank card); simpl; intros E;
    try discriminate E; lia.
Qed.

Lemma firstPass_from (cards : list Card) :
  forall (n : nat) (v : Z),
    fold_left firstPassStep cards (n, v)
    = ((n + countAces cards)%nat, v + sumNonAces cards).
Proof.
  induction cards as [|card cards IH]; intros n v; simpl.
  - f_equal; lia.
  - destruct (isAce (rank card)); rewrite IH; f_equal; lia.
Qed.

Lemma firstPass_eq (cards : list Card) :
  firstPass cards = (countAces cards, sumNonAces cards).
Proof. unfold firstPass; now rewrite firstPass_from. Qed.

(** The Ace loop: every Ace but the last adds 1, the last one decides. *)
Lemma secondPass_succ (i : nat) :
  forall (hasSoft : bool) (v : Z),
    secondPass (S i) hasSoft v
    = if v + Z.of_nat i + 11 <=? 21
      then mkCardTotal (v + Z.of_nat i + 11) true
      else mkCardTotal (v + Z.of_nat i + 1) hasSoft.
Proof.
  induction i as [|i IH]; intros hasSoft v.
  - simpl. replace (v + 0 + 11) with (v + 11) by lia.
    replace (v + 0 + 1) with (v + 1) by lia.
    now destruct (v + 11 <=? 21).
  - change (secondPass (S (S i)) hasSoft v)
      with (secondPass (S i) hasSoft (v + 1)).
    rewrite IH.
    replace (v + 1 + Z.of_nat i + 11) with (v + Z.of_nat (S i) + 11) by lia.
    replace (v + 1 + Z.of_nat i + 1) with (v + Z.of_nat (S i) + 1) by lia.
    reflexivity.
Qed.

Lemma cardTotalOf_closed (cards : list Card) :
  cardTotalOf cards
  = if (0 <? countAces cards)%nat && (hardTotal cards + 10 <=? 21)
    then mkCardTotal (hardTotal cards + 10) true
    else mkCardTotal (hardTotal cards) false.
Proof.
  unfold cardTotalOf, hardTotal. rewrite firstPass_eq.
  destruct (countAces cards) as [|i] eqn:E.
  - simpl. f_equal; lia.
  - rewrite secondPass_succ.
    change (0 <? S i)%nat with true. cbv [andb].
    replace (sumNonAces cards + Z.of_nat i + 11)
      with (sumNonAces cards + Z.of_nat (S i) + 10) by lia.
    replace (sumNonAces cards + Z.of_nat i + 1)
      with (sumNonAces cards + Z.of_nat (S i)) by lia.
    reflexivity.
Qed.

Lemma cardTotalOf_soft_iff (cards : list Card) :
  hasSoftAce (cardTotalOf cards) = true
  <-> (0 < countAces cards)%nat /\ hardTotal cards + 10 <= 21.
Proof.
  rewrite cardTotalOf_closed.
  destruct (0 <? countAces cards)%nat eqn:A;
    destruct (hardTotal cards + 10 <=? 21) eqn:B; simpl.
  - apply Nat.ltb_lt in A. apply Z.leb_le in B. tauto.
  - apply Z.leb_gt in B. split; [discriminate|lia].
  - apply Nat.ltb_ge in A. split; [discriminate|lia].
  - apply Nat.ltb_ge in A. split; [discriminate|lia].
Qed.

Lemma cardTotalOf_value_soft (cards : list Card) :
  hasSoftAce (cardTotalOf cards) = true ->
  value (cardTotalOf cards) = hardTotal cards + 10.
Proof.
  rewrite cardTotalOf_closed.
  now destruct ((0 <? countAces cards)%nat && (hardTotal cards + 10 <=? 21)).
Qed.

Lemma cardTotalOf_value_hard (cards : list Card) :
  hasSoftAce (cardTotalOf cards) = false ->
  value (cardTotalOf cards) = hardTotal cards.
Proof.
  rewrite cardTotalOf_closed.
  now destruct ((0 <? countAces cards)%nat && (hardTotal cards + 10 <=? 21)).
Qed.

Lemma hardTotal_le_value (cards : list Card) :
  hardTotal cards <= value (cardTotalOf cards).
Proof.
  rewrite cardTotalOf_closed.
  destruct ((0 <? countAces cards)%nat && (hardTotal cards + 10 <=? 21));
    simpl; lia.
Qed.

Lemma value_le_hardTotal_plus_10 (cards : list Card) :
  value (cardTotalOf cards) <= hardTotal cards + 10.
Proof.
  rewrite cardTotalOf_closed.
  destruct ((0 <? countAces cards)%nat && (hardTotal cards + 10 <=? 21));
    simpl; lia.
Qed.

Lemma hardTotal_app (xs ys : list Card) :
  hardTotal (xs ++ ys) = hardTotal xs + hardTotal ys.
Proof.
  unfold hardTotal.
  induction xs as [|x xs IH]; simpl; [lia|].
  destruct (isAce (rank x)); lia.
Qed.

Lemma hardTotal_single (card : Card) : 1 <= hardTotal [card] <= 10.
Proof.
  unfold hardTotal; simpl.
  destruct (isAce (rank card)) eqn:E; simpl; [lia|].
  pose proof (getCardValue_nonAce_bounds card E); lia.
Qed.

Lemma hardTotal_length (cards : list Card) :
  Z.of_nat (List.length cards) <= hardTotal cards.
Proof.
  induction cards as [|card cards IH]; [unfold hardTotal; simpl; lia|].
  change (card :: cards) with ([card] ++ cards).
  rewrite hardTotal_app. pose proof (hardTotal_single card).
  simpl List.length. lia.
Qed.

(** ** Totals under an assignment *)

Lemma totalUnder_eq (cards : list Card) :
  forall flags : list bool,
    List.length flags = List.length cards ->
    totalUnder cards flags
    = hardTotal cards + 10 * Z.of_nat (acesAsEleven cards flags).
Proof.
  unfold hardTotal.
  induction cards as [|card cards IH]; intros [|flag flags] L;
    simpl in L; try discriminate L;
    cbn [totalUnder acesAsEleven sumNonAces countAces]; [lia|].
  injection L as L. rewrite (IH flags L).
  unfold getCardValue.
  destruct (rank card), flag; cbn [isAce countsAs andb]; lia.
Qed.

Lemma acesAsEleven_le_countAces (cards : list Card) :
  forall flags : list bool,
    (acesAsEleven cards flags <= countAces cards)%nat.
Proof.
  induction cards as [|card cards IH]; intros [|flag flags]; simpl;
    try lia.
  specialize (IH flags). destruct (isAce (rank card)), flag; cbv [andb]; lia.
Qed.

Lemma acesAsEleven_all_false (cards : list Card) :
  acesAsEleven cards (map (fun _ => false) cards) = O.
Proof.
  induction cards as [|card cards IH]; simpl; [reflexivity|].
  rewrite IH. now destruct (isAce (rank card)).
Qed.

Lemma flagFirstAce_length (cards : list Card) :
  List.length (flagFirstAce cards) = List.length cards.
Proof.
  induction cards as [|card cards IH]; simpl; [reflexivity|].
  destruct (isAce (rank card)); simpl; [now rewrite length_map|now rewrite IH].
Qed.

Lemma flagFirstAce_count (cards : list Card) :
  acesAsEleven cards (flagFirstAce cards)
  = if (0 <? countAces cards)%nat then 1%nat else O.
Proof.
  induction cards as [|card cards IH]; simpl; [reflexivity|].
  destruct (isAce (rank card)) eqn:E; simpl.
  - now rewrite acesAsEleven_all_false.
  - exact IH.
Qed.

Lemma admissible_flagFirstAce (cards : list Card) :
  admissible cards (flagFirstAce cards).
Proof.
  split; [apply flagFirstAce_length|].
  rewrite flagFirstAce_count. destruct (0 <? countAces cards)%nat; lia.
Qed.

Lemma admissible_all_false (cards : list Card) :
  admissible cards (map (fun _ => false) cards).
Proof.
  split; [apply length_map|]. rewrite acesAsEleven_all_false. lia.
Qed.

Lemma totalUnder_all_false (cards : list Card) :
  totalUnder cards (map (fun _ => false) cards) = hardTotal cards.
Proof.
  rewrite totalUnder_eq by apply length_map.
  rewrite acesAsEleven_all_false. lia.
Qed.

(** What an admissible assignment can total: the hard total, or ten more
    when the hand has an Ace to flag. *)
Lemma admissible_total (cards : list Card) (flags : list bool) :
  admissible cards flags ->
  (acesAsEleven cards flags = 0%nat /\ totalUnder cards flags = hardTotal cards)
  \/ (acesAsEleven cards flags = 1%nat /\ (0 < countAces cards)%nat
      /\ totalUnder cards flags = hardTotal cards + 10).
Proof.
  intros [L A]. rewrite (totalUnder_eq cards flags L).
  pose proof (acesAsEleven_le_countAces cards flags) as B.
  destruct (acesAsEleven cards flags) as [|[|k]]; [left|right|]; lia.
Qed.

(** The hand returned by the tests of [Participant]. *)
Example getCardTotal_tests :
  cardTotalOf [mkCard "0H" HEARTS R10; mkCard "7S" SPADES R7]
    = mkCardTotal 17 false
  /\ cardTotalOf [mkCard "AC" CLUBS RA; mkCard "7D" DIAMONDS R7]
    = mkCardTotal 18 true
  /\ cardTotalOf [mkCard "AC" CLUBS RA; mkCard "0S" SPADES R10;
                  mkCard "5D" DIAMONDS R5]
    = mkCardTotal 16 false
  /\ cardTotalOf [mkCard "AC" CLUBS RA; mkCard "AH" HEARTS RA;
                  mkCard "8D" DIAMONDS R8]
    = mkCardTotal 20 true
  /\ cardTotalOf [mkCard "AC" CLUBS RA; mkCard "AS" SPADES RA;
                  mkCard "9H" HEARTS R9; mkCard "9D" DIAMONDS R9]
    = mkCardTotal 20 false.
Proof. repeat split. Qed.

Section BestTotal.
Variable cards : list Card.

Lemma total_cases :
  (hasSoftAce (cardTotalOf cards) = true
   /\ value (cardTotalOf cards) = hardTotal cards + 10
   /\ (0 < countAces cards)%nat /\ hardTotal cards + 10 <= 21)
  \/ (hasSoftAce (cardTotalOf cards) = false
      /\ value (cardTotalOf cards) = hardTotal cards
      /\ ((0 < countAces cards)%nat -> 21 < hardTotal cards + 10)).
Proof.
  destruct (hasSoftAce (cardTotalOf cards)) eqn:E.
  - left. pose proof (cardTotalOf_value_soft cards E).
    apply cardTotalOf_soft_iff in E. tauto.
  - right. pose proof (cardTotalOf_value_hard cards E) as V.
    repeat split; [exact V|]. intros Aces.
    destruct (Z_lt_le_dec 21 (hardTotal cards + 10)) as [?|Fits];
      [assumption|].
    pose proof (proj2 (cardTotalOf_soft_iff cards) (conj Aces Fits)).
    congruence.
Qed.

Lemma total_soft_iff_one_eleven (flags : list bool) :
  admissible cards flags ->
  totalUnder cards flags = value (cardTotalOf cards) ->
  (hasSoftAce (cardTotalOf cards) = true <-> acesAsEleven cards flags = 1%nat).
Proof.
  intros A V.
  destruct total_cases as [(S & V' & _)|(S & V' & _)]; rewrite S;
    destruct (admissible_total cards flags A) as [[C ?]|[C [_ ?]]];
    rewrite C; split; intros; try reflexivity; try discriminate; lia.
Qed.

Lemma total_achieved :
  exists flags,
    admissible cards flags
    /\ totalUnder cards flags = value (cardTotalOf cards)
    /\ (hasSoftAce (cardTotalOf cards) = true
        <-> acesAsEleven cards flags = 1%nat).
Proof.
  destruct total_cases as [(S & V & Aces & _)|(S & V & _)].
  - exists (flagFirstAce cards).
    assert (R : totalUnder cards (flagFirstAce cards)
                = value (cardTotalOf cards)).
    { rewrite totalUnder_eq by apply flagFirstAce_length.
      rewrite flagFirstAce_count. apply Nat.ltb_lt in Aces.
      rewrite Aces. lia. }
    split; [apply admissible_flagFirstAce|]. split; [exact R|].
    apply total_soft_iff_one_eleven;
      [apply admissible_flagFirstAce|exact R].
  - exists (map (fun _ => false) cards).
    assert (R : totalUnder cards (map (fun _ => false) cards)
                = value (cardTotalOf cards)).
    { rewrite totalUnder_all_false. lia. }
    split; [apply admissible_all_false|]. split; [exact R|].
    apply total_soft_iff_one_eleven; [apply admissible_all_false|exact R].
Qed.

Lemma total_best_when_some_fits :
  (exists flags, admissible cards flags /\ totalUnder cards flags <= 21) ->
  value (cardTotalOf cards) <= 21
  /\ forall flags,
       admissible cards flags ->
       totalUnder cards flags <= 21 ->
       totalUnder cards flags <= value (cardTotalOf cards).
Proof.
  intros [flags0 [A0 Le0]].
  destruct total_cases as [(_ & V & _ & Fits)|(_ & V & NoFit)]; split.
  - lia.
  - intros flags A _.
    destruct (admissible_total cards flags A) as [[_ ?]|[_ [_ ?]]]; lia.
  - destruct (admissible_total cards flags0 A0) as [[_ ?]|[_ [_ ?]]]; lia.
  - intros flags A Le.
    destruct (admissible_total cards flags A) as [[_ ?]|[_ [Aces ?]]];
      [lia|]. specialize (NoFit Aces). lia.
Qed.

Lemma total_minimal_when_all_bust :
  (forall flags, admissible cards flags -> 21 < totalUnder cards flags) ->
  value (cardTotalOf cards) = totalUnder cards (map (fun _ => false) cards)
  /\ forall flags,
       admissible cards flags ->
       value (cardTotalOf cards) <= totalUnder cards flags.
Proof.
  intros Bust. rewrite totalUnder_all_false.
  pose proof (Bust _ (admissible_all_false cards)) as B0.
  rewrite totalUnder_all_false in B0.
  destruct total_cases as [(_ & _ & _ & Fits)|(_ & V & _)]; [lia|].
  split; [exact V|]. intros flags A.
  destruct (admissible_total cards flags A) as [[_ ?]|[_ [_ ?]]]; lia.
Qed.

End BestTotal.

(** C1.  For every participant, whatever its hand: the value returned by
    [getCardTotal] is the total of an assignment that counts at most one
    Ace as 11, and [hasSoftAce] says whether that assignment (indeed any
    admissible assignment reaching the value) counts exactly one Ace as
    11; if some admissible assignment does not bust, the value does not
    bust and no non-busting admissible assignment totals more; if every
    admissible assignment busts, the value is the total with every Ace
    counted as 1, the least of all; the empty hand gives value 0 and no
    soft Ace. *)
Theorem getCardTotal_best_non_busting_total
  {T : Type} `{Participant T} (p : T) :
  let cards := getCards p in
  let total := getCardTotal p in
  (exists flags,
      admissible cards flags
      /\ totalUnder cards flags = value total
      /\ (hasSoftAce total = true <-> acesAsEleven cards flags = 1%nat))
  /\ (forall flags,
         admissible cards flags ->
         totalUnder cards flags = value total ->
         (hasSoftAce total = true <-> acesAsEleven cards flags = 1%nat))
  /\ ((exists flags, admissible cards flags /\ totalUnder cards flags <= 21) ->
      value total <= 21
      /\ forall flags,
           admissible cards flags ->
           totalUnder cards flags <= 21 ->
           totalUnder cards flags <= value total)
  /\ ((forall flags, admissible cards flags -> 21 < totalUnder cards flags) ->
      value total = totalUnder cards (map (fun _ => false) cards)
      /\ forall flags,
           admissible cards flags -> value total <= totalUnder cards flags)
  /\ (cards = [] -> value total = 0 /\ hasSoftAce total = false).
Proof.
  intros cards total. subst total. unfold getCardTotal. fold cards.
  generalize cards. clear cards. intros cards.
  split; [apply total_achieved|].
  split; [apply total_soft_iff_one_eleven|].
  split; [apply total_best_when_some_fits|].
  split; [apply total_minimal_when_all_bust|].
  intros ->. split; reflexivity.
Qed.

(** ** Blackjack *)

Lemma blackjackOf_value (cards : list Card) :
  blackjackOf cards = true ->
  List.length cards = 2%nat /\ value (cardTotalOf cards) = 21.
Proof.
  unfold blackjackOf. intros E. apply andb_prop in E as [L V].
  apply Nat.eqb_eq in L. apply Z.eqb_eq in V. now split.
Qed.

(** ** The round engine: outcome and payout *)

Import GameEngine.

Section EngineFacts.
Context {W : Type} `{Api.CardSource W} `{Storage.PlayerStorage W}.

Lemma Player_save_keeps_player (p : Player.t) (w : W) :
  snd (fst (Player.save p w)) = p.
Proof.
  unfold Player.save, bind, get, throw, rethrow, call.
  destruct (String.eqb (Player.username p) EmptyString); [reflexivity|].
  destruct (Storage.save _ w) as [[?|?] ?]; reflexivity.
Qed.

(** [applyPayout] in closed form: the save is started on the credited
    player, and its rejection, if any, is left unhandled. *)
Lemma applyPayout_eq (g : t) (w : W) :
  let payout := payoutFor (outcome g) (Player.bet (player g)) in
  let g2 := adjustPlayerBalance payout (setWinnings (Some payout) g) in
  applyPayout g w
  = match Player.save (player g2) w with
    | (Ok _, _, w') => (Ok tt, g2, w')
    | (Throw err, _, w') => (Ok tt, unhandledRejection err g2, w')
    end.
Proof.
  intros payout g2.
  unfold applyPayout, bind, get, modify, unawaited, onPlayer, zoom.
  fold payout. fold g2.
  pose proof (Player_save_keeps_player (player g2) w) as K.
  destruct (Player.save (player g2) w) as [[[[]|err] p'] w'];
    simpl in K; subst p'; subst g2; now destruct g.
Qed.

Lemma evaluateOutcome_eq (g : t) (w : W) :
  let o := decideOutcome (value (getCardTotal (player g)))
             (value (getCardTotal (dealer g)))
             (hasBlackjack (player g)) (hasBlackjack (dealer g)) in
  let payout := payoutFor (Some o) (Player.bet (player g)) in
  let g2 := adjustPlayerBalance payout
              (setWinnings (Some payout) (setOutcome (Some o) g)) in
  evaluateOutcome g w
  = match Player.save (player g2) w with
    | (Ok _, _, w') => (Ok tt, g2, w')
    | (Throw err, _, w') => (Ok tt, unhandledRejection err g2, w')
    end.
Proof.
  intros o payout g2.
  pose proof (applyPayout_eq (setOutcome (Some o) g) w) as E.
  unfold evaluateOutcome, bind, get, modify. fold o.
  exact E.
Qed.

(** What [evaluateOutcome] leaves: it always returns normally, with the
    outcome decided, the payout recorded and credited, and everything
    else in place. *)
Lemma evaluateOutcome_fields (g : t) (w : W) :
  let o := decideOutcome (value (getCardTotal (player g)))
             (value (getCardTotal (dealer g)))
             (hasBlackjack (player g)) (hasBlackjack (dealer g)) in
  let payout := payoutFor (Some o) (Player.bet (player g)) in
  exists (g' : t) (w' : W),
    evaluateOutcome g w = (Ok tt, g', w')
    /\ outcome g' = Some o
    /\ winnings g' = Some payout
    /\ player g' = Player.adjustBalance payout (player g)
    /\ dealer g' = dealer g
    /\ deckManager g' = deckManager g.
Proof.
  intros o payout. rewrite evaluateOutcome_eq. fold o. fold payout.
  destruct (Player.save _ w) as [[[[]|err] p'] w'];
    eexists _, w'; (split; [reflexivity|]); repeat split.
Qed.

End EngineFacts.

(** The precedence of [decideOutcome], one line per rule. *)
Lemma decideOutcome_table (pT dT : Z) (pBJ dBJ : bool) :
  let o := decideOutcome pT dT pBJ dBJ in
  (pBJ = true -> dBJ = false -> o = PlayerWonWithBlackjack)
  /\ (dBJ = true -> pBJ = false -> o = DealerWonWithBlackjack)
  /\ (pBJ = dBJ -> 21 < pT -> o = DealerWon)
  /\ (pBJ = dBJ -> pT <= 21 -> 21 < dT -> o = PlayerWon)
  /\ (pBJ = dBJ -> pT <= 21 -> dT <= 21 -> dT < pT -> o = PlayerWon)
  /\ (pBJ = dBJ -> pT <= 21 -> dT <= 21 -> pT < dT -> o = DealerWon)
  /\ (pBJ = dBJ -> pT <= 21 -> dT <= 21 -> pT = dT -> o = Push).
Proof.
  unfold decideOutcome.
  destruct pBJ, dBJ; cbv [andb negb]; repeat split; intros;
    try discriminate; try reflexivity;
    repeat match goal with
      | |- context [?a >? ?b] =>
          let E := fresh "E" in
          destruct (Z.gtb_spec a b) as [E|E]
      end; try reflexivity; lia.
Qed.

(** C2.  For every engine state and every state of the collaborators,
    [evaluateOutcome] returns normally and records the outcome chosen by
    the first matching rule: player blackjack against no dealer blackjack
    is a player blackjack win; dealer blackjack against no player
    blackjack is a dealer blackjack win; when both have blackjack both
    totals are 21 and the outcome is a push; with neither of the first
    two rules matching, a player total over 21 loses whatever the dealer
    holds (a dealer bust included), then a dealer total over 21 loses,
    then the higher total wins, and equal totals push. *)
Theorem evaluateOutcome_precedence
  {W : Type} `{Api.CardSource W} `{Storage.PlayerStorage W}
  (g : GameEngine.t) (w : W) :
  let pT := value (getCardTotal (player g)) in
  let dT := value (getCardTotal (dealer g)) in
  let pBJ := hasBlackjack (player g) in
  let dBJ := hasBlackjack (dealer g) in
  exists (o : Outcome) (g' : GameEngine.t) (w' : W),
    evaluateOutcome g w = (Ok tt, g', w')
    /\ outcome g' = Some o
    /\ (pBJ = true -> dBJ = false -> o = PlayerWonWithBlackjack)
    /\ (dBJ = true -> pBJ = false -> o = DealerWonWithBlackjack)
    /\ (pBJ = true -> dBJ = true -> pT = 21 /\ dT = 21 /\ o = Push)
    /\ (pBJ = dBJ -> 21 < pT -> o = DealerWon)
    /\ (pBJ = dBJ -> 21 < pT -> 21 < dT -> o = DealerWon)
    /\ (pBJ = dBJ -> pT <= 21 -> 21 < dT -> o = PlayerWon)
    /\ (pBJ = dBJ -> pT <= 21 -> dT <= 21 -> dT < pT -> o = PlayerWon)
    /\ (pBJ = dBJ -> pT <= 21 -> dT <= 21 -> pT < dT -> o = DealerWon)
    /\ (pBJ = dBJ -> pT <= 21 -> dT <= 21 -> pT = dT -> o = Push).
Proof.
  intros pT dT pBJ dBJ.
  destruct (evaluateOutcome_fields g w) as (g' & w' & E & O & _).
  destruct (decideOutcome_table pT dT pBJ dBJ)
    as (R1 & R2 & R3 & R4 & R5 & R6 & R7).
  eexists _, g', w'. split; [exact E|].
  split; [exact O|].
  fold pT dT pBJ dBJ.
  split; [exact R1|]. split; [exact R2|].
  split.
  { intros PB DB.
    pose proof (blackjackOf_value (getCards (player g)) PB) as [_ P].
    pose proof (blackjackOf_value (getCards (dealer g)) DB) as [_ D].
    fold (getCardTotal (player g)) in P. fold (getCardTotal (dealer g)) in D.
    fold pT in P. fold dT in D.
    repeat split; try assumption.
    apply R7; try congruence; lia. }
  split; [exact R3|].
  split; [intros Same Bust _; exact (R3 Same Bust)|].
  repeat split; assumption.
Qed.

(** ** Payout *)

Section PayoutValues.
Local Open Scope Q_scope.

Lemma representable_eq (p q : Q) :
  p == q -> representable p -> representable q.
Proof. intros E (z & Z). exists z. now apply denotes_eq with p. Qed.

(** The payout has the value the table gives whenever the values on the
    way to it are doubles. *)
Lemma payoutFor_denotes (o : Outcome) (bet : number) (q : Q) :
  denotes bet q ->
  (o = PlayerWonWithBlackjack -> representable (q * (3 # 2))) ->
  representable (q * specPayoutFactor o) ->
  denotes (payoutFor (Some o) bet) (q * specPayoutFactor o).
Proof.
  intros B Half R. destruct o; cbn [payoutFor specPayoutFactor] in *.
  - apply denotes_eq with (q + q); [ring|].
    apply SFadd_denotes; try assumption.
    apply representable_eq with (q * 2); [ring|assumption].
  - apply denotes_eq with 0; [ring|]. exact zero_denotes.
  - apply denotes_eq with q; [ring|]. exact B.
  - apply denotes_eq with (q + q * (3 # 2)); [ring|].
    apply SFadd_denotes; try assumption.
    + apply SFmul_denotes; try assumption; [exact onePointFive_denotes|].
      now apply Half.
    + apply representable_eq with (q * (5 # 2)); [ring|assumption].
  - apply denotes_eq with 0; [ring|]. exact zero_denotes.
Qed.

(** Every whole stake up to 2^50 is paid exactly. *)
Lemma payoutFor_whole (o : Outcome) (n : Z) :
  (Z.abs n <= 2 ^ 50)%Z ->
  denotes (payoutFor (Some o) (ofZ n)) (inject_Z n * specPayoutFactor o).
Proof.
  intros N. apply payoutFor_denotes.
  - apply ofZ_denotes. lia.
  - intros _. apply halves_representable with (3 * n)%Z; [lia|].
    rewrite inject_Z_mult. change (inject_Z 3) with (3 # 1).
    setoid_replace (3 # 2) with ((3 # 1) * (1 # 2)) by reflexivity. ring.
  - destruct o; cbn [specPayoutFactor].
    + apply representable_eq with (inject_Z (n * 2));
        [|apply whole_representable; lia].
      rewrite inject_Z_mult. reflexivity.
    + apply representable_eq with (inject_Z 0);
        [|apply whole_representable; lia].
      change (inject_Z 0) with 0. ring.
    + apply representable_eq with (inject_Z n);
        [ring|apply whole_representable; lia].
    + apply halves_representable with (5 * n)%Z; [lia|].
      rewrite inject_Z_mult. change (inject_Z 5) with (5 # 1).
      setoid_replace (5 # 2) with ((5 # 1) * (1 # 2)) by reflexivity. ring.
    + apply representable_eq with (inject_Z 0);
        [|apply whole_representable; lia].
      change (inject_Z 0) with 0. ring.
Qed.

End PayoutValues.

(** C3 (amended).  For every engine state whose recorded outcome is [o],
    with the active stake [bet]: [applyPayout] returns normally, records
    as winnings the payout it computes in double precision, [bet + bet *
    1.5] for a player blackjack, [bet + bet] for a player win, [bet] for
    a push and 0 for either dealer win, and adds that payout to the
    player's balance (a double addition), leaving the stake, the hands,
    the outcome and the shoe as they were.  The payout is exactly [bet]
    times 2.5, 2, 1 and 0 whenever that product (and, for a blackjack,
    [bet] times 1.5) is itself a double, as it is for every whole stake
    up to 2^50; the balance after is exactly the balance before plus the
    payout whenever that sum is a double; with a stake of 100 the
    payouts are 250, 200, 100 and 0. *)
Theorem applyPayout_pays_by_outcome
  {W : Type} `{Api.CardSource W} `{Storage.PlayerStorage W}
  (g : GameEngine.t) (w : W) (o : Outcome) :
  outcome g = Some o ->
  let bet := Player.bet (player g) in
  exists (payout : number) (g' : GameEngine.t) (w' : W),
    applyPayout g w = (Ok tt, g', w')
    /\ winnings g' = Some payout
    /\ payout = match o with
                | PlayerWonWithBlackjack => add bet (mul bet onePointFive)
                | PlayerWon => add bet bet
                | Push => bet
                | DealerWon | DealerWonWithBlackjack => ofZ 0
                end
    /\ Player.balance (player g') = add (Player.balance (player g)) payout
    /\ (forall q : Q,
          denotes bet q ->
          (o = PlayerWonWithBlackjack -> representable (q * (3 # 2))%Q) ->
          representable (q * specPayoutFactor o)%Q ->
          denotes payout (q * specPayoutFactor o)%Q)
    /\ (forall n : Z,
          Z.abs n <= 2 ^ 50 -> bet = ofZ n ->
          denotes payout (inject_Z n * specPayoutFactor o)%Q)
    /\ (forall p q : Q,
          denotes (Player.balance (player g)) p -> denotes payout q ->
          representable (p + q)%Q ->
          denotes (Player.balance (player g')) (p + q)%Q)
    /\ Player.bet (player g') = bet
    /\ getCards (player g') = getCards (player g)
    /\ dealer g' = dealer g
    /\ outcome g' = Some o
    /\ deckManager g' = deckManager g
    /\ (bet = ofZ 100 ->
        payout = match o with
                 | PlayerWonWithBlackjack => ofZ 250
                 | PlayerWon => ofZ 200
                 | Push => ofZ 100
                 | DealerWon | DealerWonWithBlackjack => ofZ 0
                 end).
Proof.
  intros O bet. pose proof (applyPayout_eq g w) as E. rewrite O in E.
  cbv zeta in E. fold bet in E.
  set (payout := payoutFor (Some o) bet) in *.
  set (g2 := adjustPlayerBalance payout (setWinnings (Some payout) g)) in *.
  assert (Frame :
    forall g' : GameEngine.t,
      g' = g2 \/ (exists err, g' = unhandledRejection err g2) ->
      winnings g' = Some payout
      /\ Player.balance (player g') = add (Player.balance (player g)) payout
      /\ Player.bet (player g') = bet
      /\ getCards (player g') = getCards (player g)
      /\ dealer g' = dealer g
      /\ outcome g' = Some o
      /\ deckManager g' = deckManager g).
  { intros g' [->|[err ->]]; repeat split; assumption. }
  assert (exists (g' : GameEngine.t) (w' : W),
             applyPayout g w = (Ok tt, g', w')
             /\ (g' = g2 \/ exists err, g' = unhandledRejection err g2))
    as (g' & w' & Run & Which).
  { rewrite E. destruct (Player.save (player g2) w) as [[[[]|err] p'] w'];
      eexists _, w'; (split; [reflexivity|]);
      [now left|right; now exists err]. }
  destruct (Frame g' Which) as (Wn & Bal & Bet & Cards & Dl & Out & Dm).
  exists payout, g', w'.
  split; [exact Run|]. split; [exact Wn|].
  split; [unfold payout; now destruct o|].
  split; [exact Bal|].
  split; [intros q; apply payoutFor_denotes|].
  split; [intros n N ->; now apply payoutFor_whole|].
  split.
  { intros p q P Q R. rewrite Bal. now apply SFadd_denotes. }
  repeat (split; [assumption|]).
  unfold payout. intros ->. now destruct o.
Qed.

(** The claim as it was worded fails on a fractional stake: for the
    double 0.7 the blackjack payout [0.7 + 0.7 * 1.5] is
    1.7499999999999998, which is neither the value of 0.7 times 2.5 nor
    the double product [0.7 * 2.5] = 1.75. *)
Lemma blackjack_payout_of_a_fractional_stake :
  let bet := div (ofZ 7) (ofZ 10) in
  let g := GameEngine.mk None Dealer.new
             (Player.mk [] "testUser" (ofZ 100) bet)
             (Some PlayerWonWithBlackjack) None [] in
  exists payout : number,
    winnings (snd (fst (applyPayout g Scripted.quiet))) = Some payout
    /\ valid bet = true /\ isFinite bet = true
    /\ valid payout = true /\ isFinite payout = true
    /\ ~ (toQ payout == toQ bet * specPayoutFactor PlayerWonWithBlackjack)%Q
    /\ payout <> mul bet (div (ofZ 5) (ofZ 2))
    /\ mul bet (div (ofZ 5) (ofZ 2)) = div (ofZ 7) (ofZ 4)
    /\ payout = S754_finite false 7881299347898367 (-52).
Proof.
  eexists. split; [vm_compute; reflexivity|].
  split; [reflexivity|]. split; [reflexivity|].
  split; [reflexivity|]. split; [reflexivity|].
  split; [vm_compute; discriminate|].
  split; [vm_compute; discriminate|].
  split; vm_compute; reflexivity.
Qed.

(** The same on the path the application takes: [evaluateOutcome]
    decides the outcome and then pays by it. *)
Lemma evaluateOutcome_pays
  {W : Type} `{Api.CardSource W} `{Storage.PlayerStorage W}
  (g : GameEngine.t) (w : W) :
  exists (o : Outcome) (payout : number) (g' : GameEngine.t) (w' : W),
    evaluateOutcome g w = (Ok tt, g', w')
    /\ outcome g' = Some o
    /\ winnings g' = Some payout
    /\ payout = payoutFor (Some o) (Player.bet (player g))
    /\ Player.balance (player g') = add (Player.balance (player g)) payout.
Proof.
  destruct (evaluateOutcome_fields g w) as (g' & w' & E & O & Wn & P & _).
  eexists _, _, g', w'. split; [exact E|].
  split; [exact O|]. split; [exact Wn|].
  split; [reflexivity|]. now rewrite P.
Qed.
(** ** The dealer's rule *)

(** C4.  For every dealer hand, [shouldHit] is true exactly when the
    total value is below 17, or is 17 with a soft Ace; so it is false on
    a hard 17 and on every value above 17. *)
Theorem shouldHit_below_17_or_soft_17 (d : Dealer.t) :
  let total := getCardTotal d in
  (Dealer.shouldHit d = true
   <-> value total < 17 \/ (value total = 17 /\ hasSoftAce total = true))
  /\ (value total = 17 -> hasSoftAce total = false ->
      Dealer.shouldHit d = false)
  /\ (17 < value total -> Dealer.shouldHit d = false).
Proof.
  intros total. unfold Dealer.shouldHit. fold total.
  destruct total as [v soft]. cbn [value hasSoftAce].
  destruct (Z.ltb_spec v 17) as [Lt|Ge];
    destruct (Z.eqb_spec v 17) as [Eq|Ne]; destruct soft; cbn [orb andb];
    repeat split; intros; try reflexivity; try discriminate; try lia;
    try (left; lia); try (right; split; [lia|reflexivity]);
    repeat match goal with
      | X : _ \/ _ |- _ => destruct X
      | X : _ /\ _ |- _ => destruct X
      end; try lia; try discriminate.
Qed.

(** The four hands of the tests of [Dealer]. *)
Example shouldHit_tests :
  Dealer.shouldHit (Dealer.mk [mkCard "6C" CLUBS R6; mkCard "9D" DIAMONDS R9])
    = true
  /\ Dealer.shouldHit
       (Dealer.mk [mkCard "AH" HEARTS RA; mkCard "6S" SPADES R6]) = true
  /\ Dealer.shouldHit
       (Dealer.mk [mkCard "0H" HEARTS R10; mkCard "7D" DIAMONDS R7]) = false
  /\ Dealer.shouldHit
       (Dealer.mk [mkCard "0H" HEARTS R10; mkCard "8C" CLUBS R8]) = false.
Proof. repeat split. Qed.

(** ** Betting *)

Section Betting.
Context {W : Type} `{Api.CardSource W} `{Storage.PlayerStorage W}.

Lemma placeBet_eq (amount : number) (g : GameEngine.t) (w : W) :
  placeBet amount g w
  = if gtb amount (Player.balance (player g))
    then (Throw (mkError "Cannot bet more than player's balance"), g, w)
    else (Ok tt,
          setPlayer
            (Player.mk (Player.cards (player g)) (Player.username (player g))
               (add (Player.balance (player g)) (opp amount)) amount) g,
          w).
Proof.
  unfold placeBet, bind, get, throw, modify, Player.getBalance.
  destruct (gtb amount (Player.balance (player g))); reflexivity.
Qed.

End Betting.

(** [a > b] on numbers that have a value is the comparison of the
    values. *)
Lemma gtb_denotes (a b : number) (p q : Q) :
  denotes a p -> denotes b q -> (gtb a b = true <-> (q < p)%Q).
Proof. intros A B. unfold gtb, ltb. now apply SFltb_denotes. Qed.

Lemma gtb_false_denotes (a b : number) (p q : Q) :
  denotes a p -> denotes b q -> (gtb a b = false <-> (p <= q)%Q).
Proof.
  intros A B. rewrite <- not_true_iff_false, (gtb_denotes a b p q A B).
  split; [apply Qnot_lt_le|apply Qle_not_lt].
Qed.

(** NaN is greater than nothing. *)
Lemma gtb_nan (b : number) : gtb S754_nan b = false.
Proof. destruct b; reflexivity. Qed.

(** C7 (amended).  For every engine state, every state of the
    collaborators and every amount: when the amount exceeds the player's
    balance ([amount > balance], which on finite numbers is the
    comparison of their values and which NaN never satisfies), [placeBet]
    throws and the engine (balance and recorded stake included) and the
    collaborators are exactly as before; when it does not, [placeBet]
    returns normally, the recorded stake is the amount, the balance is
    the old balance less the amount as double precision computes it, and
    nothing else changes.  That balance is exactly the old balance less
    the amount whenever the difference is itself a double, as it is for
    whole amounts. *)
Theorem placeBet_rejects_atomically_or_debits
  {W : Type} `{Api.CardSource W} `{Storage.PlayerStorage W}
  (amount : number) (g : GameEngine.t) (w : W) :
  let balance := Player.balance (player g) in
  (gtb amount balance = true ->
   placeBet amount g w
   = (Throw (mkError "Cannot bet more than player's balance"), g, w))
  /\ (gtb amount balance = false ->
      exists g' : GameEngine.t,
        placeBet amount g w = (Ok tt, g', w)
        /\ Player.bet (player g') = amount
        /\ Player.balance (player g') = add balance (opp amount)
        /\ (forall p q : Q,
              denotes balance p -> denotes amount q ->
              representable (p - q)%Q ->
              denotes (Player.balance (player g')) (p - q)%Q)
        /\ (forall b a : Z,
              Z.abs b < 2 ^ 53 -> Z.abs a < 2 ^ 53 ->
              Z.abs (b - a) < 2 ^ 53 ->
              balance = ofZ b -> amount = ofZ a ->
              denotes (Player.balance (player g')) (inject_Z (b - a)))
        /\ getCards (player g') = getCards (player g)
        /\ Player.username (player g') = Player.username (player g)
        /\ dealer g' = dealer g
        /\ deckManager g' = deckManager g
        /\ outcome g' = outcome g
        /\ winnings g' = winnings g)
  /\ (forall p q : Q,
        denotes balance p -> denotes amount q ->
        (gtb amount balance = true <-> (p < q)%Q))
  /\ (amount = S754_nan -> gtb amount balance = false).
Proof.
  intros balance. rewrite placeBet_eq. fold balance.
  split; [intros ->; reflexivity|].
  split.
  - intros ->. eexists. split; [reflexivity|].
    cbn [player setPlayer Player.balance Player.bet].
    split; [reflexivity|]. split; [reflexivity|].
    split; [intros p q P Q R; now apply denotes_sub|].
    split; [|repeat split].
    intros b a B A D Eb Ea. rewrite Eb, Ea.
    apply denotes_eq with (inject_Z b - inject_Z a)%Q.
    + now rewrite inject_Z_sub.
    + apply denotes_sub; try (apply ofZ_denotes; assumption).
      apply representable_eq with (inject_Z (b - a)).
      * now rewrite inject_Z_sub.
      * now apply whole_representable.
  - split.
    + intros p q P Q. now apply gtb_denotes.
    + intros ->. apply gtb_nan.
Qed.

(** The claim as it was worded fails on a stake too small to register:
    2^-70 on a balance of 100 is accepted and recorded, and the balance
    stays 100. *)
Lemma placeBet_small_stake_is_not_debited :
  let amount := binary_normalize prec emax 1 (-70) false in
  let g := Scripted.engine [] [] 100 0 in
  exists g' : GameEngine.t,
    placeBet amount g Scripted.quiet = (Ok tt, g', Scripted.quiet)
    /\ denotes amount (1 # 2 ^ 70)
    /\ Player.bet (player g') = amount
    /\ Player.balance (player g') = ofZ 100
    /\ ~ (toQ (Player.balance (player g'))
          == toQ (Player.balance (player g)) - toQ amount)%Q.
Proof.
  eexists. split; [vm_compute; reflexivity|].
  split; [split; [reflexivity|split; [reflexivity|vm_compute; reflexivity]]|].
  split; [reflexivity|]. split; [vm_compute; reflexivity|].
  vm_compute. discriminate.
Qed.

(** C10 (amended).  [placeBet] has no lower bound: every amount that is
    not greater than the balance, zero, negative amounts and NaN
    included, is accepted and recorded as the stake, and the balance
    becomes the old balance less the amount as double precision computes
    it.  Whenever that difference is itself a double (as for whole
    amounts), a zero amount leaves the balance where it was and a
    negative amount leaves it strictly higher, the recorded stake being
    negative. *)
Theorem placeBet_has_no_lower_bound
  {W : Type} `{Api.CardSource W} `{Storage.PlayerStorage W}
  (amount : number) (g : GameEngine.t) (w : W) :
  let balance := Player.balance (player g) in
  gtb amount balance = false ->
  exists g' : GameEngine.t,
    placeBet amount g w = (Ok tt, g', w)
    /\ Player.bet (player g') = amount
    /\ Player.balance (player g') = add balance (opp amount)
    /\ (forall p q : Q,
          denotes balance p -> denotes amount q ->
          representable (p - q)%Q ->
          denotes (Player.balance (player g')) (p - q)%Q
          /\ ((q == 0)%Q -> eqb (Player.balance (player g')) balance = true)
          /\ ((q < 0)%Q ->
              ltb balance (Player.balance (player g')) = true
              /\ ltb (Player.bet (player g')) (ofZ 0) = true)).
Proof.
  intros balance Le. rewrite placeBet_eq. fold balance. rewrite Le.
  eexists. split; [reflexivity|].
  cbn [player setPlayer Player.balance Player.bet].
  split; [reflexivity|]. split; [reflexivity|].
  intros p q P Q R.
  pose proof (denotes_sub balance amount p q P Q R) as D.
  split; [exact D|]. split.
  - intros Z0. apply (SFeqb_denotes _ _ _ _ D P). rewrite Z0. ring.
  - intros Neg. split.
    + apply (SFltb_denotes _ _ _ _ P D).
      rewrite <- (Qplus_0_r p) at 1. unfold Qminus.
      apply Qplus_lt_r.
      apply (Qplus_lt_l _ _ q). ring_simplify. exact Neg.
    + apply (SFltb_denotes _ _ _ _ Q zero_denotes). exact Neg.
Qed.

(** The claim as it was worded fails on a negative amount too small to
    register: -2^-70 on a balance of 100 is accepted and recorded as a
    negative stake, and the balance is not higher but still 100. *)
Lemma placeBet_small_negative_amount_is_not_credited :
  let amount := binary_normalize prec emax (-1) (-70) false in
  let g := Scripted.engine [] [] 100 0 in
  exists g' : GameEngine.t,
    placeBet amount g Scripted.quiet = (Ok tt, g', Scripted.quiet)
    /\ denotes amount (- (1 # 2 ^ 70))
    /\ Player.bet (player g') = amount
    /\ ltb (Player.bet (player g')) (ofZ 0) = true
    /\ Player.balance (player g') = Player.balance (player g)
    /\ ltb (Player.balance (player g)) (Player.balance (player g')) = false.
Proof.
  eexists. split; [vm_compute; reflexivity|].
  split; [split; [reflexivity|split; [reflexivity|vm_compute; reflexivity]]|].
  split; [reflexivity|]. split; [reflexivity|].
  split; vm_compute; reflexivity.
Qed.
(** ** Doubles *)


(** ** The shoe *)

Section ShoeFacts.
Context {W : Type} `{Api.CardSource W}.

Lemma DeckManager_drawCard_eq (dm : DeckManager.t) (w : W) :
  DeckManager.drawCard dm w
  = match Api.drawCard (DeckManager.deckId dm) 1 w with
    | (Ok result, w') =>
        match Api.cards result with
        | [card] =>
            (Ok card, DeckManager.setRemaining (Api.remaining result) dm, w')
        | cards =>
            (Throw
               (mkErrorCause "Failed to draw card"
                  (mkError
                     ("Wrong number of cards drawn.  Expected 1, Received: "
                        ++ DeckManager.decimal (List.length cards)))),
             dm, w')
        end
    | (Throw err, w') =>
        (Throw (mkErrorCause "Failed to draw card" err), dm, w')
    end.
Proof.
  unfold DeckManager.drawCard, rethrow, bind, get, call, modify, ret, throw.
  destruct (Api.drawCard (DeckManager.deckId dm) 1 w) as [[result|err] w'];
    [|reflexivity].
  destruct (Api.cards result) as [|card [|card' rest]]; reflexivity.
Qed.

Lemma DeckManager_drawCards_eq (count : Z) (dm : DeckManager.t) (w : W) :
  DeckManager.drawCards count dm w
  = match Api.drawCard (DeckManager.deckId dm) count w with
    | (Ok result, w') =>
        (Ok (Api.cards result),
         DeckManager.setRemaining (Api.remaining result) dm, w')
    | (Throw err, w') =>
        (Throw (mkErrorCause "Failed to draw cards from deck" err), dm, w')
    end.
Proof.
  unfold DeckManager.drawCards, rethrow, bind, get, call, modify, ret.
  destruct (Api.drawCard (DeckManager.deckId dm) count w)
    as [[result|err] w']; reflexivity.
Qed.

Lemma DeckManager_reshuffle_eq (dm : DeckManager.t) (w : W) :
  DeckManager.reshuffle dm w
  = match Api.reshuffleDeck (DeckManager.deckId dm) w with
    | (Ok result, w') =>
        (Ok tt,
         DeckManager.setRemaining (Api.reshuffledRemaining result) dm, w')
    | (Throw err, w') =>
        (Throw (mkErrorCause "Failed to reshuffle deck" err), dm, w')
    end.
Proof.
  unfold DeckManager.reshuffle, rethrow, bind, get, call, modify.
  destruct (Api.reshuffleDeck (DeckManager.deckId dm) w)
    as [[result|err] w']; reflexivity.
Qed.

(** No method writes [cutCardPosition] or [deckId]. *)
Lemma runDeckOp_frame (op : DeckOp) (dm : DeckManager.t) (w : W) :
  DeckManager.cutCardPosition (fst (runDeckOp op dm w))
    = DeckManager.cutCardPosition dm
  /\ DeckManager.deckId (fst (runDeckOp op dm w)) = DeckManager.deckId dm.
Proof.
  destruct op as [|count|]; unfold runDeckOp.
  - rewrite DeckManager_drawCard_eq.
    destruct (Api.drawCard (DeckManager.deckId dm) 1 w)
      as [[result|err] w']; [|now split].
    destruct (Api.cards result) as [|card [|card' rest]]; now split.
  - rewrite DeckManager_drawCards_eq.
    destruct (Api.drawCard (DeckManager.deckId dm) count w)
      as [[result|err] w']; now split.
  - rewrite DeckManager_reshuffle_eq.
    destruct (Api.reshuffleDeck (DeckManager.deckId dm) w)
      as [[result|err] w']; now split.
Qed.

Lemma runDeckOps_frame (ops : list DeckOp) :
  forall (dm : DeckManager.t) (w : W),
    DeckManager.cutCardPosition (fst (runDeckOps ops dm w))
      = DeckManager.cutCardPosition dm
    /\ DeckManager.deckId (fst (runDeckOps ops dm w)) = DeckManager.deckId dm.
Proof.
  induction ops as [|op ops IH]; intros dm w; [now split|].
  cbn [runDeckOps].
  pose proof (runDeckOp_frame op dm w) as [C I].
  destruct (runDeckOp op dm w) as [dm' w']. cbn [fst] in C, I.
  destruct (IH dm' w') as [C' I']. split; congruence.
Qed.

End ShoeFacts.

(** C8.  Whatever the shoe and the card source: when the source answers
    the single-card request with a number of cards other than one (none,
    or more than one), [drawCard] throws "Failed to draw card" caused by
    "Wrong number of cards drawn" and does not write [remaining]; when it
    answers with exactly one card, [drawCard] returns that card and
    [remaining] is then the reported value.  [drawCards], for any
    requested count, checks nothing: it returns the cards the source
    delivered, however many, and [remaining] is then the reported value.
    Neither draw touches [cutCardPosition] or [deckId]. *)
Theorem drawCard_checks_count_drawCards_does_not
  {W : Type} `{Api.CardSource W}
  (dm : DeckManager.t) (w w' : W) (count : Z)
  (cards : list Card) (remaining : number) :
  (Api.drawCard (DeckManager.deckId dm) 1 w
     = (Ok (Api.mkDrawCardResult cards remaining), w') ->
   (List.length cards <> 1%nat ->
    DeckManager.drawCard dm w
    = (Throw
         (mkErrorCause "Failed to draw card"
            (mkError
               ("Wrong number of cards drawn.  Expected 1, Received: "
                  ++ DeckManager.decimal (List.length cards)))),
       dm, w'))
   /\ (forall card : Card,
         cards = [card] ->
         exists dm' : DeckManager.t,
           DeckManager.drawCard dm w = (Ok card, dm', w')
           /\ dm' = DeckManager.setRemaining remaining dm
           /\ DeckManager.remaining dm' = remaining
           /\ DeckManager.cutCardPosition dm'
              = DeckManager.cutCardPosition dm
           /\ DeckManager.deckId dm' = DeckManager.deckId dm))
  /\ (Api.drawCard (DeckManager.deckId dm) count w
        = (Ok (Api.mkDrawCardResult cards remaining), w') ->
      exists dm' : DeckManager.t,
        DeckManager.drawCards count dm w = (Ok cards, dm', w')
        /\ dm' = DeckManager.setRemaining remaining dm
        /\ DeckManager.remaining dm' = remaining
        /\ DeckManager.cutCardPosition dm' = DeckManager.cutCardPosition dm
        /\ DeckManager.deckId dm' = DeckManager.deckId dm).
Proof.
  split.
  - intros E. rewrite DeckManager_drawCard_eq, E. cbn [Api.cards Api.remaining].
    split.
    + intros L. destruct cards as [|card [|card' rest]];
        [reflexivity | now elim L | reflexivity].
    + intros card ->. eexists. split; [reflexivity|]. repeat split.
  - intros E. rewrite DeckManager_drawCards_eq, E.
    eexists. split; [reflexivity|]. repeat split.
Qed.

(** C9.  For every shoe and every state of the card source in which the
    reshuffle request succeeds: [reshuffle] returns normally, sets
    [remaining] to the reported value and leaves [cutCardPosition] and
    [deckId] as they were; and after any history of draws and
    reshuffles, successful or not, [cutCardPosition] and [deckId] are
    still those of the shoe the history started from. *)
Theorem reshuffle_updates_remaining_only
  {W : Type} `{Api.CardSource W}
  (dm : DeckManager.t) (w w' : W) (result : Api.ReshuffleDeckResult) :
  Api.reshuffleDeck (DeckManager.deckId dm) w = (Ok result, w') ->
  (exists dm' : DeckManager.t,
      DeckManager.reshuffle dm w = (Ok tt, dm', w')
      /\ DeckManager.remaining dm' = Api.reshuffledRemaining result
      /\ DeckManager.cutCardPosition dm' = DeckManager.cutCardPosition dm
      /\ DeckManager.deckId dm' = DeckManager.deckId dm)
  /\ (forall (ops : list DeckOp) (w0 : W),
        DeckManager.cutCardPosition (fst (runDeckOps ops dm w0))
          = DeckManager.cutCardPosition dm
        /\ DeckManager.deckId (fst (runDeckOps ops dm w0))
          = DeckManager.deckId dm).
Proof.
  intros E. split.
  - rewrite DeckManager_reshuffle_eq, E. eexists. repeat split.
  - intros ops w0. apply runDeckOps_frame.
Qed.

(** ** The cut card *)




(** [exactCutCard] is the claim's formula in exact arithmetic: the
    floor of [n * (1 - 0.775) + 1/2]. *)
Lemma exactCutCard_is_round (n : Z) :
  exactCutCard n = Qfloor (inject_Z n * (1 - (775 # 1000)) + (1 # 2)).
Proof.
  change (1 - (775 # 1000))%Q with (225 # 1000)%Q.
  unfold exactCutCard, Qfloor, Qplus, Qmult, inject_Z. cbn [Qnum Qden].
  change (Zpos (1 * 1000 * 2)) with (40 * 50).
  replace (n * 225 * 2 + 1 * Zpos (1 * 1000)) with ((9 * n + 20) * 50)
    by (change (Zpos (1 * 1000)) with 1000; lia).
  now rewrite Z.div_mul_cancel_r.
Qed.




(** ** Double precision against exact arithmetic *)

(** The double-precision evaluation is part of the behaviour: the
    quotient 775/1000 is the double [0.775], whose complement to one is
    just below 0.225, so a product that is a half-integer in exact
    arithmetic falls below the half.  A five-deck shoe of 260 cards gets
    its cut card at 58, where [Math.round] of the exact 58.5 is 59; the
    shoes of one to eight decks other than five get the exactly rounded
    position. *)
Remark cutCardPosition_in_double_precision (deckId : string) :
  DeckManager.CUT_CARD_PERCENTAGE
    = S754_finite false 6980579422424269 (-53)
  /\ DeckManager.cutCardPosition (DeckManager.new deckId (ofZ 260)) = ofZ 58
  /\ exactCutCard 260 = 59
  /\ forall decks : Z,
       In decks [1; 2; 3; 4; 6; 7; 8] ->
       DeckManager.cutCardPosition (DeckManager.new deckId (ofZ (52 * decks)))
       = ofZ (exactCutCard (52 * decks)).
Proof.
  split; [vm_compute; reflexivity|].
  split; [vm_compute; reflexivity|].
  split; [vm_compute; reflexivity|].
  intros decks In.
  repeat (destruct In as [<-|In]; [vm_compute; reflexivity|]).
  destruct In.
Qed.

(** ** Appending a card, and the dealer's loop *)

Lemma hardTotal_snoc (h : list Card) (c : Card) :
  hardTotal h + 1 <= hardTotal (h ++ [c]) <= hardTotal h + 10.
Proof.
  rewrite hardTotal_app. pose proof (hardTotal_single c). lia.
Qed.

Lemma value_snoc_hard (h : list Card) (c : Card) :
  hasSoftAce (cardTotalOf h) = false ->
  value (cardTotalOf h) < value (cardTotalOf (h ++ [c])).
Proof.
  intros Hard. rewrite (cardTotalOf_value_hard h Hard).
  pose proof (hardTotal_snoc h c). pose proof (hardTotal_le_value (h ++ [c])).
  lia.
Qed.

Lemma value_snoc_any (h : list Card) (c : Card) :
  value (cardTotalOf h) - 9 <= value (cardTotalOf (h ++ [c])).
Proof.
  pose proof (value_le_hardTotal_plus_10 h).
  pose proof (hardTotal_snoc h c). pose proof (hardTotal_le_value (h ++ [c])).
  lia.
Qed.

Lemma countAces_app (xs ys : list Card) :
  countAces (xs ++ ys) = (countAces xs + countAces ys)%nat.
Proof.
  induction xs as [|x xs IH]; simpl; [reflexivity|].
  destruct (isAce (rank x)); simpl; now rewrite IH.
Qed.

(** What appending a card does to the value: a soft Ace that the card
    would take over 21 drops to 1, and the value becomes the old value
    less ten plus what the card is worth; in every other case the value
    rises. *)
Lemma value_snoc_cases (h : list Card) (c : Card) :
  let worth := hardTotal [c] in
  (hasSoftAce (cardTotalOf h) = true ->
   21 < value (cardTotalOf h) + worth ->
   cardTotalOf (h ++ [c])
   = mkCardTotal (value (cardTotalOf h) - 10 + worth) false)
  /\ (~ (hasSoftAce (cardTotalOf h) = true
         /\ 21 < value (cardTotalOf h) + worth) ->
      value (cardTotalOf h) < value (cardTotalOf (h ++ [c]))).
Proof.
  intros worth. pose proof (hardTotal_single c) as B. fold worth in B.
  rewrite (cardTotalOf_closed (h ++ [c])), (cardTotalOf_closed h).
  rewrite hardTotal_app, countAces_app. fold worth.
  destruct (Nat.ltb_spec 0 (countAces h)) as [A|A];
    destruct (Z.leb_spec (hardTotal h + 10) 21) as [F|F];
    cbn [andb value hasSoftAce].
  - (* a soft hand *)
    replace (0 <? countAces h + countAces [c])%nat with true
      by (symmetry; apply Nat.ltb_lt; lia).
    cbn [andb].
    destruct (Z.leb_spec (hardTotal h + worth + 10) 21) as [F'|F'];
      cbn [value hasSoftAce].
    + split; [intros _ Over; lia|intros _; lia].
    + split; [intros _ _; f_equal; lia|].
      intros N; elim N; split; [reflexivity|lia].
  - split; [discriminate|intros _].
    destruct ((0 <? countAces h + countAces [c])%nat
              && (hardTotal h + worth + 10 <=? 21)); cbn [value]; lia.
  - split; [discriminate|intros _].
    destruct ((0 <? countAces h + countAces [c])%nat
              && (hardTotal h + worth + 10 <=? 21)); cbn [value]; lia.
  - split; [discriminate|intros _].
    destruct ((0 <? countAces h + countAces [c])%nat
              && (hardTotal h + worth + 10 <=? 21)); cbn [value]; lia.
Qed.

(** A dealer who still hits holds a hard total of 16 at most: a soft 17
    is a hard 7. *)
Lemma shouldHit_hardTotal (d : Dealer.t) :
  Dealer.shouldHit d = true -> hardTotal (getCards d) <= 16.
Proof.
  unfold Dealer.shouldHit, getCardTotal.
  pose proof (hardTotal_le_value (getCards d)) as Le.
  pose proof (cardTotalOf_value_soft (getCards d)) as Soft.
  destruct (cardTotalOf (getCards d)) as [v soft].
  cbn [value hasSoftAce] in *. intros E.
  apply orb_prop in E as [E|E].
  - apply Z.ltb_lt in E. lia.
  - apply andb_prop in E as [E S]. apply Z.eqb_eq in E.
    specialize (Soft S). lia.
Qed.

Lemma shouldHit_false_value (d : Dealer.t) :
  Dealer.shouldHit d = false ->
  17 <= value (getCardTotal d)
  /\ (value (getCardTotal d) = 17 -> hasSoftAce (getCardTotal d) = false).
Proof.
  unfold Dealer.shouldHit.
  destruct (getCardTotal d) as [v soft]. cbn [value hasSoftAce]. intros E.
  apply orb_false_elim in E as [Lt E]. apply Z.ltb_ge in Lt.
  split; [exact Lt|]. intros Eq.
  apply Z.eqb_eq in Eq. rewrite Eq in E. exact E.
Qed.

Section DealerLoop.
Context {W : Type} `{Api.CardSource W} `{Storage.PlayerStorage W}.

Lemma GameEngine_drawCard_dealer (g : GameEngine.t) (w : W) :
  dealer (snd (fst (drawCard g w))) = dealer g.
Proof.
  unfold drawCard, bind, get, throw, rethrow, onDeckManager, zoom.
  destruct (deckManager g) as [dm|]; [|reflexivity].
  destruct (DeckManager.drawCard dm w) as [[[card|err] dm'] w']; reflexivity.
Qed.

(** One hit: a card appended to the dealer's hand, or an error and the
    hand as it was. *)
Lemma hitDealer_dealer (g : GameEngine.t) (w : W) :
  match hitDealer g w with
  | (Ok _, g', _) =>
      exists card : Card, getCards (dealer g') = getCards (dealer g) ++ [card]
  | (Throw _, g', _) => dealer g' = dealer g
  end.
Proof.
  unfold hitDealer, rethrow, bind, modify.
  pose proof (GameEngine_drawCard_dealer g w) as D.
  destruct (drawCard g w) as [[[card|err] g1] w1]; cbn [fst snd] in D.
  - exists card. cbn. now rewrite D.
  - exact D.
Qed.

Lemma playThroughDealer_ends (fuel : nat) :
  forall (g : GameEngine.t) (w : W),
    17 - hardTotal (getCards (dealer g)) <= Z.of_nat fuel ->
    exists (r : Result unit) (g' : GameEngine.t) (w' : W)
           (drawn : list Card),
      playThroughDealer fuel g w = Some (r, g', w')
      /\ getCards (dealer g') = getCards (dealer g) ++ drawn
      /\ (List.length drawn <= fuel)%nat
      /\ (r = Ok tt -> Dealer.shouldHit (dealer g') = false).
Proof.
  induction fuel as [|fuel IH]; intros g w Fuel;
    cbn [playThroughDealer];
    destruct (Dealer.shouldHit (dealer g)) eqn:Hit;
    try (exists (Ok tt), g, w, []; rewrite app_nil_r;
         repeat split; [simpl; lia | intros _; exact Hit]).
  - apply shouldHit_hardTotal in Hit. lia.
  - apply shouldHit_hardTotal in Hit.
    pose proof (hitDealer_dealer g w) as Step. unfold rethrow.
    destruct (hitDealer g w) as [[[[]|err] g1] w1].
    + destruct Step as [card Step].
      destruct (IH g1 w1) as (r & g' & w' & drawn & E & Cards & Len & Stop).
      { rewrite Step. pose proof (hardTotal_snoc (getCards (dealer g)) card).
        lia. }
      exists r, g', w', (card :: drawn). split; [exact E|].
      split; [rewrite Cards, Step, <- app_assoc; reflexivity|].
      split; [simpl; lia|exact Stop].
    + exists (Throw (mkErrorCause "Failing to play through hitting dealer"
                       err)),
        g1, w1, []. rewrite app_nil_r, Step.
      repeat split; [simpl; lia | discriminate].
Qed.

(** A bound that suffices stays enough when raised. *)
Lemma playThroughDealer_more_fuel (fuel : nat) :
  forall (g : GameEngine.t) (w : W) (res : Result unit * GameEngine.t * W),
    playThroughDealer fuel g w = Some res ->
    playThroughDealer (S fuel) g w = Some res.
Proof.
  induction fuel as [|fuel IH]; intros g w res.
  - cbn [playThroughDealer].
    destruct (Dealer.shouldHit (dealer g)); [discriminate|trivial].
  - intros E. change (playThroughDealer (S (S fuel)) g w)
      with (if Dealer.shouldHit (dealer g)
            then match rethrow "Failing to play through hitting dealer"
                         hitDealer g w with
                 | (Ok _, g', w') => playThroughDealer (S fuel) g' w'
                 | (Throw err, g', w') => Some (Throw err, g', w')
                 end
            else Some (Ok tt, g, w)).
    cbn [playThroughDealer] in E.
    destruct (Dealer.shouldHit (dealer g)); [|exact E].
    destruct (rethrow "Failing to play through hitting dealer" hitDealer g w)
      as [[[[]|err] g1] w1]; [apply IH|]; exact E.
Qed.

(** Why a draw fails: for want of a shoe, or because the shoe's draw
    failed. *)
Lemma GameEngine_drawCard_throws (g g1 : GameEngine.t) (w w1 : W)
  (err : Error) :
  drawCard g w = (Throw err, g1, w1) ->
  match deckManager g with
  | None => err = deckManagerUndefined
  | Some _ =>
      exists e : Error,
        err = mkErrorCause "Failed to draw card"
                (mkErrorCause "Failed to draw card" e)
  end.
Proof.
  unfold drawCard, bind, get, throw, rethrow, onDeckManager, zoom.
  destruct (deckManager g) as [dm|]; [|now intros [= <- _ _]].
  rewrite DeckManager_drawCard_eq.
  destruct (Api.drawCard (DeckManager.deckId dm) 1 w) as [[result|e] w'].
  - destruct (Api.cards result) as [|card [|card' rest]];
      intros [= <- _ _] || discriminate; eexists; reflexivity.
  - intros [= <- _ _]. eexists; reflexivity.
Qed.

Lemma GameEngine_drawCard_shoe (g : GameEngine.t) (w : W) :
  deckManager (snd (fst (drawCard g w))) = None <-> deckManager g = None.
Proof.
  unfold drawCard, bind, get, throw, rethrow, onDeckManager, zoom.
  destruct (deckManager g) as [dm|] eqn:D; cbn [fst snd]; [|now rewrite D].
  destruct (DeckManager.drawCard dm w) as [[[card|err] dm'] w'];
    cbn [fst snd setDeckManager deckManager]; split; discriminate.
Qed.

Lemma hitDealer_throws (g g1 : GameEngine.t) (w w1 : W) (err : Error) :
  hitDealer g w = (Throw err, g1, w1) ->
  exists cause : Error,
    err = mkErrorCause "Failed to hit dealer" cause
    /\ match deckManager g with
       | None => cause = deckManagerUndefined
       | Some _ =>
           exists e : Error,
             cause = mkErrorCause "Failed to draw card"
                       (mkErrorCause "Failed to draw card" e)
       end.
Proof.
  unfold hitDealer, rethrow, bind, modify.
  destruct (drawCard g w) as [[[card|cause] g2] w2] eqn:D; [discriminate|].
  intros [= <- _ _]. exists cause. split; [reflexivity|].
  exact (GameEngine_drawCard_throws g g2 w w2 cause D).
Qed.

Lemma hitDealer_shoe (g : GameEngine.t) (w : W) :
  deckManager (snd (fst (hitDealer g w))) = None <-> deckManager g = None.
Proof.
  unfold hitDealer, rethrow, bind, modify.
  pose proof (GameEngine_drawCard_shoe g w) as S.
  destruct (drawCard g w) as [[[card|err] g1] w1]; cbn [fst snd] in *;
    exact S.
Qed.

(** How the dealer's loop fails: the failed hit, wrapped. *)
Lemma playThroughDealer_throws (fuel : nat) :
  forall (g g' : GameEngine.t) (w w' : W) (err : Error),
    playThroughDealer fuel g w = Some (Throw err, g', w') ->
    exists cause : Error,
      err = mkErrorCause "Failing to play through hitting dealer"
              (mkErrorCause "Failed to hit dealer" cause)
      /\ match deckManager g with
         | None => cause = deckManagerUndefined
         | Some _ =>
             exists e : Error,
               cause = mkErrorCause "Failed to draw card"
                         (mkErrorCause "Failed to draw card" e)
         end.
Proof.
  induction fuel as [|fuel IH]; intros g g' w w' err;
    cbn [playThroughDealer];
    destruct (Dealer.shouldHit (dealer g)); try discriminate.
  unfold rethrow.
  pose proof (hitDealer_shoe g w) as S.
  destruct (hitDealer g w) as [[[[]|e] g1] w1] eqn:D; cbn [fst snd] in S.
  - intros E. destruct (IH g1 g' w1 w' err E) as (cause & -> & C).
    exists cause. split; [reflexivity|].
    destruct (deckManager g) as [dm|], (deckManager g1) as [dm1|];
      try assumption.
    + destruct S as [S _]. discriminate (S eq_refl).
    + destruct S as [_ S]. discriminate (S eq_refl).
  - intros [= <- _ _].
    destruct (hitDealer_throws g g1 w w1 e D) as (cause & -> & C).
    exists cause. now split.
Qed.

End DealerLoop.

(** C6 (amended).  Writing [worth] for what a card is worth with an Ace
    counted as 1 (1 to 10): the value of a hand with a card appended is
    below the value of the hand exactly when the hand has a soft Ace, the
    card would take it over 21 and the card is worth less than ten; the
    soft Ace then drops from 11 to 1 and the value becomes the old value
    less ten plus the worth.  In every other case the value does not
    fall.  What rises with every card is the total that counts every Ace
    as 1, which never exceeds the value; because a dealer who still hits
    holds at most 16 of it, the loop of [playThroughDealer] ends within
    17 iterations from any state, the dealer's hand being the old hand
    followed by the cards drawn: it returns with the dealer standing
    (value at least 17, and hard if 17), or it throws "Failing to play
    through hitting dealer" caused by "Failed to hit dealer" caused by
    "Deck Manager undefined" when the engine has no shoe and by the
    shoe's failed draw ("Failed to draw card") when it has one. *)
Theorem value_rises_on_hard_hands_and_dealer_loop_ends
  {W : Type} `{Api.CardSource W} `{Storage.PlayerStorage W}
  (h : list Card) (c : Card) (g : GameEngine.t) (w : W) :
  let worth := hardTotal [c] in
  1 <= worth <= 10
  /\ hardTotal (h ++ [c]) = hardTotal h + worth
  /\ hardTotal (h ++ [c]) <= value (cardTotalOf (h ++ [c]))
  /\ (value (cardTotalOf (h ++ [c])) < value (cardTotalOf h)
      <-> hasSoftAce (cardTotalOf h) = true
          /\ 21 < value (cardTotalOf h) + worth
          /\ worth < 10)
  /\ (hasSoftAce (cardTotalOf h) = true ->
      21 < value (cardTotalOf h) + worth ->
      cardTotalOf (h ++ [c])
      = mkCardTotal (value (cardTotalOf h) - 10 + worth) false)
  /\ (Dealer.shouldHit (dealer g) = true ->
      hardTotal (getCards (dealer g)) <= 16)
  /\ exists (r : Result unit) (g' : GameEngine.t) (w' : W)
            (drawn : list Card),
       playThroughDealer 17 g w = Some (r, g', w')
       /\ getCards (dealer g') = getCards (dealer g) ++ drawn
       /\ (List.length drawn <= 17)%nat
       /\ match r with
          | Ok _ =>
              Dealer.shouldHit (dealer g') = false
              /\ 17 <= value (getCardTotal (dealer g'))
              /\ (value (getCardTotal (dealer g')) = 17 ->
                  hasSoftAce (getCardTotal (dealer g')) = false)
          | Throw err =>
              exists cause : Error,
                err = mkErrorCause "Failing to play through hitting dealer"
                        (mkErrorCause "Failed to hit dealer" cause)
                /\ match deckManager g with
                   | None => cause = deckManagerUndefined
                   | Some _ =>
                       exists e : Error,
                         cause = mkErrorCause "Failed to draw card"
                                   (mkErrorCause "Failed to draw card" e)
                   end
          end.
Proof.
  intros worth.
  pose proof (hardTotal_single c) as B. fold worth in B.
  destruct (value_snoc_cases h c) as [Falls Rises]. fold worth in Falls, Rises.
  split; [exact B|].
  split; [apply hardTotal_app|].
  split; [apply hardTotal_le_value|].
  split.
  { split.
    - intros Lt.
      destruct (hasSoftAce (cardTotalOf h)) eqn:Soft.
      + destruct (Z_lt_le_dec 21 (value (cardTotalOf h) + worth)) as [Over|In].
        * rewrite (Falls eq_refl Over) in Lt. cbn [value] in Lt.
          repeat split; [exact Over|lia].
        * assert (N : ~ (true = true /\ 21 < value (cardTotalOf h) + worth))
            by (intros [_ O]; lia).
          specialize (Rises N). lia.
      + assert (N : ~ (false = true /\ 21 < value (cardTotalOf h) + worth))
          by (intros [F _]; discriminate F).
        specialize (Rises N). lia.
    - intros (Soft & Over & Small).
      rewrite (Falls Soft Over). cbn [value]. lia. }
  split; [exact Falls|].
  split; [apply shouldHit_hardTotal|].
  destruct (playThroughDealer_ends 17 g w)
    as (r & g' & w' & drawn & E & Cards & Len & Stop).
  { pose proof (hardTotal_length (getCards (dealer g))). lia. }
  exists r, g', w', drawn.
  split; [exact E|]. split; [exact Cards|]. split; [exact Len|].
  destruct r as [[]|err].
  - specialize (Stop eq_refl). split; [exact Stop|].
    apply shouldHit_false_value. exact Stop.
  - exact (playThroughDealer_throws 17 g g' w w' err E).
Qed.

(** The claim as stated fails on a soft 17: Ace and 6 make 17, and with a
    5 appended the hand makes 12. *)
Lemma value_falls_on_soft_17 :
  let h := [mkCard "AH" HEARTS RA; mkCard "6S" SPADES R6] in
  let c := mkCard "5D" DIAMONDS R5 in
  cardTotalOf h = mkCardTotal 17 true
  /\ cardTotalOf (h ++ [c]) = mkCardTotal 12 false
  /\ ~ (value (cardTotalOf (h ++ [c])) >= value (cardTotalOf h)).
Proof.
  cbv zeta. split; [reflexivity|]. split; [reflexivity|].
  vm_compute. intros Ge. now apply Ge.
Qed.

(** * The properties at concrete inputs *)

Import Scripted.

(** The scenarios of the specification, run through [evaluateOutcome]
    with a stake of 100: Ace-King against 7-8 is a player blackjack
    paying 250; King-7-5 against 7-8 is a bust and pays nothing; King-7
    against King-7 is a push and returns the stake. *)
Example evaluateOutcome_scenarios :
  let run playerCards dealerCards :=
    let '(_, g', _) :=
      evaluateOutcome (engine playerCards dealerCards 0 100) quiet in
    (outcome g', winnings g', Player.balance (player g')) in
  run [card RA SPADES; card RK SPADES] [card R7 DIAMONDS; card R8 DIAMONDS]
    = (Some PlayerWonWithBlackjack, Some (ofZ 250), ofZ 250)
  /\ run [card RK SPADES; card R7 HEARTS; card R5 CLUBS]
         [card R7 DIAMONDS; card R8 DIAMONDS]
    = (Some DealerWon, Some (ofZ 0), ofZ 0)
  /\ run [card RK SPADES; card R7 HEARTS] [card RK CLUBS; card R7 DIAMONDS]
    = (Some Push, Some (ofZ 100), ofZ 100).
Proof.
  split; [vm_compute; reflexivity|].
  split; vm_compute; reflexivity.
Qed.

Lemma getCardTotal_best_non_busting_total_witness :
  let hand := Dealer.mk [card RA CLUBS; card RA HEARTS; card R8 DIAMONDS] in
  value (getCardTotal hand) <= 21
  /\ totalUnder (getCards hand) [false; true; false]
     <= value (getCardTotal hand).
Proof.
  intros hand.
  destruct (getCardTotal_best_non_busting_total hand)
    as (_ & _ & Best & _).
  assert (A : admissible (getCards hand) [false; true; false])
    by (split; simpl; lia).
  destruct Best as [Fits Most].
  - exists [false; true; false]. split; [exact A|simpl; lia].
  - split; [exact Fits|]. apply Most; [exact A|simpl; lia].
Defined.

Lemma evaluateOutcome_precedence_witness :
  exists (o : Outcome) (g' : GameEngine.t) (w' : World),
    evaluateOutcome
      (engine [card RA SPADES; card RK SPADES]
         [card R7 DIAMONDS; card R8 DIAMONDS] 0 100) quiet
    = (Ok tt, g', w')
    /\ outcome g' = Some o /\ o = PlayerWonWithBlackjack.
Proof.
  destruct (evaluateOutcome_precedence
              (engine [card RA SPADES; card RK SPADES]
                 [card R7 DIAMONDS; card R8 DIAMONDS] 0 100) quiet)
    as (o & g' & w' & E & O & R1 & _).
  exists o, g', w'. split; [exact E|]. split; [exact O|].
  apply R1; reflexivity.
Defined.

Lemma applyPayout_pays_by_outcome_witness :
  exists (payout : number) (g' : GameEngine.t) (w' : World),
    applyPayout
      (setOutcome (Some PlayerWonWithBlackjack)
         (engine [card RA SPADES; card RK SPADES]
            [card R7 DIAMONDS; card R8 DIAMONDS] 0 100)) quiet
    = (Ok tt, g', w')
    /\ winnings g' = Some payout /\ payout = ofZ 250
    /\ denotes payout (inject_Z 100 * (5 # 2)).
Proof.
  destruct (applyPayout_pays_by_outcome
              (setOutcome (Some PlayerWonWithBlackjack)
                 (engine [card RA SPADES; card RK SPADES]
                    [card R7 DIAMONDS; card R8 DIAMONDS] 0 100))
              quiet PlayerWonWithBlackjack eq_refl)
    as (payout & g' & w' & E & Wn & _ & _ & _ & Whole & _ & _ & _ & _ & _
        & _ & B).
  exists payout, g', w'. split; [exact E|]. split; [exact Wn|].
  split; [apply B; reflexivity|].
  apply (Whole 100); [vm_compute; discriminate|reflexivity].
Defined.

Lemma shouldHit_below_17_or_soft_17_witness :
  Dealer.shouldHit (Dealer.mk [card RA HEARTS; card R6 SPADES]) = true
  /\ Dealer.shouldHit (Dealer.mk [card R10 HEARTS; card R7 DIAMONDS]) = false.
Proof.
  split.
  - apply (proj1 (shouldHit_below_17_or_soft_17
                    (Dealer.mk [card RA HEARTS; card R6 SPADES]))).
    right. split; reflexivity.
  - apply (proj1 (proj2 (shouldHit_below_17_or_soft_17
                    (Dealer.mk [card R10 HEARTS; card R7 DIAMONDS]))));
      reflexivity.
Defined.


Lemma value_rises_on_hard_hands_and_dealer_loop_ends_witness :
  cardTotalOf ([card RA SPADES; card R6 HEARTS] ++ [card R5 DIAMONDS])
  = mkCardTotal 12 false
  /\ exists res,
       playThroughDealer 17
         (engine [] [card RA HEARTS; card R6 SPADES] 0 100)
         (drawing [deliver [card R5 DIAMONDS] 300;
                   deliver [card R7 CLUBS] 299])
       = Some res.
Proof.
  destruct (value_rises_on_hard_hands_and_dealer_loop_ends
              [card RA SPADES; card R6 HEARTS] (card R5 DIAMONDS)
              (engine [] [card RA HEARTS; card R6 SPADES] 0 100)
              (drawing [deliver [card R5 DIAMONDS] 300;
                        deliver [card R7 CLUBS] 299]))
    as (_ & _ & _ & _ & Falls & _ & (r & g' & w' & drawn & E & _)).
  split; [apply Falls; [reflexivity|vm_compute; reflexivity]|].
  exists (r, g', w'). exact E.
Defined.

Lemma placeBet_rejects_atomically_or_debits_witness :
  placeBet (ofZ 150) (engine [] [] 100 0) quiet
  = (Throw (mkError "Cannot bet more than player's balance"),
     engine [] [] 100 0, quiet)
  /\ exists g' : GameEngine.t,
       placeBet (ofZ 40) (engine [] [] 100 0) quiet = (Ok tt, g', quiet)
       /\ Player.bet (player g') = ofZ 40
       /\ denotes (Player.balance (player g')) (inject_Z (100 - 40)).
Proof.
  split.
  - apply (proj1 (placeBet_rejects_atomically_or_debits
                    (ofZ 150) (engine [] [] 100 0) quiet)).
    reflexivity.
  - destruct (proj1 (proj2 (placeBet_rejects_atomically_or_debits
                              (ofZ 40) (engine [] [] 100 0) quiet)))
      as (g' & E & B & _ & _ & Whole & _).
    + reflexivity.
    + exists g'. split; [exact E|]. split; [exact B|].
      apply Whole; try reflexivity; vm_compute; reflexivity.
Defined.

Lemma drawCard_checks_count_drawCards_does_not_witness :
  (exists err : Error,
      DeckManager.drawCard shoe312 (drawing [deliver [] 312])
      = (Throw err, shoe312, quiet))
  /\ exists dm' : DeckManager.t,
       DeckManager.drawCards 4 shoe312
         (drawing [deliver [card R2 CLUBS; card R3 CLUBS] 310])
       = (Ok [card R2 CLUBS; card R3 CLUBS], dm', quiet)
       /\ DeckManager.remaining dm' = ofZ 310.
Proof.
  split.
  - eexists.
    apply (proj1 (drawCard_checks_count_drawCards_does_not
                    shoe312 (drawing [deliver [] 312]) quiet 1 [] (ofZ 312)));
      [reflexivity|simpl; lia].
  - destruct (proj2 (drawCard_checks_count_drawCards_does_not
                       shoe312
                       (drawing [deliver [card R2 CLUBS; card R3 CLUBS] 310])
                       quiet 4 [card R2 CLUBS; card R3 CLUBS] (ofZ 310)))
      as (dm' & E & _ & R & _); [reflexivity|].
    exists dm'. split; [exact E|exact R].
Defined.

Lemma reshuffle_updates_remaining_only_witness :
  exists dm' : DeckManager.t,
    DeckManager.reshuffle (DeckManager.setRemaining (ofZ 60) shoe312)
      (shuffling [Ok (Api.mkReshuffleDeckResult (ofZ 312))])
    = (Ok tt, dm', quiet)
    /\ DeckManager.remaining dm' = ofZ 312
    /\ DeckManager.cutCardPosition dm' = ofZ 70.
Proof.
  destruct (reshuffle_updates_remaining_only
              (DeckManager.setRemaining (ofZ 60) shoe312)
              (shuffling [Ok (Api.mkReshuffleDeckResult (ofZ 312))]) quiet
              (Api.mkReshuffleDeckResult (ofZ 312)))
    as [(dm' & E & R & C & _) _].
  - reflexivity.
  - exists dm'. split; [exact E|]. split; [exact R|].
    rewrite C. vm_compute. reflexivity.
Defined.

Lemma placeBet_has_no_lower_bound_witness :
  exists g' : GameEngine.t,
    placeBet (ofZ (-50)) (engine [] [] 100 0) quiet = (Ok tt, g', quiet)
    /\ Player.bet (player g') = ofZ (-50)
    /\ denotes (Player.balance (player g')) 150
    /\ ltb (ofZ 100) (Player.balance (player g')) = true.
Proof.
  destruct (placeBet_has_no_lower_bound (ofZ (-50)) (engine [] [] 100 0)
              quiet)
    as (g' & E & B & _ & Exact); [reflexivity|].
  exists g'. split; [exact E|]. split; [exact B|].
  destruct (Exact 100%Q (- (50))%Q) as (D & _ & Neg).
  - apply (ofZ_denotes 100). vm_compute. reflexivity.
  - apply (ofZ_denotes (-50)). vm_compute. reflexivity.
  - apply representable_eq with (inject_Z 150); [reflexivity|].
    apply whole_representable. vm_compute. reflexivity.
  - split; [exact D|]. apply Neg. reflexivity.
Defined.
(** * Further properties of the engine *)

(** ** Blackjack *)

(** X1.  A participant has blackjack exactly when the hand is two cards,
    an Ace and a card worth ten (10, J, Q or K), in either order. *)
Theorem hasBlackjack_iff_ace_and_ten {T : Type} `{Participant T} (p : T) :
  hasBlackjack p = true
  <-> exists c1 c2 : Card,
        getCards p = [c1; c2]
        /\ ((rank c1 = RA /\ getCardValue c2 = 10)
            \/ (getCardValue c1 = 10 /\ rank c2 = RA)).
Proof.
  unfold hasBlackjack, blackjackOf. split.
  - intros E. apply andb_prop in E as [L V]. apply Nat.eqb_eq in L.
    destruct (getCards p) as [|c1 [|c2 [|c3 rest]]]; try discriminate L.
    exists c1, c2. split; [reflexivity|].
    destruct c1 as [code1 suit1 rank1], c2 as [code2 suit2 rank2].
    destruct rank1, rank2; try discriminate V;
      first [left; split; reflexivity | right; split; reflexivity].
  - intros (c1 & c2 & -> & Cases).
    destruct c1 as [code1 suit1 rank1], c2 as [code2 suit2 rank2].
    unfold getCardValue in Cases. cbn [rank] in Cases.
    destruct Cases as [[-> V]|[V ->]];
      [destruct rank2 | destruct rank1]; try discriminate V; reflexivity.
Qed.

(** ** Drawing, dealing and hitting *)

Section EngineSteps.
Context {W : Type} `{Api.CardSource W} `{Storage.PlayerStorage W}.

Lemma setDeckManager_same (g : GameEngine.t) (dm : DeckManager.t) :
  deckManager g = Some dm -> setDeckManager dm g = g.
Proof. destruct g; simpl; intros ->; reflexivity. Qed.

Lemma GameEngine_drawCard_eq (g : GameEngine.t) (w : W) :
  drawCard g w
  = match deckManager g with
    | None => (Throw deckManagerUndefined, g, w)
    | Some dm =>
        match DeckManager.drawCard dm w with
        | (Ok card, dm', w') => (Ok card, setDeckManager dm' g, w')
        | (Throw err, dm', w') =>
            (Throw (mkErrorCause "Failed to draw card" err),
             setDeckManager dm' g, w')
        end
    end.
Proof.
  unfold drawCard, bind, get, throw, rethrow, onDeckManager, zoom.
  destruct (deckManager g) as [dm|]; [|reflexivity].
  destruct (DeckManager.drawCard dm w) as [[[card|err] dm'] w']; reflexivity.
Qed.

Lemma GameEngine_drawCards_eq (count : Z) (g : GameEngine.t) (w : W) :
  drawCards count g w
  = match deckManager g with
    | None => (Throw deckManagerUndefined, g, w)
    | Some dm =>
        match DeckManager.drawCards count dm w with
        | (Ok cards, dm', w') => (Ok cards, setDeckManager dm' g, w')
        | (Throw err, dm', w') =>
            (Throw (mkErrorCause "Failed to draw cards" err),
             setDeckManager dm' g, w')
        end
    end.
Proof.
  unfold drawCards, bind, get, throw, rethrow, onDeckManager, zoom.
  destruct (deckManager g) as [dm|]; [|reflexivity].
  destruct (DeckManager.drawCards count dm w) as [[[cards|err] dm'] w'];
    reflexivity.
Qed.

(** The engine's single draw, by what the card source answers. *)
Lemma GameEngine_drawCard_cases (g : GameEngine.t) (w : W) :
  match drawCard g w with
  | (Ok card, g', w') =>
      exists dm result,
        deckManager g = Some dm
        /\ Api.drawCard (DeckManager.deckId dm) 1 w = (Ok result, w')
        /\ Api.cards result = [card]
        /\ g' = setDeckManager
                  (DeckManager.setRemaining (Api.remaining result) dm) g
  | (Throw err, g', w') => g' = g
  end.
Proof.
  rewrite GameEngine_drawCard_eq.
  destruct (deckManager g) as [dm|] eqn:D; [|reflexivity].
  rewrite DeckManager_drawCard_eq.
  destruct (Api.drawCard (DeckManager.deckId dm) 1 w) as [[result|e] w1]
    eqn:A; [|now apply setDeckManager_same].
  destruct (Api.cards result) as [|card [|card' rest]] eqn:C;
    try now apply setDeckManager_same.
  exists dm, result. repeat split; assumption.
Qed.

End EngineSteps.

Section Dealing.
Context {W : Type} `{Api.CardSource W} `{Storage.PlayerStorage W}.

Lemma dealInitialCards_eq (g : GameEngine.t) (w : W) :
  dealInitialCards g w
  = match drawCards 4 g w with
    | (Ok cards, g', w') =>
        (Ok tt,
         setDealer (setCards (skipn 2 cards) (dealer g'))
           (setPlayer (setCards (firstn 2 cards) (player g')) g'), w')
    | (Throw err, g', w') =>
        (Throw (mkErrorCause "Failed to deal initial cards" err), g', w')
    end.
Proof.
  unfold dealInitialCards, rethrow, bind, modify.
  destruct (drawCards 4 g w) as [[[cards|err] g'] w']; reflexivity.
Qed.

Lemma getUpcard_skipn (cards : list Card) (n : nat) :
  Dealer.getUpcard (Dealer.mk (skipn n cards)) = nth_error cards n.
Proof.
  unfold Dealer.getUpcard. cbn [Dealer.cards].
  rewrite nth_error_skipn, Nat.add_0_r.
  destruct (Nat.ltb_spec 0 (List.length (skipn n cards))) as [Lt|Ge];
    [reflexivity|].
  rewrite length_skipn in Ge. symmetry. apply nth_error_None. lia.
Qed.

Lemma dealInitialCards_splits_the_delivery_helper
  (g : GameEngine.t) (w w' : W) (dm : DeckManager.t)
  (result : Api.DrawCardResult) :
  deckManager g = Some dm ->
  Api.drawCard (DeckManager.deckId dm) 4 w = (Ok result, w') ->
  exists g' : GameEngine.t,
    dealInitialCards g w = (Ok tt, g', w')
    /\ getCards (player g') = firstn 2 (Api.cards result)
    /\ getDealerUpcard g' = nth_error (Api.cards result) 2.
Proof.
  intros D A.
  rewrite dealInitialCards_eq, GameEngine_drawCards_eq, D,
    DeckManager_drawCards_eq, A.
  eexists. split; [reflexivity|]. split; [reflexivity|].
  apply getUpcard_skipn.
Qed.

End Dealing.


Section Hitting.
Context {W : Type} `{Api.CardSource W} `{Storage.PlayerStorage W}.

Lemma hitPlayer_eq (g : GameEngine.t) (w : W) :
  hitPlayer g w
  = match drawCard g w with
    | (Ok card, g', w') =>
        (Ok tt, setPlayer (addCard card (player g')) g', w')
    | (Throw err, g', w') =>
        (Throw (mkErrorCause "Failed to hit player" err), g', w')
    end.
Proof.
  unfold hitPlayer, rethrow, bind, modify.
  destruct (drawCard g w) as [[[card|err] g'] w']; reflexivity.
Qed.

Lemma hitDealer_eq (g : GameEngine.t) (w : W) :
  hitDealer g w
  = match drawCard g w with
    | (Ok card, g', w') =>
        (Ok tt, setDealer (addCard card (dealer g')) g', w')
    | (Throw err, g', w') =>
        (Throw (mkErrorCause "Failed to hit dealer" err), g', w')
    end.
Proof.
  unfold hitDealer, rethrow, bind, modify.
  destruct (drawCard g w) as [[[card|err] g'] w']; reflexivity.
Qed.

End Hitting.

(** X3.  A hit either succeeds, and then exactly one card, the one the
    source delivered, is appended to the hand of the participant hit
    while the other hand, the stake, the balance, the outcome and the
    winnings stay as they were; or it throws an error wrapped as "Failed
    to hit player" (or "Failed to hit dealer"), and then the whole engine
    is exactly as before: a failed hit never alters a hand. *)
Theorem hit_appends_one_card_or_changes_nothing
  {W : Type} `{Api.CardSource W} `{Storage.PlayerStorage W}
  (g : GameEngine.t) (w : W) :
  match hitPlayer g w with
  | (Ok _, g', _) =>
      exists card : Card,
        getCards (player g') = getCards (player g) ++ [card]
        /\ dealer g' = dealer g
        /\ Player.balance (player g') = Player.balance (player g)
        /\ Player.bet (player g') = Player.bet (player g)
        /\ outcome g' = outcome g /\ winnings g' = winnings g
  | (Throw err, g', _) =>
      g' = g /\ exists cause, err = mkErrorCause "Failed to hit player" cause
  end
  /\ match hitDealer g w with
     | (Ok _, g', _) =>
         exists card : Card,
           getCards (dealer g') = getCards (dealer g) ++ [card]
           /\ player g' = player g
           /\ outcome g' = outcome g /\ winnings g' = winnings g
     | (Throw err, g', _) =>
         g' = g
         /\ exists cause, err = mkErrorCause "Failed to hit dealer" cause
     end.
Proof.
  rewrite hitPlayer_eq, hitDealer_eq.
  pose proof (GameEngine_drawCard_cases g w) as C.
  destruct (drawCard g w) as [[[card|err] g1] w1].
  - destruct C as (dm & result & D & A & Cs & ->).
    split; exists card; repeat split.
  - subst g1. split; (split; [reflexivity|eexists; reflexivity]).
Qed.

(** X4.  An engine without a shoe (as it is before [initialize], or after
    a failed one) cannot draw: [drawCard], [drawCards] and
    [checkToReshuffleDeck] throw "Deck Manager undefined", the hits and
    the deal throw it wrapped in their own message, and the dealer's
    play, when the dealer has to hit, throws it wrapped twice; in every
    case the card source is not called and the engine is unchanged. *)
Theorem without_a_shoe_nothing_is_drawn
  {W : Type} `{Api.CardSource W} `{Storage.PlayerStorage W}
  (g : GameEngine.t) (w : W) (count : Z) (fuel : nat) :
  deckManager g = None ->
  drawCard g w = (Throw deckManagerUndefined, g, w)
  /\ drawCards count g w = (Throw deckManagerUndefined, g, w)
  /\ checkToReshuffleDeck g w = (Throw deckManagerUndefined, g, w)
  /\ hitPlayer g w
     = (Throw (mkErrorCause "Failed to hit player" deckManagerUndefined), g, w)
  /\ hitDealer g w
     = (Throw (mkErrorCause "Failed to hit dealer" deckManagerUndefined), g, w)
  /\ dealInitialCards g w
     = (Throw (mkErrorCause "Failed to deal initial cards"
                 deckManagerUndefined), g, w)
  /\ (Dealer.shouldHit (dealer g) = true ->
      playThroughDealer (S fuel) g w
      = Some (Throw (mkErrorCause "Failing to play through hitting dealer"
                       (mkErrorCause "Failed to hit dealer"
                          deckManagerUndefined)), g, w)).
Proof.
  intros D.
  assert (E1 : drawCard g w = (Throw deckManagerUndefined, g, w))
    by (rewrite GameEngine_drawCard_eq, D; reflexivity).
  assert (E2 : drawCards count g w = (Throw deckManagerUndefined, g, w))
    by (rewrite GameEngine_drawCards_eq, D; reflexivity).
  split; [exact E1|]. split; [exact E2|].
  split.
  { unfold checkToReshuffleDeck, bind, get. now rewrite D. }
  split; [rewrite hitPlayer_eq, E1; reflexivity|].
  split; [rewrite hitDealer_eq, E1; reflexivity|].
  split.
  { rewrite dealInitialCards_eq, GameEngine_drawCards_eq, D. reflexivity. }
  intros Hit. cbn [playThroughDealer]. rewrite Hit.
  unfold rethrow. rewrite hitDealer_eq, E1. reflexivity.
Qed.



(** ** A round's money *)

Section RoundMoney.
Context {W : Type} `{Api.CardSource W} `{Storage.PlayerStorage W}.

Lemma sameMoney_refl (g : GameEngine.t) : sameMoney g g.
Proof. repeat split. Qed.

Lemma sameMoney_trans (g1 g2 g3 : GameEngine.t) :
  sameMoney g1 g2 -> sameMoney g2 g3 -> sameMoney g1 g3.
Proof.
  unfold sameMoney. intros (A & B & C & D & E) (A' & B' & C' & D' & E').
  repeat split; congruence.
Qed.

Lemma drawCard_sameMoney (g : GameEngine.t) (w : W) :
  sameMoney g (snd (fst (drawCard g w))).
Proof.
  rewrite GameEngine_drawCard_eq.
  destruct (deckManager g) as [dm|]; [|apply sameMoney_refl].
  destruct (DeckManager.drawCard dm w) as [[[card|err] dm'] w'];
    repeat split.
Qed.

Lemma hitPlayer_sameMoney (g : GameEngine.t) (w : W) :
  sameMoney g (snd (fst (hitPlayer g w))).
Proof.
  rewrite hitPlayer_eq. pose proof (drawCard_sameMoney g w) as M.
  destruct (drawCard g w) as [[[card|err] g'] w']; cbn [fst snd] in *;
    [|exact M].
  apply (sameMoney_trans _ _ _ M). repeat split.
Qed.

Lemma hitDealer_sameMoney (g : GameEngine.t) (w : W) :
  sameMoney g (snd (fst (hitDealer g w))).
Proof.
  rewrite hitDealer_eq. pose proof (drawCard_sameMoney g w) as M.
  destruct (drawCard g w) as [[[card|err] g'] w']; cbn [fst snd] in *;
    [|exact M].
  apply (sameMoney_trans _ _ _ M). repeat split.
Qed.

Lemma dealInitialCards_sameMoney (g : GameEngine.t) (w : W) :
  sameMoney g (snd (fst (dealInitialCards g w))).
Proof.
  rewrite dealInitialCards_eq, GameEngine_drawCards_eq.
  destruct (deckManager g) as [dm|]; [|apply sameMoney_refl].
  destruct (DeckManager.drawCards 4 dm w) as [[[cards|err] dm'] w'];
    repeat split.
Qed.

Lemma playThroughDealer_sameMoney (fuel : nat) :
  forall (g g' : GameEngine.t) (w w' : W) (r : Result unit),
    playThroughDealer fuel g w = Some (r, g', w') -> sameMoney g g'.
Proof.
  induction fuel as [|fuel IH]; intros g g' w w' r;
    cbn [playThroughDealer];
    destruct (Dealer.shouldHit (dealer g));
    try (intros E; inversion E; subst; apply sameMoney_refl);
    try discriminate.
  unfold rethrow. pose proof (hitDealer_sameMoney g w) as M.
  destruct (hitDealer g w) as [[[[]|err] g1] w1]; cbn [fst snd] in M.
  - intros E. apply (sameMoney_trans _ _ _ M). exact (IH _ _ _ _ _ E).
  - intros E. inversion E; subst. exact M.
Qed.

Lemma plays_sameMoney (g g' : GameEngine.t) (w w' : W) :
  plays g w g' w' -> sameMoney g g'.
Proof.
  induction 1 as [g w
                 |g g1 g2 w w1 w2 r E _ IH
                 |g g1 g2 w w1 w2 r E _ IH
                 |g g1 g2 w w1 w2 r E _ IH
                 |fuel g g1 g2 w w1 w2 r E _ IH].
  - apply sameMoney_refl.
  - pose proof (dealInitialCards_sameMoney g w) as M. rewrite E in M.
    exact (sameMoney_trans _ _ _ M IH).
  - pose proof (hitPlayer_sameMoney g w) as M. rewrite E in M.
    exact (sameMoney_trans _ _ _ M IH).
  - pose proof (hitDealer_sameMoney g w) as M. rewrite E in M.
    exact (sameMoney_trans _ _ _ M IH).
  - exact (sameMoney_trans _ _ _ (playThroughDealer_sameMoney _ _ _ _ _ _ E)
             IH).
Qed.

End RoundMoney.

(** X7.  Dealing, hitting and the dealer's play, in any order and number
    and whether they succeed or throw, never touch the player's balance,
    stake or name, nor the recorded outcome and winnings: between
    [placeBet] and [evaluateOutcome] the money does not move. *)
Theorem play_never_moves_money
  {W : Type} `{Api.CardSource W} `{Storage.PlayerStorage W}
  (g g' : GameEngine.t) (w w' : W) :
  plays g w g' w' ->
  Player.balance (player g') = Player.balance (player g)
  /\ Player.bet (player g') = Player.bet (player g)
  /\ Player.username (player g') = Player.username (player g)
  /\ outcome g' = outcome g
  /\ winnings g' = winnings g.
Proof. exact (plays_sameMoney g g' w w'). Qed.

(** The net result of a round on whole amounts is a whole number of
    halves. *)
Lemma settled_representable (b a : Z) (o : Outcome) :
  Z.abs b <= 2 ^ 50 -> Z.abs a <= 2 ^ 50 ->
  representable (inject_Z b + inject_Z a * netFactor o)%Q.
Proof.
  intros B A.
  apply halves_representable
    with (2 * b + a * match o with
                      | PlayerWonWithBlackjack => 3
                      | PlayerWon => 2
                      | Push => 0
                      | DealerWon | DealerWonWithBlackjack => -2
                      end).
  - destruct o; lia.
  - destruct o; cbn [netFactor];
      rewrite inject_Z_plus, !inject_Z_mult;
      change (inject_Z 2) with (2 # 1)%Q;
      change (inject_Z 3) with (3 # 1)%Q;
      change (inject_Z 0) with (0 # 1)%Q;
      change (inject_Z (-2)) with (-2 # 1)%Q;
      field.
Qed.

(** X8.  A whole round settles the stake.  On whole amounts (a balance
    and a stake of at most 2^50 in size): after a bet that [placeBet]
    accepts and any play, [evaluateOutcome] leaves the balance at
    exactly what it was before the bet plus the stake times 1.5 for a
    player blackjack, plus the stake for a win, unchanged for a push,
    and less the stake for either dealer win. *)
Theorem round_settles_the_stake
  {W : Type} `{Api.CardSource W} `{Storage.PlayerStorage W}
  (b a : Z) (g g1 g2 : GameEngine.t) (w w1 w2 : W) :
  Z.abs b <= 2 ^ 50 -> Z.abs a <= 2 ^ 50 ->
  Player.balance (player g) = ofZ b ->
  placeBet (ofZ a) g w = (Ok tt, g1, w1) ->
  plays g1 w1 g2 w2 ->
  exists (o : Outcome) (g3 : GameEngine.t) (w3 : W),
    evaluateOutcome g2 w2 = (Ok tt, g3, w3)
    /\ outcome g3 = Some o
    /\ denotes (Player.balance (player g3))
         (inject_Z b + inject_Z a * netFactor o)%Q.
Proof.
  intros Bb Ba Eb Bet Play.
  rewrite placeBet_eq, Eb in Bet.
  destruct (gtb (ofZ a) (ofZ b)); [discriminate|].
  inversion Bet; subst g1 w1; clear Bet.
  destruct (plays_sameMoney _ _ _ _ Play) as (B & S & _).
  cbn [player setPlayer Player.balance Player.bet] in B, S.
  destruct (evaluateOutcome_fields g2 w2) as (g3 & w3 & E & O & _ & P & _).
  eexists _, g3, w3. split; [exact E|]. split; [exact O|].
  rewrite P. cbn [Player.adjustBalance Player.balance]. rewrite B, S.
  set (o := decideOutcome _ _ _ _).
  apply denotes_eq
    with ((inject_Z b - inject_Z a) + inject_Z a * specPayoutFactor o)%Q.
  { destruct o; cbn [specPayoutFactor netFactor]; ring. }
  apply SFadd_denotes.
  - apply denotes_sub; try (apply ofZ_denotes; lia).
    apply representable_eq with (inject_Z (b - a));
      [apply inject_Z_sub|apply whole_representable; lia].
  - now apply payoutFor_whole.
  - apply representable_eq with (inject_Z b + inject_Z a * netFactor o)%Q;
      [destruct o; cbn [specPayoutFactor netFactor]; ring|].
    now apply settled_representable.
Qed.

(** Adding the payout of a lost round changes nothing but the sign of a
    negative zero. *)
Lemma add_zero_r (x : number) :
  add x (ofZ 0) = x
  \/ (x = S754_zero true /\ add x (ofZ 0) = S754_zero false).
Proof.
  destruct x as [[|]|s| |s m e]; cbn; try (now left). now right.
Qed.

(** X9.  A player whose status is [Busted] does not win: whatever the
    dealer holds, [evaluateOutcome] records a dealer win (with blackjack
    exactly when the dealer has one), the winnings are zero and the
    balance is not credited: it is the number it was (a negative zero
    becoming a positive one). *)
Theorem busted_player_never_wins
  {W : Type} `{Api.CardSource W} `{Storage.PlayerStorage W}
  (g : GameEngine.t) (w : W) :
  getPlayerActionStatus g = Busted ->
  exists (o : Outcome) (g' : GameEngine.t) (w' : W),
    evaluateOutcome g w = (Ok tt, g', w')
    /\ outcome g' = Some o
    /\ o = (if hasBlackjack (dealer g)
            then DealerWonWithBlackjack else DealerWon)
    /\ winnings g' = Some (ofZ 0)
    /\ (Player.balance (player g') = Player.balance (player g)
        \/ (Player.balance (player g) = S754_zero true
            /\ Player.balance (player g') = S754_zero false))
    /\ (forall p : Q,
          denotes (Player.balance (player g)) p ->
          denotes (Player.balance (player g')) p).
Proof.
  unfold getPlayerActionStatus. intros B.
  destruct (Z.gtb_spec (value (getCardTotal (player g))) 21) as [Gt|Le];
    [clear B|destruct (_ =? 21); discriminate B].
  assert (NoBJ : hasBlackjack (player g) = false).
  { destruct (hasBlackjack (player g)) eqn:E; [|reflexivity].
    apply blackjackOf_value in E as [_ V].
    unfold getCardTotal in Gt. lia. }
  destruct (evaluateOutcome_fields g w) as (g' & w' & E & O & Wn & P & _).
  assert (D : decideOutcome (value (getCardTotal (player g)))
                (value (getCardTotal (dealer g)))
                (hasBlackjack (player g)) (hasBlackjack (dealer g))
              = if hasBlackjack (dealer g)
                then DealerWonWithBlackjack else DealerWon).
  { unfold decideOutcome. rewrite NoBJ.
    destruct (hasBlackjack (dealer g)); cbn [andb negb]; [reflexivity|].
    destruct (Z.gtb_spec (value (getCardTotal (player g))) 21);
      [reflexivity|lia]. }
  rewrite D in O, Wn, P.
  assert (Z0 : payoutFor
                 (Some (if hasBlackjack (dealer g)
                        then DealerWonWithBlackjack else DealerWon))
                 (Player.bet (player g)) = ofZ 0)
    by (destruct (hasBlackjack (dealer g)); reflexivity).
  rewrite Z0 in Wn, P.
  eexists _, g', w'. split; [exact E|]. split; [exact O|].
  split; [reflexivity|]. split; [exact Wn|].
  rewrite P. cbn [Player.adjustBalance Player.balance].
  split; [apply add_zero_r|].
  intros p Dn. apply denotes_eq with (p + 0)%Q; [ring|].
  apply SFadd_denotes; [exact Dn|exact zero_denotes|].
  apply representable_eq with p; [ring|].
  now exists (Player.balance (player g)).
Qed.
(** ** Where the dealer stops *)

Lemma value_le_max_hardTotal_21 (cards : list Card) :
  value (cardTotalOf cards) <= Z.max (hardTotal cards) 21.
Proof.
  rewrite cardTotalOf_closed.
  destruct (0 <? countAces cards)%nat; cbn [andb value]; [|lia].
  destruct (Z.leb_spec (hardTotal cards + 10) 21); cbn [value]; lia.
Qed.

Section DealerStops.
Context {W : Type} `{Api.CardSource W} `{Storage.PlayerStorage W}.

Lemma playThroughDealer_stops (fuel : nat) :
  forall (g g' : GameEngine.t) (w w' : W),
    hardTotal (getCards (dealer g)) <= 26 ->
    playThroughDealer fuel g w = Some (Ok tt, g', w') ->
    Dealer.shouldHit (dealer g') = false
    /\ hardTotal (getCards (dealer g')) <= 26.
Proof.
  induction fuel as [|fuel IH]; intros g g' w w' Hard;
    cbn [playThroughDealer];
    destruct (Dealer.shouldHit (dealer g)) eqn:Hit;
    try (intros E; inversion E; subst; split; assumption);
    try discriminate.
  unfold rethrow. pose proof (hitDealer_dealer g w) as Step.
  destruct (hitDealer g w) as [[[[]|err] g1] w1]; [|discriminate].
  destruct Step as [card Step]. apply IH. rewrite Step.
  apply shouldHit_hardTotal in Hit.
  pose proof (hardTotal_snoc (getCards (dealer g)) card). lia.
Qed.

End DealerStops.

(** X10.  When the dealer's play returns normally: a dealer who did not
    have to hit has drawn nothing, the engine and the outside world being
    exactly as before; a dealer who had to hit ends on a value from 17 to
    26, and on 17 only with a hard hand. *)
Theorem dealer_stands_between_17_and_26
  {W : Type} `{Api.CardSource W} `{Storage.PlayerStorage W}
  (fuel : nat) (g g' : GameEngine.t) (w w' : W) :
  playThroughDealer fuel g w = Some (Ok tt, g', w') ->
  (Dealer.shouldHit (dealer g) = false -> g' = g /\ w' = w)
  /\ (Dealer.shouldHit (dealer g) = true ->
      17 <= value (getCardTotal (dealer g')) <= 26
      /\ (value (getCardTotal (dealer g')) = 17 ->
          hasSoftAce (getCardTotal (dealer g')) = false)).
Proof.
  intros E. split.
  - intros Stand. destruct fuel; cbn [playThroughDealer] in E;
      rewrite Stand in E; inversion E; split; reflexivity.
  - intros Hit.
    destruct (playThroughDealer_stops fuel g g' w w') as [Stop Hard];
      [apply shouldHit_hardTotal in Hit; lia|exact E|].
    apply shouldHit_false_value in Stop as [Low NotSoft].
    pose proof (value_le_max_hardTotal_21 (getCards (dealer g'))).
    unfold getCardTotal in *. repeat split; [lia|lia|exact NotSoft].
Qed.

(** ** Resetting *)

(** X11.  [resetGame] clears the recorded outcome and winnings and
    nothing else: the stake, the balance, both hands and the shoe stay.
    [evaluateOutcome] has no guard of its own, so evaluated again after
    the reset it decides the same outcome and adds the same payout to
    the balance a second time; on whole amounts (a balance and a stake
    of at most 2^49 in size) the balance is then exactly the first
    balance plus twice the payout. *)
Theorem resetGame_clears_only_outcome_and_winnings
  {W : Type} `{Api.CardSource W} `{Storage.PlayerStorage W}
  (g : GameEngine.t) (w : W) :
  outcome (resetGame g) = None
  /\ winnings (resetGame g) = None
  /\ player (resetGame g) = player g
  /\ dealer (resetGame g) = dealer g
  /\ deckManager (resetGame g) = deckManager g
  /\ exists (o : Outcome) (payout : number) (g1 g2 : GameEngine.t)
            (w1 w2 : W),
       evaluateOutcome g w = (Ok tt, g1, w1)
       /\ evaluateOutcome (resetGame g1) w1 = (Ok tt, g2, w2)
       /\ outcome g1 = Some o /\ outcome g2 = Some o
       /\ winnings g1 = Some payout /\ winnings g2 = Some payout
       /\ Player.balance (player g2)
          = add (add (Player.balance (player g)) payout) payout
       /\ (forall b a : Z,
             Z.abs b <= 2 ^ 49 -> Z.abs a <= 2 ^ 49 ->
             Player.balance (player g) = ofZ b ->
             Player.bet (player g) = ofZ a ->
             denotes (Player.balance (player g2))
               (inject_Z b + 2 * (inject_Z a * specPayoutFactor o))%Q).
Proof.
  repeat (split; [reflexivity|]).
  destruct (evaluateOutcome_fields g w)
    as (g1 & w1 & E1 & O1 & W1 & P1 & D1 & _).
  destruct (evaluateOutcome_fields (resetGame g1) w1)
    as (g2 & w2 & E2 & O2 & W2 & P2 & _).
  cbn [resetGame player dealer setWinnings setOutcome] in O2, W2, P2.
  rewrite P1, D1 in O2, W2, P2.
  cbn [Player.adjustBalance getCardTotal hasBlackjack getCards
         Player.participant Player.cards Player.bet Player.balance]
    in O2, W2, P2.
  set (o := decideOutcome _ _ _ _) in *.
  set (payout := payoutFor (Some o) (Player.bet (player g))) in *.
  exists o, payout, g1, g2, w1, w2.
  split; [exact E1|]. split; [exact E2|].
  split; [exact O1|]. split; [exact O2|].
  split; [exact W1|]. split; [exact W2|].
  assert (B2 : Player.balance (player g2)
               = add (add (Player.balance (player g)) payout) payout)
    by (now rewrite P2).
  split; [exact B2|].
  intros b a Bb Ba Eb Ea. rewrite B2, Eb. unfold payout. rewrite Ea.
  pose proof (payoutFor_whole o a ltac:(lia)) as Pay.
  assert (R : forall k : Z,
             0 <= k <= 2 ->
             representable
               (inject_Z b + inject_Z k * (inject_Z a * specPayoutFactor o))%Q).
  { intros k K.
    apply halves_representable
      with (2 * b + k * (a * match o with
                             | PlayerWonWithBlackjack => 5
                             | PlayerWon => 4
                             | Push => 2
                             | DealerWon | DealerWonWithBlackjack => 0
                             end)).
    - destruct o; nia.
    - destruct o; cbn [specPayoutFactor];
        rewrite inject_Z_plus, !inject_Z_mult;
        change (inject_Z 2) with (2 # 1)%Q;
        change (inject_Z 5) with (5 # 1)%Q;
        change (inject_Z 4) with (4 # 1)%Q;
        change (inject_Z 0) with (0 # 1)%Q;
        field. }
  apply denotes_eq
    with ((inject_Z b + inject_Z a * specPayoutFactor o)
          + inject_Z a * specPayoutFactor o)%Q; [ring|].
  apply SFadd_denotes; [|exact Pay|].
  - apply SFadd_denotes; [apply ofZ_denotes; lia|exact Pay|].
    apply representable_eq
      with (inject_Z b + inject_Z 1 * (inject_Z a * specPayoutFactor o))%Q;
      [change (inject_Z 1) with 1%Q; ring|apply R; lia].
  - apply representable_eq
      with (inject_Z b + inject_Z 2 * (inject_Z a * specPayoutFactor o))%Q;
      [change (inject_Z 2) with 2%Q; ring|apply R; lia].
Qed.
(** * The card service's client *)

Lemma rankOfString_Some (value : string) (r : CardRank) :
  Client.rankOfString value = Some r -> value = rankString r.
Proof.
  unfold Client.rankOfString. intros E. split_eqb;
    try discriminate E; injection E as <-; assumption.
Qed.

Lemma rankOfString_rankString (r : CardRank) :
  Client.rankOfString (rankString r) = Some r.
Proof. destruct r; reflexivity. Qed.

(** X12.  [normalizeCardRank] recognises exactly the thirteen rank
    strings and the service's four face names: it returns a rank for a
    value that is that rank's own string or the service's name for it
    (JACK, QUEEN, KING, ACE), and [null] for every other value. *)
Theorem normalizeCardRank_recognises_ranks_and_face_names
  (value : string) (r : CardRank) :
  Client.normalizeCardRank value = Some r
  <-> value = rankString r \/ value = serviceName r.
Proof.
  split.
  - unfold Client.normalizeCardRank, Client.isValidCardRank,
      Client.faceCardMap.
    destruct (String.eqb_spec value "JACK") as [->|NJ];
      [cbn; intros E; injection E as <-; now right|].
    destruct (String.eqb_spec value "QUEEN") as [->|NQ];
      [cbn; intros E; injection E as <-; now right|].
    destruct (String.eqb_spec value "KING") as [->|NK];
      [cbn; intros E; injection E as <-; now right|].
    destruct (String.eqb_spec value "ACE") as [->|NA];
      [cbn; intros E; injection E as <-; now right|].
    destruct (Client.rankOfString value) as [r'|] eqn:E; [|discriminate].
    intros E'. injection E' as <-. left. now apply rankOfString_Some.
  - intros [->| ->]; destruct r; reflexivity.
Qed.

Lemma dropNulls_length {A : Type} (xs : list (option A)) :
  (List.length (Client.dropNulls xs) <= List.length xs)%nat
  /\ (List.length (Client.dropNulls xs) = List.length xs
      <-> Forall (fun x => x <> None) xs).
Proof.
  induction xs as [|[x|] xs [Le Iff]]; cbn [Client.dropNulls List.length].
  - split; [lia|]. split; [constructor|reflexivity].
  - split; [lia|]. split.
    + intros L. constructor; [discriminate|]. apply Iff. lia.
    + intros F. inversion F; subst. f_equal. now apply Iff.
  - split; [lia|]. split; [lia|].
    intros F. inversion F; subst. congruence.
Qed.

Lemma dropNulls_In {A : Type} (xs : list (option A)) (x : A) :
  In x (Client.dropNulls xs) <-> In (Some x) xs.
Proof.
  induction xs as [|[y|] xs IH]; cbn [Client.dropNulls In].
  - reflexivity.
  - rewrite IH. split; intros [E|I]; auto; left; congruence.
  - rewrite IH. split; [auto|]. intros [E|I]; [discriminate|exact I].
Qed.

Lemma dropNulls_all {A B : Type} (f : A -> option B) (g : B -> string)
  (h : A -> string) (xs : list A) :
  (forall x y, f x = Some y -> g y = h x) ->
  Forall (fun x => f x <> None) xs ->
  map g (Client.dropNulls (map f xs)) = map h xs.
Proof.
  intros Same F. induction F as [|x xs Hx F IH]; [reflexivity|].
  cbn [map Client.dropNulls]. destruct (f x) as [y|] eqn:E; [|congruence].
  cbn [map]. now rewrite IH, (Same x y E).
Qed.

Lemma convertCard_Some (raw : Client.ApiCard) (card : Card) :
  Client.convertCard raw = Some card
  <-> code card = Client.apiCode raw
      /\ suit card = Client.apiSuit raw
      /\ Client.normalizeCardRank (Client.apiValue raw) = Some (rank card).
Proof.
  unfold Client.convertCard.
  destruct (Client.normalizeCardRank (Client.apiValue raw)) as [r|]; split.
  - intros E. injection E as <-. repeat split.
  - intros (C & S & R). destruct card as [c s r']. cbn in *.
    injection R as ->. now subst.
  - discriminate.
  - intros (_ & _ & R). discriminate R.
Qed.

(** X13.  From a successful draw response the client hands on exactly the
    delivered cards whose value it recognises, with their code and suit,
    and drops the others without an error: never more cards than
    delivered, as many exactly when every value is recognised, and then
    one for one in delivery order.  The reported [remaining] is passed on
    unchanged, dropped cards or not. *)
Theorem client_drawCard_keeps_the_recognised_cards
  {W : Type} `{Client.Http W}
  (deckId : string) (count : Z) (w w' : W)
  (data : Client.DrawCardApiResponse) :
  deckId <> EmptyString ->
  Client.getDrawCard (Client.BASE_URL ++ "/" ++ deckId ++ "/draw") count w
    = (Ok (Client.Valid data), w') ->
  Client.drawSuccess data = true ->
  exists result : Api.DrawCardResult,
    Client.drawCard deckId count w = (Ok result, w')
    /\ Api.remaining result = Client.drawRemaining data
    /\ (forall card : Card,
          In card (Api.cards result)
          <-> exists raw : Client.ApiCard,
                In raw (Client.drawCards data)
                /\ code card = Client.apiCode raw
                /\ suit card = Client.apiSuit raw
                /\ Client.normalizeCardRank (Client.apiValue raw)
                   = Some (rank card))
    /\ (List.length (Api.cards result)
        <= List.length (Client.drawCards data))%nat
    /\ (List.length (Api.cards result) = List.length (Client.drawCards data)
        <-> Forall (fun raw =>
                      Client.normalizeCardRank (Client.apiValue raw) <> None)
              (Client.drawCards data))
    /\ (Forall (fun raw =>
                  Client.normalizeCardRank (Client.apiValue raw) <> None)
          (Client.drawCards data) ->
        map code (Api.cards result)
        = map Client.apiCode (Client.drawCards data)).
Proof.
  intros Id Get Success. unfold Client.drawCard.
  destruct (String.eqb_spec deckId EmptyString) as [E|_]; [now elim Id|].
  rewrite Get, Success. cbn [negb].
  eexists. split; [reflexivity|]. cbn [Api.cards Api.remaining].
  assert (N : forall raw,
             Client.convertCard raw <> None
             <-> Client.normalizeCardRank (Client.apiValue raw) <> None).
  { intros raw. unfold Client.convertCard.
    destruct (Client.normalizeCardRank _); split; congruence. }
  assert (F : Forall (fun x => x <> None)
                (map Client.convertCard (Client.drawCards data))
              <-> Forall (fun raw =>
                            Client.normalizeCardRank (Client.apiValue raw)
                            <> None) (Client.drawCards data)).
  { rewrite Forall_map. split; apply Forall_impl; intros raw; apply N. }
  pose proof (dropNulls_length
                (map Client.convertCard (Client.drawCards data)))
    as [Le Iff].
  rewrite length_map in Le, Iff.
  split; [reflexivity|]. split.
  { intros card. rewrite dropNulls_In, in_map_iff. split.
    - intros (raw & C & I). exists raw. split; [exact I|].
      now apply convertCard_Some.
    - intros (raw & I & C). exists raw. split; [|exact I].
      now apply convertCard_Some. }
  split; [exact Le|]. split; [now rewrite Iff|].
  intros All. apply dropNulls_all.
  - intros raw card C. now apply convertCard_Some in C.
  - rewrite Forall_forall in *. intros raw I. apply N. now apply All.
Qed.

(** X14.  How the client's [drawCard] fails.  With an empty deck id it
    throws "deckId is not specified" without sending a request, as
    [reshuffleDeck] does.  Otherwise it returns cards only from a response
    that passed the schema and says [success: true]; and whatever goes
    wrong (the request throwing, a body the schema rejects, a response
    with [success: false]) surfaces as one error, "Error with drawing
    card(s) endpoint", whose cause is respectively the request's error,
    "Invalid API response: ..." and "API failed". *)
Theorem client_drawCard_failures
  {W : Type} `{Client.Http W} (deckId : string) (count : Z) (w : W) :
  (deckId = EmptyString ->
   Client.drawCard deckId count w
     = (Throw (mkError "deckId is not specified"), w)
   /\ Client.reshuffleDeck deckId w
     = (Throw (mkError "deckId is not specified"), w))
  /\ (deckId <> EmptyString ->
      match Client.getDrawCard
              (Client.BASE_URL ++ "/" ++ deckId ++ "/draw") count w with
      | (Throw err, w') =>
          Client.drawCard deckId count w
          = (Throw (mkErrorCause "Error with drawing card(s) endpoint" err),
             w')
      | (Ok (Client.Invalid error), w') =>
          Client.drawCard deckId count w
          = (Throw (mkErrorCause "Error with drawing card(s) endpoint"
                      (mkError ("Invalid API response: " ++ error))), w')
      | (Ok (Client.Valid data), w') =>
          if Client.drawSuccess data
          then exists result,
                 Client.drawCard deckId count w = (Ok result, w')
          else Client.drawCard deckId count w
               = (Throw (mkErrorCause "Error with drawing card(s) endpoint"
                           (mkError "API failed")), w')
      end).
Proof.
  unfold Client.drawCard, Client.reshuffleDeck. split.
  - intros ->. split; reflexivity.
  - intros Id.
    destruct (String.eqb_spec deckId EmptyString) as [E|_]; [now elim Id|].
    destruct (Client.getDrawCard _ count w) as [[[error|data]|err] w'];
      try reflexivity.
    destruct (Client.drawSuccess data); [eexists|]; reflexivity.
Qed.

(** X15.  The shoe behind the real client.  [DeckManager.drawCard] counts
    the cards the client recognised, not the cards the service
    delivered.  With a successful response: if exactly one delivered
    card has a recognised value the draw succeeds with that card, however
    many cards were delivered; otherwise it throws, and [remaining] keeps
    its old value although the service has reported a new one.  In
    particular a single delivered card of unknown value is reported as
    "Expected 1, Received: 0". *)
Theorem deckManager_counts_the_recognised_cards
  {W : Type} `{Client.Http W}
  (dm : DeckManager.t) (w w' : W) (data : Client.DrawCardApiResponse) :
  DeckManager.deckId dm <> EmptyString ->
  Client.getDrawCard
    (Client.BASE_URL ++ "/" ++ DeckManager.deckId dm ++ "/draw") 1 w
    = (Ok (Client.Valid data), w') ->
  Client.drawSuccess data = true ->
  let recognised :=
    Client.dropNulls (map Client.convertCard (Client.drawCards data)) in
  let draw := @DeckManager.drawCard W Client.cardSource in
  (forall card : Card,
      recognised = [card] ->
      draw dm w
      = (Ok card, DeckManager.setRemaining (Client.drawRemaining data) dm, w'))
  /\ (List.length recognised <> 1%nat ->
      exists err : Error, draw dm w = (Throw err, dm, w'))
  /\ (forall raw : Client.ApiCard,
        Client.drawCards data = [raw] ->
        Client.normalizeCardRank (Client.apiValue raw) = None ->
        draw dm w
        = (Throw
             (mkErrorCause "Failed to draw card"
                (mkError
                   "Wrong number of cards drawn.  Expected 1, Received: 0")),
           dm, w')).
Proof.
  intros Id Get Success recognised draw.
  assert (E : @Api.drawCard W Client.cardSource (DeckManager.deckId dm) 1 w
              = (Ok (Api.mkDrawCardResult recognised
                       (Client.drawRemaining data)), w')).
  { cbn [Api.drawCard Client.cardSource]. unfold Client.drawCard.
    destruct (String.eqb_spec (DeckManager.deckId dm) EmptyString) as [E|_];
      [now elim Id|].
    rewrite Get, Success. reflexivity. }
  unfold draw.
  rewrite (@DeckManager_drawCard_eq W Client.cardSource dm w), E.
  cbn [Api.cards Api.remaining].
  assert (Unknown : forall raw,
             Client.drawCards data = [raw] ->
             Client.normalizeCardRank (Client.apiValue raw) = None ->
             recognised = []).
  { intros raw One U. subst recognised. rewrite One.
    cbn [map Client.dropNulls]. unfold Client.convertCard. now rewrite U. }
  clearbody recognised. clear E.
  split; [intros card ->; reflexivity|].
  split.
  - intros L. destruct recognised as [|card [|card' rest]];
      [eexists; reflexivity | now elim L | eexists; reflexivity].
  - intros raw One U. rewrite (Unknown raw One U). reflexivity.
Qed.

(** * Persistence *)

Lemma key_injective (u u' : string) : LevelDb.key u = LevelDb.key u' -> u = u'.
Proof. unfold LevelDb.key. cbn. intros E. now injection E. Qed.

Lemma MemDb_keepsWhatIsPut : @LevelDb.keepsWhatIsPut MemDb.World MemDb.db.
Proof.
  intros k v w w1 E. cbn in E. injection E as <-. split.
  - cbn. now rewrite String.eqb_refl.
  - intros k' N. cbn. apply String.eqb_neq in N. rewrite N.
    now destruct (MemDb.lookup k' w).
Qed.

(** X16.  Saving a player and loading it back.  On a database that keeps
    what is put, when [Player.save] (over the LevelDB storage) returns
    normally the player itself is unchanged, a [load] of the player's
    name yields exactly the name and the balance the player had, and a
    [load] of any other name yields what it yielded before. *)
Theorem saved_player_loads_back
  {W : Type} `{LevelDb.Db W} (p p' : Player.t) (w w1 : W) :
  LevelDb.keepsWhatIsPut ->
  @Player.save W LevelDb.storage p w = (Ok tt, p', w1) ->
  p' = p
  /\ fst (LevelDb.load (Player.username p) w1)
     = Ok (Some (Storage.mkPlayerData (Player.username p) (Player.balance p)))
  /\ forall other : string,
       other <> Player.username p ->
       fst (LevelDb.load other w1) = fst (LevelDb.load other w).
Proof.
  intros Law. unfold Player.save, bind, get, throw, rethrow, call.
  destruct (String.eqb_spec (Player.username p) EmptyString) as [E|N];
    [discriminate|].
  cbn [Storage.save LevelDb.storage]. unfold LevelDb.save.
  cbn [Storage.username].
  destruct (String.eqb_spec (Player.username p) EmptyString) as [E|_];
    [now elim N|].
  destruct (LevelDb.put _ _ w) as [[[]|err] w2] eqn:Put; [|discriminate].
  intros E. inversion E; subst p' w2; clear E.
  destruct (Law _ _ _ _ Put) as [Same Others].
  split; [reflexivity|]. split.
  - unfold LevelDb.load.
    destruct (String.eqb_spec (Player.username p) EmptyString) as [E|_];
      [now elim N|].
    destruct (LevelDb.get _ w1) as [r w3]. cbn [fst] in Same. now subst r.
  - intros other Ne. unfold LevelDb.load.
    destruct (String.eqb other EmptyString); [reflexivity|].
    assert (K : LevelDb.key other <> LevelDb.key (Player.username p))
      by (intros K; apply Ne; now apply key_injective).
    specialize (Others _ K).
    destruct (LevelDb.get (LevelDb.key other) w1) as [r1 w3].
    destruct (LevelDb.get (LevelDb.key other) w) as [r0 w0].
    cbn [fst] in Others. subst r1. now destruct r0 as [[?|]|?|?].
Qed.

Lemma storage_rejections_and_misses_helper
  {W : Type} `{LevelDb.Db W} (w : W) (p : Player.t) :
  Player.username p <> EmptyString ->
  match LevelDb.put (LevelDb.key (Player.username p))
          (Storage.mkPlayerData (Player.username p) (Player.balance p)) w
  with
  | (Ok _, w') => @Player.save W LevelDb.storage p w = (Ok tt, p, w')
  | (Throw err, w') =>
      @Player.save W LevelDb.storage p w
      = (Throw (mkErrorCause "Error saving player" err), p, w')
  end.
Proof.
  intros N. unfold Player.save, bind, get, throw, rethrow, call.
  destruct (String.eqb_spec (Player.username p) EmptyString) as [E|_];
    [now elim N|].
  cbn [Storage.save LevelDb.storage]. unfold LevelDb.save.
  cbn [Storage.username].
  destruct (String.eqb_spec (Player.username p) EmptyString) as [E|_];
    [now elim N|].
  destruct (LevelDb.put _ _ w) as [[[]|err] w']; reflexivity.
Qed.

(** X17.  What the storage refuses and what it forgives.  [save] of a
    player without a name throws "Invalid player data" and [load] of an
    empty name throws "Username is required", neither touching the
    database; a name that is not in the database, or whose entry is not
    an object, loads as [null] rather than as an error; every other
    database failure is rethrown as it is.  [Player.save] stops a
    nameless player itself, with "Username is invalid", before the
    storage is reached, and reports a failed [put] as "Error saving
    player" with the database's error as cause. *)
Theorem storage_rejections_and_misses
  {W : Type} `{LevelDb.Db W} (w : W) (username : string)
  (balance : number) (p : Player.t) :
  LevelDb.save (Storage.mkPlayerData EmptyString balance) w
    = (Throw (mkError "Invalid player data"), w)
  /\ LevelDb.load EmptyString w = (Throw (mkError "Username is required"), w)
  /\ (username <> EmptyString ->
      match LevelDb.get (LevelDb.key username) w with
      | (LevelDb.Found (LevelDb.StoredPlayer data), w') =>
          LevelDb.load username w = (Ok (Some data), w')
      | (LevelDb.Found LevelDb.StoredOther, w') =>
          LevelDb.load username w = (Ok None, w')
      | (LevelDb.NotFound _, w') => LevelDb.load username w = (Ok None, w')
      | (LevelDb.Failed err, w') => LevelDb.load username w = (Throw err, w')
      end)
  /\ (Player.username p = EmptyString ->
      @Player.save W LevelDb.storage p w
      = (Throw (mkError "Username is invalid"), p, w))
  /\ (Player.username p <> EmptyString ->
      match LevelDb.put (LevelDb.key (Player.username p))
              (Storage.mkPlayerData (Player.username p) (Player.balance p)) w
      with
      | (Ok _, w') => @Player.save W LevelDb.storage p w = (Ok tt, p, w')
      | (Throw err, w') =>
          @Player.save W LevelDb.storage p w
          = (Throw (mkErrorCause "Error saving player" err), p, w')
      end).
Proof.
  split; [reflexivity|]. split; [reflexivity|].
  split.
  { intros N. unfold LevelDb.load.
    destruct (String.eqb_spec username EmptyString) as [E|_]; [now elim N|].
    destruct (LevelDb.get _ w) as [[[data|]|err|err] w']; reflexivity. }
  split.
  { intros E. unfold Player.save, bind, get, throw. now rewrite E. }
  intros N. now apply storage_rejections_and_misses_helper.
Qed.

(** * The application *)

Section AppFacts.
Context {W : Type} `{Api.CardSource W} `{Storage.PlayerStorage W}
  `{App.Terminal W}.

Lemma endOfTurn_cases (app : App.t) (w : W) :
  (App.gameState app = App.EXIT
   /\ App.endOfTurn app w = (App.Returned app, App.print App.Goodbye w))
  \/ (App.gameState app <> App.EXIT
      /\ App.endOfTurn app w = (App.Continue app, w)).
Proof.
  unfold App.endOfTurn. destruct (App.gameState app);
    first [left; split; reflexivity | right; split; [discriminate|reflexivity]].
Qed.

Lemma playThroughDealer_17 (fuel : nat) (g : GameEngine.t) (w : W) :
  (17 <= fuel)%nat ->
  exists r g' w', playThroughDealer fuel g w = Some (r, g', w').
Proof.
  intros F. destruct (playThroughDealer_ends fuel g w)
    as (r & g' & w' & drawn & E & _).
  - pose proof (hardTotal_length (getCards (dealer g))). lia.
  - now exists r, g', w'.
Qed.

(** The round's end as the application sees it: the payout is credited,
    the save of the credited player is started on the world as it is,
    and a rejection of that save joins the unhandled ones. *)
Lemma evaluateOutcome_round (g : GameEngine.t) (w : W) :
  let o := decideOutcome (value (getCardTotal (player g)))
             (value (getCardTotal (dealer g)))
             (hasBlackjack (player g)) (hasBlackjack (dealer g)) in
  let payout := payoutFor (Some o) (Player.bet (player g)) in
  exists g1 : GameEngine.t,
    evaluateOutcome g w = (Ok tt, g1, snd (Player.save (player g1) w))
    /\ outcome g1 = Some o
    /\ winnings g1 = Some payout
    /\ player g1 = Player.adjustBalance payout (player g)
    /\ GameEngine.unhandled g1
       = match fst (fst (Player.save (player g1) w)) with
         | Ok _ => GameEngine.unhandled g
         | Throw err => GameEngine.unhandled g ++ [err]
         end.
Proof.
  intros o payout. rewrite evaluateOutcome_eq. fold o. fold payout.
  set (g2 := adjustPlayerBalance payout
               (setWinnings (Some payout) (setOutcome (Some o) g))).
  destruct (Player.save (player g2) w) as [[[[]|err] p'] w'] eqn:Save.
  - exists g2. rewrite Save. repeat split.
  - exists (unhandledRejection err g2).
    change (player (unhandledRejection err g2)) with (player g2).
    rewrite Save. repeat split.
Qed.

End AppFacts.

(** X18.  One turn of the application's loop.  With the dealer's loop
    allowed its 17 iterations, a turn always completes, and it ends in
    one of four ways: the loop goes on in a state other than [EXIT],
    [run] returns in state [EXIT], [handleError] has stopped the
    process, or, at the round's end only, the runtime has ended the
    process over a rejection nothing handles: with none pending before
    the turn, it is the rejection of the save of the credited player
    that [applyPayout] started and did not await.  No exception is
    thrown out of the turn.  A turn that goes on or returns moves the
    state along an arrow of the state machine (initial game, bet,
    initial round, player turn, dealer turn, round end, and back to bet
    or out). *)
Theorem app_turn_follows_the_state_machine
  {W : Type} `{Api.CardSource W} `{Storage.PlayerStorage W}
  `{App.Terminal W} (fuel : nat) (app : App.t) (w : W) :
  (17 <= fuel)%nat ->
  exists (s : App.Step) (w' : W),
    App.step fuel app w = Some (s, w')
    /\ match s with
       | App.Continue app' =>
           App.gameState app' <> App.EXIT
           /\ App.arrow (App.gameState app) (App.gameState app') = true
       | App.Returned app' =>
           App.gameState app' = App.EXIT
           /\ App.arrow (App.gameState app) (App.gameState app') = true
       | App.ProcessExit _ => True
       | App.Uncaught _ _ => False
       | App.Crashed err app' =>
           App.gameState app = App.ROUND_END
           /\ App.gameState app' = App.ROUND_END
           /\ (GameEngine.unhandled (App.gameEngine app) = [] ->
               exists w1 : W,
                 fst (fst (Player.save (player (App.gameEngine app')) w1))
                 = Throw err)
       end.
Proof.
  intros Fuel.
  pose (Good := fun s : App.Step =>
     match s with
       | App.Continue app' =>
           App.gameState app' <> App.EXIT
           /\ App.arrow (App.gameState app) (App.gameState app') = true
       | App.Returned app' =>
           App.gameState app' = App.EXIT
           /\ App.arrow (App.gameState app) (App.gameState app') = true
       | App.ProcessExit _ => True
       | App.Uncaught _ _ => False
       | App.Crashed err app' =>
           App.gameState app = App.ROUND_END
           /\ App.gameState app' = App.ROUND_END
           /\ (GameEngine.unhandled (App.gameEngine app) = [] ->
               exists w1 : W,
                 fst (fst (Player.save (player (App.gameEngine app')) w1))
                 = Throw err)
       end).
  change (exists (s : App.Step) (w' : W),
             App.step fuel app w = Some (s, w') /\ Good s).
  assert (End : forall (app' : App.t) (w1 : W),
             App.arrow (App.gameState app) (App.gameState app') = true ->
             exists s w',
               Some (App.endOfTurn app' w1) = Some (s, w') /\ Good s).
  { intros app' w1 A.
    destruct (endOfTurn_cases app' w1) as [[S E]|[S E]]; rewrite E;
      eexists _, _; (split; [reflexivity|]); split; assumption. }
  assert (Stop : forall err a w1,
             exists s w',
               Some (App.handleError err a w1) = Some (s, w') /\ Good s).
  { intros err a w1. eexists _, _. split; [reflexivity|exact I]. }
  unfold App.step, App.showCardsForPlayerTurn.
  destruct (App.gameState app) eqn:State.
  - destruct (initialize _ w) as [[[[]|err] g1] w1];
      [apply End; reflexivity|apply Stop].
  - destruct (eqb _ (ofZ 0)).
    + destruct (App.retrieveMoreFunds _ w) as [[[|] g1] w1]; cbn [negb];
        apply End; reflexivity.
    + destruct (App.promptBet _ w) as [bet w1].
      destruct (placeBet bet _ w1) as [[[[]|err] g1] w2];
        [apply End; reflexivity|apply Stop].
  - destruct (dealInitialCards _ w) as [[[[]|err] g1] w1]; [|apply Stop].
    cbn [App.gameEngine]. destruct (getDealerUpcard g1);
      [apply End; reflexivity|apply Stop].
  - destruct (getPlayerHasBlackjack _); [apply End; reflexivity|].
    destruct (getDealerHasBlackjack _); [apply End; reflexivity|].
    destruct (App.promptPlayerAction w) as [[|] w1];
      [|apply End; reflexivity].
    destruct (hitPlayer _ w1) as [[[[]|err] g1] w2]; [|apply Stop].
    cbn [App.gameEngine]. destruct (getDealerUpcard g1); [|apply Stop].
    destruct (getPlayerActionStatus g1); apply End; reflexivity.
  - destruct (playThroughDealer_17 fuel (App.gameEngine app) w Fuel)
      as (r & g1 & w1 & ->).
    destruct r as [[]|err]; [apply End; reflexivity|apply Stop].
  - destruct (evaluateOutcome_round (App.gameEngine app)
                (App.showFinalCards (App.gameEngine app) w))
      as (g1 & -> & O & Wn & _ & U).
    unfold getOutcome, getWinnings. rewrite O, Wn.
    destruct (GameEngine.unhandled g1) as [|err rest] eqn:Pending.
    + destruct (App.promptPlayAgain _) as [[|] w4];
        [|apply End; reflexivity].
      destruct (checkToReshuffleDeck _ w4) as [[[[]|e] g2] w5];
        [apply End; reflexivity|apply Stop].
    + eexists _, _. split; [reflexivity|]. cbn [Good].
      split; [reflexivity|]. split; [reflexivity|].
      intros None. rewrite None in U. cbn [App.gameEngine].
      exists (App.showFinalCards (App.gameEngine app) w).
      destruct (fst (fst (Player.save (player g1) _))) as [[]|e];
        [discriminate U|].
      cbn [List.app] in U. now injection U as ->.
  - apply End. now rewrite State.
Qed.
(** ** Money in the application *)










Section AppMoney.
Context {W : Type} `{Api.CardSource W} `{Storage.PlayerStorage W}
  `{App.Terminal W}.




End AppMoney.





(** X21.  Blackjack ends the player's turn before it starts.  A player
    holding blackjack is not asked to hit or stand: the turn only prints
    the blackjack line and passes to the dealer's turn.  Otherwise, with a
    dealer holding blackjack, the turn prints the dealer's line and
    passes straight to the round's end, so the dealer draws nothing, and
    the outcome then evaluated is the dealer's blackjack win.  In both
    cases the engine is untouched and no card is requested. *)
Theorem blackjack_skips_the_player_turn
  {W : Type} `{Api.CardSource W} `{Storage.PlayerStorage W}
  `{App.Terminal W} (fuel : nat) (app : App.t) (w : W) :
  App.gameState app = App.PLAYER_TURN ->
  let g := App.gameEngine app in
  (hasBlackjack (player g) = true ->
   App.step fuel app w
   = Some (App.Continue (App.mk App.DEALER_TURN g),
           App.print App.PlayerBlackjack w))
  /\ (hasBlackjack (player g) = false ->
      hasBlackjack (dealer g) = true ->
      App.step fuel app w
      = Some (App.Continue (App.mk App.ROUND_END g),
              App.print App.DealerBlackjack w)
      /\ forall w1 : W,
           outcome (snd (fst (evaluateOutcome g w1)))
           = Some DealerWonWithBlackjack).
Proof.
  intros State g. unfold App.step. rewrite State. fold g.
  unfold getPlayerHasBlackjack, getDealerHasBlackjack. split.
  - intros ->. reflexivity.
  - intros P D. rewrite P, D. split; [reflexivity|].
    intros w1.
    destruct (evaluateOutcome_fields g w1) as (g' & w2 & E & O & _).
    rewrite E. cbn [fst snd]. rewrite O.
    f_equal. unfold decideOutcome. now rewrite P, D.
Qed.

(** X22.  The initial round needs a third card.  With a shoe in place and
    the card source answering the request for four cards: when more than
    two cards were delivered the turn shows the player's two cards, their
    total and the third delivered card as the dealer's upcard, and passes
    to the player's turn; when two or fewer were delivered the hands are
    set all the same, no upcard can be shown, and the process is stopped
    with "dealer upcard unable to be determined". *)
Theorem initial_round_needs_a_third_card
  {W : Type} `{Api.CardSource W} `{Storage.PlayerStorage W}
  `{App.Terminal W} (fuel : nat) (app : App.t) (w w' : W)
  (dm : DeckManager.t) (result : Api.DrawCardResult) :
  App.gameState app = App.INITIAL_ROUND ->
  deckManager (App.gameEngine app) = Some dm ->
  Api.drawCard (DeckManager.deckId dm) 4 w = (Ok result, w') ->
  exists g' : GameEngine.t,
    dealInitialCards (App.gameEngine app) w = (Ok tt, g', w')
    /\ getCards (player g') = firstn 2 (Api.cards result)
    /\ match nth_error (Api.cards result) 2 with
       | Some upcard =>
           App.step fuel app w
           = Some (App.Continue (App.mk App.PLAYER_TURN g'),
                   App.print
                     (App.CardsForPlayerTurn (firstn 2 (Api.cards result))
                        (value (cardTotalOf (firstn 2 (Api.cards result))))
                        upcard) w')
       | None =>
           (List.length (Api.cards result) <= 2)%nat
           /\ App.step fuel app w
              = Some (App.ProcessExit (App.mk App.INITIAL_ROUND g'),
                      App.print
                        (App.ErrorChain
                           (mkError "dealer upcard unable to be determined"))
                        w')
       end.
Proof.
  intros State D A.
  destruct (dealInitialCards_splits_the_delivery_helper
              (App.gameEngine app) w w' dm result D A)
    as (g' & Deal & PC & Up).
  exists g'. split; [exact Deal|]. split; [exact PC|].
  unfold App.step, App.showCardsForPlayerTurn. rewrite State, Deal.
  cbn [App.gameEngine]. rewrite Up.
  destruct (nth_error (Api.cards result) 2) as [upcard|] eqn:N.
  - unfold getPlayerCards, getPlayerTotal, getCardTotal. rewrite PC.
    reflexivity.
  - split; [now apply nth_error_None|reflexivity].
Qed.


Section PayoutWorld.
Context {W : Type} `{Storage.PlayerStorage W}.

Lemma evaluateOutcome_world (g : GameEngine.t) (w : W) :
  exists g' : GameEngine.t,
    evaluateOutcome g w = (Ok tt, g', snd (Player.save (player g') w))
    /\ Player.username (player g') = Player.username (player g)
    /\ GameEngine.unhandled g'
       = match fst (fst (Player.save (player g') w)) with
         | Ok _ => GameEngine.unhandled g
         | Throw err => GameEngine.unhandled g ++ [err]
         end.
Proof.
  rewrite evaluateOutcome_eq.
  match goal with
  | |- context [Player.save (player ?x) w] => set (g2 := x)
  end.
  assert (Name : Player.username (player g2) = Player.username (player g))
    by reflexivity.
  assert (Pending : GameEngine.unhandled g2 = GameEngine.unhandled g)
    by reflexivity.
  clearbody g2.
  destruct (Player.save (player g2) w) as [[[[]|err] p'] w'] eqn:Save.
  - exists g2. rewrite Save. split; [reflexivity|].
    split; [exact Name|exact Pending].
  - exists (unhandledRejection err g2).
    change (player (unhandledRejection err g2)) with (player g2).
    rewrite Save. split; [reflexivity|]. split; [exact Name|].
    cbn [fst unhandledRejection GameEngine.unhandled]. now rewrite Pending.
Qed.

End PayoutWorld.

(** X24.  The payout is written to the storage, but the write is not
    awaited.  Over the LevelDB storage, for a player with a name:
    [evaluateOutcome] always returns normally with the balance credited;
    it puts the player's name and credited balance under the player's
    key; when the [put] succeeds on a database that keeps what is put, a
    [load] of the name then yields the credited balance; when the [put]
    fails [evaluateOutcome] returns normally all the same, the failure
    not being thrown to its caller, and the balance is credited in
    memory only.  The failure is not handled either: wrapped as "Error
    saving player", it is left as a rejection nothing handles, while a
    [put] that succeeds leaves none. *)
Theorem payout_is_saved_but_the_save_is_not_awaited
  {W : Type} `{LevelDb.Db W} (g : GameEngine.t) (w : W) :
  LevelDb.keepsWhatIsPut ->
  Player.username (player g) <> EmptyString ->
  exists (g' : GameEngine.t) (w' : W),
    @evaluateOutcome W LevelDb.storage g w = (Ok tt, g', w')
    /\ Player.username (player g') = Player.username (player g)
    /\ w' = snd (LevelDb.put (LevelDb.key (Player.username (player g)))
                   (Storage.mkPlayerData (Player.username (player g))
                      (Player.balance (player g'))) w)
    /\ (forall w1 : W,
          LevelDb.put (LevelDb.key (Player.username (player g)))
            (Storage.mkPlayerData (Player.username (player g))
               (Player.balance (player g'))) w = (Ok tt, w1) ->
          fst (LevelDb.load (Player.username (player g)) w')
          = Ok (Some (Storage.mkPlayerData (Player.username (player g))
                        (Player.balance (player g')))))
    /\ GameEngine.unhandled g'
       = match fst (LevelDb.put (LevelDb.key (Player.username (player g)))
                      (Storage.mkPlayerData (Player.username (player g))
                         (Player.balance (player g'))) w)
         with
         | Ok _ => GameEngine.unhandled g
         | Throw err =>
             GameEngine.unhandled g
             ++ [mkErrorCause "Error saving player" err]
         end.
Proof.
  intros Law Named.
  destruct (@evaluateOutcome_world W LevelDb.storage g w)
    as (g' & E & U & Pending).
  exists g', (snd (@Player.save W LevelDb.storage (player g') w)).
  split; [exact E|]. split; [exact U|].
  pose proof (@storage_rejections_and_misses_helper W _ w (player g'))
    as Save.
  rewrite U in Save. specialize (Save Named).
  destruct (LevelDb.put _ _ w) as [[[]|err] w1] eqn:Put;
    rewrite Save in Pending |- *; cbn [fst snd] in Pending |- *;
    (split; [reflexivity|]); (split; [|exact Pending]).
  - intros w1' Eq. injection Eq as <-.
    destruct (Law _ _ _ _ Put) as [Same _].
    unfold LevelDb.load.
    destruct (String.eqb_spec (Player.username (player g)) EmptyString)
      as [Em|_]; [now elim Named|].
    destruct (LevelDb.get _ w1) as [r w3]. cbn [fst] in Same. now subst r.
  - discriminate.
Qed.

(** * The further properties at concrete inputs *)


Lemma without_a_shoe_nothing_is_drawn_witness :
  hitPlayer (GameEngine.new (Player.new "testUser" (ofZ 100))) quiet
  = (Throw (mkErrorCause "Failed to hit player" deckManagerUndefined),
     GameEngine.new (Player.new "testUser" (ofZ 100)), quiet).
Proof.
  destruct (without_a_shoe_nothing_is_drawn
              (GameEngine.new (Player.new "testUser" (ofZ 100))) quiet 4 0)
    as (_ & _ & _ & Hit & _); [reflexivity|exact Hit].
Defined.


Lemma play_never_moves_money_witness :
  Player.balance
    (player
       (snd (fst (hitDealer (engine [] [card RK SPADES; card R6 HEARTS] 100 0)
                    (drawing [deliver [card R5 DIAMONDS] 300])))))
  = ofZ 100.
Proof.
  apply (play_never_moves_money
           (engine [] [card RK SPADES; card R6 HEARTS] 100 0)
           (snd (fst (hitDealer
                        (engine [] [card RK SPADES; card R6 HEARTS] 100 0)
                        (drawing [deliver [card R5 DIAMONDS] 300]))))
           (drawing [deliver [card R5 DIAMONDS] 300])
           (snd (hitDealer
                   (engine [] [card RK SPADES; card R6 HEARTS] 100 0)
                   (drawing [deliver [card R5 DIAMONDS] 300])))).
  eapply plays_hitDealer; [|apply plays_done].
  vm_compute. reflexivity.
Defined.

Lemma round_settles_the_stake_witness :
  let w := drawing [deliver [card RA SPADES; card RK SPADES;
                             card R7 DIAMONDS; card R8 DIAMONDS] 308] in
  let g1 := snd (fst (placeBet (ofZ 100) (engine [] [] 100 0) w)) in
  exists (o : Outcome) (g3 : GameEngine.t) (w3 : World),
    evaluateOutcome (snd (fst (dealInitialCards g1 w))) quiet
    = (Ok tt, g3, w3)
    /\ outcome g3 = Some o
    /\ denotes (Player.balance (player g3))
         (inject_Z 100 + inject_Z 100 * netFactor o)%Q.
Proof.
  intros w g1.
  apply (round_settles_the_stake 100 100 (engine [] [] 100 0) g1
           (snd (fst (dealInitialCards g1 w))) w w quiet).
  - vm_compute. discriminate.
  - vm_compute. discriminate.
  - reflexivity.
  - vm_compute. reflexivity.
  - eapply plays_deal; [|apply plays_done]. vm_compute. reflexivity.
Defined.

Lemma busted_player_never_wins_witness :
  exists (o : Outcome) (g' : GameEngine.t) (w' : World),
    evaluateOutcome
      (engine [card RK SPADES; card R7 HEARTS; card R5 CLUBS]
         [card R7 DIAMONDS; card R8 DIAMONDS] 0 100) quiet
    = (Ok tt, g', w')
    /\ outcome g' = Some o /\ o = DealerWon.
Proof.
  destruct (busted_player_never_wins
              (engine [card RK SPADES; card R7 HEARTS; card R5 CLUBS]
                 [card R7 DIAMONDS; card R8 DIAMONDS] 0 100) quiet)
    as (o & g' & w' & E & O & Is & _); [reflexivity|].
  exists o, g', w'. split; [exact E|]. split; [exact O|exact Is].
Defined.

Lemma dealer_stands_between_17_and_26_witness :
  match playThroughDealer 17
          (engine [] [card RA HEARTS; card R6 SPADES] 0 100)
          (drawing [deliver [card R5 DIAMONDS] 300;
                    deliver [card R7 CLUBS] 299])
  with
  | Some (Ok _, g', _) => 17 <= value (getCardTotal (dealer g')) <= 26
  | _ => False
  end.
Proof.
  destruct (playThroughDealer 17
              (engine [] [card RA HEARTS; card R6 SPADES] 0 100)
              (drawing [deliver [card R5 DIAMONDS] 300;
                        deliver [card R7 CLUBS] 299]))
    as [[[[[]|err] g'] w']|] eqn:E.
  - destruct (dealer_stands_between_17_and_26 _ _ _ _ _ E) as [_ Hit].
    apply Hit. reflexivity.
  - vm_compute in E. discriminate E.
  - vm_compute in E. discriminate E.
Defined.

Lemma client_drawCard_keeps_the_recognised_cards_witness :
  exists result : Api.DrawCardResult,
    Client.drawCard "wire-deck" 3
      (Wire.mkWorld
         [Wire.delivering
            [Client.mkApiCard "AS" "ACE" SPADES;
             Client.mkApiCard "XX" "JOKER" HEARTS;
             Client.mkApiCard "0D" "10" DIAMONDS] 49] [])
    = (Ok result,
       Wire.mkWorld []
         ["https://deckofcardsapi.com/api/deck/wire-deck/draw"%string])
    /\ Api.remaining result = ofZ 49
    /\ (List.length (Api.cards result) <= 3)%nat.
Proof.
  destruct (client_drawCard_keeps_the_recognised_cards
              "wire-deck" 3
              (Wire.mkWorld
                 [Wire.delivering
                    [Client.mkApiCard "AS" "ACE" SPADES;
                     Client.mkApiCard "XX" "JOKER" HEARTS;
                     Client.mkApiCard "0D" "10" DIAMONDS] 49] [])
              (Wire.mkWorld []
                 ["https://deckofcardsapi.com/api/deck/wire-deck/draw"%string])
              (Client.mkDrawCardApiResponse true
                 [Client.mkApiCard "AS" "ACE" SPADES;
                  Client.mkApiCard "XX" "JOKER" HEARTS;
                  Client.mkApiCard "0D" "10" DIAMONDS] (ofZ 49)))
    as (result & E & R & _ & Le & _).
  - discriminate.
  - reflexivity.
  - reflexivity.
  - exists result. split; [exact E|]. split; [exact R|exact Le].
Defined.

Lemma deckManager_counts_the_recognised_cards_witness :
  @DeckManager.drawCard Wire.World Client.cardSource
    (DeckManager.new "wire-deck" (ofZ 312))
    (Wire.mkWorld
       [Wire.delivering [Client.mkApiCard "XX" "JOKER" HEARTS] 311] [])
  = (Throw
       (mkErrorCause "Failed to draw card"
          (mkError "Wrong number of cards drawn.  Expected 1, Received: 0")),
     DeckManager.new "wire-deck" (ofZ 312),
     Wire.mkWorld []
       ["https://deckofcardsapi.com/api/deck/wire-deck/draw"%string]).
Proof.
  destruct (deckManager_counts_the_recognised_cards
              (DeckManager.new "wire-deck" (ofZ 312))
              (Wire.mkWorld
                 [Wire.delivering [Client.mkApiCard "XX" "JOKER" HEARTS] 311]
                 [])
              (Wire.mkWorld []
                 ["https://deckofcardsapi.com/api/deck/wire-deck/draw"%string])
              (Client.mkDrawCardApiResponse true
                 [Client.mkApiCard "XX" "JOKER" HEARTS] (ofZ 311)))
    as (_ & _ & Unknown).
  - discriminate.
  - reflexivity.
  - reflexivity.
  - apply (Unknown (Client.mkApiCard "XX" "JOKER" HEARTS)); reflexivity.
Defined.

Lemma saved_player_loads_back_witness :
  fst (LevelDb.load "ann"
         [(LevelDb.key "ann", Storage.mkPlayerData "ann" (ofZ 150))])
  = Ok (Some (Storage.mkPlayerData "ann" (ofZ 150))).
Proof.
  destruct (saved_player_loads_back
              (Player.new "ann" (ofZ 150)) (Player.new "ann" (ofZ 150))
              ([] : MemDb.World)
              [(LevelDb.key "ann", Storage.mkPlayerData "ann" (ofZ 150))])
    as (_ & Back & _).
  - exact MemDb_keepsWhatIsPut.
  - reflexivity.
  - exact Back.
Defined.

Lemma payout_is_saved_but_the_save_is_not_awaited_witness :
  exists (g' : GameEngine.t) (w' : MemDb.World),
    @evaluateOutcome MemDb.World LevelDb.storage
      (GameEngine.mk None
         (Dealer.mk [card R7 DIAMONDS; card R8 DIAMONDS])
         (Player.mk [card RA SPADES; card RK SPADES] "ann" (ofZ 0)
            (ofZ 100))
         None None []) []
    = (Ok tt, g', w')
    /\ fst (LevelDb.load "ann" w')
       = Ok (Some (Storage.mkPlayerData "ann"
                     (Player.balance (player g')))).
Proof.
  destruct (payout_is_saved_but_the_save_is_not_awaited
              (GameEngine.mk None
                 (Dealer.mk [card R7 DIAMONDS; card R8 DIAMONDS])
                 (Player.mk [card RA SPADES; card RK SPADES] "ann" (ofZ 0)
                    (ofZ 100))
                 None None []) ([] : MemDb.World))
    as (g' & w' & E & _ & _ & Saved & _).
  - exact MemDb_keepsWhatIsPut.
  - discriminate.
  - exists g', w'. split; [exact E|].
    apply (Saved ((LevelDb.key "ann",
                   Storage.mkPlayerData "ann" (Player.balance (player g')))
                  :: [])).
    reflexivity.
Defined.



(** A round at the table, turn by turn: the bet of the whole balance, the
    deal of a player blackjack, the skipped player turn, the dealer's
    play (15, then a 5 for 20), the round's end paying 250, and the
    return of [run]. *)
Example a_round_at_the_table :
  let script :=
    drawing [deliver [card RA SPADES; card RK SPADES;
                      card R7 DIAMONDS; card R8 DIAMONDS] 308;
             deliver [card R5 CLUBS] 307] in
  let turn (x : option (App.Step * Table.World)) :=
    match x with
    | Some (App.Continue app, w) => App.step 17 app w
    | _ => None
    end in
  let start :=
    Some (App.Continue (App.mk App.BET_BEFORE_ROUND (engine [] [] 100 0)),
          Table.seated script) in
  match turn (turn (turn (turn (turn start)))) with
  | Some (App.Returned app, (_, printed)) =>
      App.gameState app = App.EXIT
      /\ Player.balance (player (App.gameEngine app)) = ofZ 250
      /\ getCards (dealer (App.gameEngine app))
         = [card R7 DIAMONDS; card R8 DIAMONDS; card R5 CLUBS]
      /\ hd_error printed = Some App.Goodbye
  | _ => False
  end.
Proof. vm_compute. repeat split. Qed.

Lemma app_turn_follows_the_state_machine_witness :
  exists (s : App.Step) (w' : Table.World),
    App.step 17
      (App.mk App.DEALER_TURN
         (engine [card RK SPADES; card R9 HEARTS]
            [card R7 DIAMONDS; card R8 DIAMONDS] 0 100))
      (Table.seated (drawing [deliver [card R5 CLUBS] 307]))
    = Some (s, w')
    /\ App.gameState (App.appOf s) = App.ROUND_END.
Proof.
  destruct (app_turn_follows_the_state_machine 17
              (App.mk App.DEALER_TURN
                 (engine [card RK SPADES; card R9 HEARTS]
                    [card R7 DIAMONDS; card R8 DIAMONDS] 0 100))
              (Table.seated (drawing [deliver [card R5 CLUBS] 307])))
    as (s & w' & E & _); [apply le_n|].
  exists s, w'. split; [exact E|].
  vm_compute in E. injection E as <- _. reflexivity.
Defined.



Lemma blackjack_skips_the_player_turn_witness :
  App.step 17
    (App.mk App.PLAYER_TURN
       (engine [card RA SPADES; card RK SPADES]
          [card R7 DIAMONDS; card R8 DIAMONDS] 0 100))
    (Table.seated quiet)
  = Some (App.Continue
            (App.mk App.DEALER_TURN
               (engine [card RA SPADES; card RK SPADES]
                  [card R7 DIAMONDS; card R8 DIAMONDS] 0 100)),
          (quiet, [App.PlayerBlackjack])).
Proof.
  destruct (blackjack_skips_the_player_turn 17
              (App.mk App.PLAYER_TURN
                 (engine [card RA SPADES; card RK SPADES]
                    [card R7 DIAMONDS; card R8 DIAMONDS] 0 100))
              (Table.seated quiet) eq_refl) as [Player _].
  apply Player. reflexivity.
Defined.

Lemma initial_round_needs_a_third_card_witness :
  exists g' : GameEngine.t,
    App.step 17 (App.mk App.INITIAL_ROUND (engine [] [] 0 100))
      (Table.seated
         (drawing [deliver [card RA SPADES; card RK SPADES] 310]))
    = Some (App.ProcessExit (App.mk App.INITIAL_ROUND g'),
            (quiet,
             [App.ErrorChain
                (mkError "dealer upcard unable to be determined")]))
    /\ getCards (player g') = [card RA SPADES; card RK SPADES].
Proof.
  destruct (initial_round_needs_a_third_card 17
              (App.mk App.INITIAL_ROUND (engine [] [] 0 100))
              (Table.seated
                 (drawing [deliver [card RA SPADES; card RK SPADES] 310]))
              (Table.seated quiet) shoe312
              (Api.mkDrawCardResult [card RA SPADES; card RK SPADES]
                 (ofZ 310)))
    as (g' & _ & PC & Exit).
  - reflexivity.
  - reflexivity.
  - reflexivity.
  - exists g'. split; [exact (proj2 Exit)|exact PC].
Defined.


(** A round's end whose save is rejected: a player without a name wins
    with 19 against 17, the winning line and the credited balance are
    printed, and there the process ends over the rejection; the
    play-again prompt is not answered. *)
Example a_rejected_save_ends_the_process :
  let g :=
    GameEngine.mk (Some shoe312)
      (Dealer.mk [card R7 DIAMONDS; card RK CLUBS])
      (Player.mk [card RK SPADES; card R9 HEARTS] EmptyString (ofZ 0)
         (ofZ 100))
      None None [] in
  match App.step 17 (App.mk App.ROUND_END g) (Table.seated quiet) with
  | Some (App.Crashed err app, (_, printed)) =>
      err = mkError "Username is invalid"
      /\ App.gameState app = App.ROUND_END
      /\ Player.balance (player (App.gameEngine app)) = ofZ 200
      /\ firstn 2 printed
         = [App.Balance (ofZ 200); App.PlayerWins (ofZ 200)]
  | _ => False
  end.
Proof. vm_compute. repeat split. Qed.

